(** * Message parsing and text normalisation of rspamd (libmime/message.c)

    A shallow embedding of the message orchestrator: the two-part edit
    distance [rspamd_words_levenshtein_distance], the GTUBE probe
    [rspamd_check_gtube], the per-part pipeline
    [rspamd_message_process_text_part] with its helpers
    ([detect_text_language], [rspamd_normalize_text_part],
    [rspamd_extract_words]), the driver [rspamd_message_parse] with
    [rspamd_message_from_data], and the header lookups
    [rspamd_message_get_header_from_hash], [rspamd_message_get_header_array]
    and [rspamd_message_get_mime_header_array].

    Conventions.
    - A [guint] is a [Z] reduced modulo 2^32 after every addition; flag
      words are [Z] combined with [Z.land], [Z.lor] and [Z.lnot].
    - A byte slice is a [list byte]; a NUL-terminated C string is a [string].
      The message of the task is a slice behind a pointer that may be NULL:
      [None] is a NULL [msg.begin], which comes with the length 0.
    - A pointer to a MIME part is its index in [parts]; a pointer to a text
      part is its index in [text_parts]; [None] is the NULL pointer.
    - The task is threaded through a state monad whose failure outcome
      stands for the end of the process: a dereference of a NULL or dangling
      pointer, a read past the end of an array, or a failed [g_assert].
    - Functions and constants of other translation units are collected in
      two records, [flag_consts] and [externals]; nothing is assumed about
      them unless a theorem says so.  Pool destructors are not modelled. *)

From Stdlib Require Import ZArith List String Strings.Ascii Strings.Byte Bool Lia.
From Stdlib Require Import Floats.PrimFloat Numbers.Cyclic.Int63.Uint63.
From Stdlib Require Import Sorting.Sorted.
From stdpp Require Import base list gmap strings.
Import ListNotations.
Open Scope Z_scope.

(** ** Machine integers and byte strings *)

Definition guint (z : Z) : Z := z mod 2 ^ 32.

(** A [gint] read off a 64-bit difference: the low 32 bits, signed. *)
Definition gint (z : Z) : Z :=
  let r := z mod 2 ^ 32 in if r <? 2 ^ 31 then r else r - 2 ^ 32.

(** [(gdouble) n] for an unsigned 32-bit [n]: the conversion is exact. *)
Definition gdouble_of_guint (n : Z) : float := PrimFloat.of_uint63 (Uint63.of_Z n).

Definition bytes_of (s : string) : list byte := list_byte_of_string s.

Fixpoint bytes_eqb (a b : list byte) : bool :=
  match a, b with
  | [], [] => true
  | x :: a', y :: b' => Byte.eqb x y && bytes_eqb a' b'
  | _, _ => false
  end.

(** [memcmp (p, lit, n) == 0] where [n] is the length of [lit]. *)
Definition memcmp_eq (p lit : list byte) : bool :=
  bytes_eqb (take (length lit) p) lit.

(** GLib's [g_ascii_isspace]: space, horizontal tab, line feed, form feed
    and carriage return.  The vertical tab (0x0b) carries only the control
    bit in GLib's table and is not white space, unlike for [isspace] of the
    C library. *)
Definition g_ascii_isspace (c : byte) : bool :=
  match c with
  | x20 | x09 | x0a | x0c | x0d => true
  | _ => false
  end.

(** ** Data model *)

Inductive log_level := LOG_ERR | LOG_WARN | LOG_INFO | LOG_DEBUG.

(** One call of [msg_err_task], [msg_warn_task], [msg_info_task] or
    [debug_task]/[msg_debug_task]: its level and its format string. *)
Record log_record := mkLog { log_lvl : log_level; log_fmt : string }.

Record GError := mkGError { err_code : Z; err_message : string }.

Record rspamd_config := mkConfig {
  check_text_attachements : bool;
  allow_raw_input : bool;
  ignore_received : bool;
  libs_ctx : bool   (* whether [cfg->libs_ctx] is set *)
}.

(** [rspamd_ftok_t]: a length and the bytes found at [begin]. *)
Record rspamd_ftok_t := mkTok { tok_len : Z; tok_begin : list byte }.

Record rspamd_content_type := mkCt {
  ct_type : rspamd_ftok_t;
  subtype : rspamd_ftok_t;
  ct_flags : Z
}.

Inductive rspamd_cd_type := RSPAMD_CT_UNKNOWN | RSPAMD_CT_INLINE | RSPAMD_CT_ATTACHMENT.

Record rspamd_content_disposition := mkCd { cd_type : rspamd_cd_type }.

Inductive rspamd_exception_type :=
  RSPAMD_EXCEPTION_NEWLINE | RSPAMD_EXCEPTION_URL | RSPAMD_EXCEPTION_GENERIC.

Record rspamd_process_exception := mkEx {
  ex_pos : Z;
  ex_len : Z;
  ex_type : rspamd_exception_type
}.

Record rspamd_mime_header := mkHdr {
  hdr_name : string;
  hdr_value : string;
  hdr_decoded : string
}.

(** A header table: [g_hash_table_lookup] is application, whatever key
    comparison the table was created with. *)
Definition GHashTable := string -> option (list rspamd_mime_header).

Record rspamd_url := mkUrl { url_string : list byte }.

Record html_content := mkHtml { html_tags : list (list byte) }.

Record rspamd_mime_part := mkPart {
  ct : option rspamd_content_type;
  cd : option rspamd_content_disposition;
  raw_data : list byte;
  parsed_data : list byte;
  parent_part : option nat;
  mp_flags : Z;
  specific_txt : option nat;
  mp_raw_headers : GHashTable;
  mp_digest : list byte
}.

Record rspamd_mime_text_part := mkTextPart {
  language : option string;
  lang_code : option string;
  script : nat;
  raw : list byte;
  parsed : list byte;
  content : option (list byte);
  stripped_content : option (list byte);
  newlines : option (list Z);
  html : option html_content;
  exceptions : list rspamd_process_exception;
  mime_part : option nat;
  normalized_words : option (list rspamd_ftok_t);
  normalized_hashes : option (list Z);
  nlines : Z;
  tp_flags : Z
}.

Record received_header := mkRecv {
  from_hostname : option string;
  from_ip : option string;
  real_hostname : option string;
  real_ip : option string;
  recv_addr : option (list byte)
}.

Inductive metric_action := METRIC_ACTION_REJECT | METRIC_ACTION_NOACTION | METRIC_ACTION_MAX.

Record rspamd_metric_result := mkMres { mres_score : float; mres_action : metric_action }.

Record pre_result_t := mkPre { pre_action : metric_action; pre_str : option string }.

(** What a pool variable points to: a [gdouble] or a [guint]. *)
Inductive pool_value := VDouble (d : float) | VUInt (n : Z).

Record rspamd_task := mkTask {
  msg : option (list byte);   (* [msg.begin]; [msg.len] is the length *)
  task_flags : Z;
  cfg : option rspamd_config;
  message_id : option string;
  queue_id : option string;
  subject : option string;
  raw_headers : GHashTable;
  request_headers : string -> option rspamd_ftok_t;
  parts : list rspamd_mime_part;
  text_parts : list rspamd_mime_text_part;
  received : list received_header;
  from_addr : option (list byte);
  hostname : option string;
  from_envelope : option (list byte);
  deliver_to : option string;
  rcpt_mime : option (list string);
  from_mime : option (list string);
  urls : list rspamd_url;
  emails : list rspamd_url;
  err : option GError;
  pre_result : pre_result_t;
  messages : list (string * string);
  metric_res : option rspamd_metric_result;
  symbols : list (string * float);
  pool_variables : gmap string pool_value;
  digest : list byte;
  log : list log_record
}.

(** ** Field updates

    [set_f v x] is [x] after the assignment [x->f = v]. *)

Definition set_msg (v : option (list byte)) (t : rspamd_task) : rspamd_task :=
  mkTask v (task_flags t) (cfg t) (message_id t) (queue_id t) (subject t)
    (raw_headers t) (request_headers t) (parts t) (text_parts t) (received t)
    (from_addr t) (hostname t) (from_envelope t) (deliver_to t) (rcpt_mime t)
    (from_mime t) (urls t) (emails t) (err t) (pre_result t) (messages t)
    (metric_res t) (symbols t) (pool_variables t) (digest t) (log t).

Definition set_task_flags (v : Z) (t : rspamd_task) : rspamd_task :=
  mkTask (msg t) v (cfg t) (message_id t) (queue_id t) (subject t)
    (raw_headers t) (request_headers t) (parts t) (text_parts t) (received t)
    (from_addr t) (hostname t) (from_envelope t) (deliver_to t) (rcpt_mime t)
    (from_mime t) (urls t) (emails t) (err t) (pre_result t) (messages t)
    (metric_res t) (symbols t) (pool_variables t) (digest t) (log t).

Definition set_message_id (v : option string) (t : rspamd_task) : rspamd_task :=
  mkTask (msg t) (task_flags t) (cfg t) v (queue_id t) (subject t)
    (raw_headers t) (request_headers t) (parts t) (text_parts t) (received t)
    (from_addr t) (hostname t) (from_envelope t) (deliver_to t) (rcpt_mime t)
    (from_mime t) (urls t) (emails t) (err t) (pre_result t) (messages t)
    (metric_res t) (symbols t) (pool_variables t) (digest t) (log t).

Definition set_queue_id (v : option string) (t : rspamd_task) : rspamd_task :=
  mkTask (msg t) (task_flags t) (cfg t) (message_id t) v (subject t)
    (raw_headers t) (request_headers t) (parts t) (text_parts t) (received t)
    (from_addr t) (hostname t) (from_envelope t) (deliver_to t) (rcpt_mime t)
    (from_mime t) (urls t) (emails t) (err t) (pre_result t) (messages t)
    (metric_res t) (symbols t) (pool_variables t) (digest t) (log t).

Definition set_subject (v : option string) (t : rspamd_task) : rspamd_task :=
  mkTask (msg t) (task_flags t) (cfg t) (message_id t) (queue_id t) v
    (raw_headers t) (request_headers t) (parts t) (text_parts t) (received t)
    (from_addr t) (hostname t) (from_envelope t) (deliver_to t) (rcpt_mime t)
    (from_mime t) (urls t) (emails t) (err t) (pre_result t) (messages t)
    (metric_res t) (symbols t) (pool_variables t) (digest t) (log t).

Definition set_parts (v : list rspamd_mime_part) (t : rspamd_task) : rspamd_task :=
  mkTask (msg t) (task_flags t) (cfg t) (message_id t) (queue_id t)
    (subject t) (raw_headers t) (request_headers t) v (text_parts t)
    (received t) (from_addr t) (hostname t) (from_envelope t) (deliver_to t)
    (rcpt_mime t) (from_mime t) (urls t) (emails t) (err t) (pre_result t)
    (messages t) (metric_res t) (symbols t) (pool_variables t) (digest t)
    (log t).

Definition set_text_parts (v : list rspamd_mime_text_part) (t : rspamd_task) : rspamd_task :=
  mkTask (msg t) (task_flags t) (cfg t) (message_id t) (queue_id t)
    (subject t) (raw_headers t) (request_headers t) (parts t) v (received t)
    (from_addr t) (hostname t) (from_envelope t) (deliver_to t) (rcpt_mime t)
    (from_mime t) (urls t) (emails t) (err t) (pre_result t) (messages t)
    (metric_res t) (symbols t) (pool_variables t) (digest t) (log t).

Definition set_received (v : list received_header) (t : rspamd_task) : rspamd_task :=
  mkTask (msg t) (task_flags t) (cfg t) (message_id t) (queue_id t)
    (subject t) (raw_headers t) (request_headers t) (parts t) (text_parts t) v
    (from_addr t) (hostname t) (from_envelope t) (deliver_to t) (rcpt_mime t)
    (from_mime t) (urls t) (emails t) (err t) (pre_result t) (messages t)
    (metric_res t) (symbols t) (pool_variables t) (digest t) (log t).

Definition set_from_addr (v : option (list byte)) (t : rspamd_task) : rspamd_task :=
  mkTask (msg t) (task_flags t) (cfg t) (message_id t) (queue_id t)
    (subject t) (raw_headers t) (request_headers t) (parts t) (text_parts t)
    (received t) v (hostname t) (from_envelope t) (deliver_to t) (rcpt_mime t)
    (from_mime t) (urls t) (emails t) (err t) (pre_result t) (messages t)
    (metric_res t) (symbols t) (pool_variables t) (digest t) (log t).

Definition set_hostname (v : option string) (t : rspamd_task) : rspamd_task :=
  mkTask (msg t) (task_flags t) (cfg t) (message_id t) (queue_id t)
    (subject t) (raw_headers t) (request_headers t) (parts t) (text_parts t)
    (received t) (from_addr t) v (from_envelope t) (deliver_to t)
    (rcpt_mime t) (from_mime t) (urls t) (emails t) (err t) (pre_result t)
    (messages t) (metric_res t) (symbols t) (pool_variables t) (digest t)
    (log t).

Definition set_from_envelope (v : option (list byte)) (t : rspamd_task) : rspamd_task :=
  mkTask (msg t) (task_flags t) (cfg t) (message_id t) (queue_id t)
    (subject t) (raw_headers t) (request_headers t) (parts t) (text_parts t)
    (received t) (from_addr t) (hostname t) v (deliver_to t) (rcpt_mime t)
    (from_mime t) (urls t) (emails t) (err t) (pre_result t) (messages t)
    (metric_res t) (symbols t) (pool_variables t) (digest t) (log t).

Definition set_deliver_to (v : option string) (t : rspamd_task) : rspamd_task :=
  mkTask (msg t) (task_flags t) (cfg t) (message_id t) (queue_id t)
    (subject t) (raw_headers t) (request_headers t) (parts t) (text_parts t)
    (received t) (from_addr t) (hostname t) (from_envelope t) v (rcpt_mime t)
    (from_mime t) (urls t) (emails t) (err t) (pre_result t) (messages t)
    (metric_res t) (symbols t) (pool_variables t) (digest t) (log t).

Definition set_rcpt_mime (v : option (list string)) (t : rspamd_task) : rspamd_task :=
  mkTask (msg t) (task_flags t) (cfg t) (message_id t) (queue_id t)
    (subject t) (raw_headers t) (request_headers t) (parts t) (text_parts t)
    (received t) (from_addr t) (hostname t) (from_envelope t) (deliver_to t) v
    (from_mime t) (urls t) (emails t) (err t) (pre_result t) (messages t)
    (metric_res t) (symbols t) (pool_variables t) (digest t) (log t).

Definition set_from_mime (v : option (list string)) (t : rspamd_task) : rspamd_task :=
  mkTask (msg t) (task_flags t) (cfg t) (message_id t) (queue_id t)
    (subject t) (raw_headers t) (request_headers t) (parts t) (text_parts t)
    (received t) (from_addr t) (hostname t) (from_envelope t) (deliver_to t)
    (rcpt_mime t) v (urls t) (emails t) (err t) (pre_result t) (messages t)
    (metric_res t) (symbols t) (pool_variables t) (digest t) (log t).

Definition set_urls (v : list rspamd_url) (t : rspamd_task) : rspamd_task :=
  mkTask (msg t) (task_flags t) (cfg t) (message_id t) (queue_id t)
    (subject t) (raw_headers t) (request_headers t) (parts t) (text_parts t)
    (received t) (from_addr t) (hostname t) (from_envelope t) (deliver_to t)
    (rcpt_mime t) (from_mime t) v (emails t) (err t) (pre_result t)
    (messages t) (metric_res t) (symbols t) (pool_variables t) (digest t)
    (log t).

Definition set_emails (v : list rspamd_url) (t : rspamd_task) : rspamd_task :=
  mkTask (msg t) (task_flags t) (cfg t) (message_id t) (queue_id t)
    (subject t) (raw_headers t) (request_headers t) (parts t) (text_parts t)
    (received t) (from_addr t) (hostname t) (from_envelope t) (deliver_to t)
    (rcpt_mime t) (from_mime t) (urls t) v (err t) (pre_result t) (messages t)
    (metric_res t) (symbols t) (pool_variables t) (digest t) (log t).

Definition set_err (v : option GError) (t : rspamd_task) : rspamd_task :=
  mkTask (msg t) (task_flags t) (cfg t) (message_id t) (queue_id t)
    (subject t) (raw_headers t) (request_headers t) (parts t) (text_parts t)
    (received t) (from_addr t) (hostname t) (from_envelope t) (deliver_to t)
    (rcpt_mime t) (from_mime t) (urls t) (emails t) v (pre_result t)
    (messages t) (metric_res t) (symbols t) (pool_variables t) (digest t)
    (log t).

Definition set_pre_result (v : pre_result_t) (t : rspamd_task) : rspamd_task :=
  mkTask (msg t) (task_flags t) (cfg t) (message_id t) (queue_id t)
    (subject t) (raw_headers t) (request_headers t) (parts t) (text_parts t)
    (received t) (from_addr t) (hostname t) (from_envelope t) (deliver_to t)
    (rcpt_mime t) (from_mime t) (urls t) (emails t) (err t) v (messages t)
    (metric_res t) (symbols t) (pool_variables t) (digest t) (log t).

Definition set_messages (v : list (string * string)) (t : rspamd_task) : rspamd_task :=
  mkTask (msg t) (task_flags t) (cfg t) (message_id t) (queue_id t)
    (subject t) (raw_headers t) (request_headers t) (parts t) (text_parts t)
    (received t) (from_addr t) (hostname t) (from_envelope t) (deliver_to t)
    (rcpt_mime t) (from_mime t) (urls t) (emails t) (err t) (pre_result t) v
    (metric_res t) (symbols t) (pool_variables t) (digest t) (log t).

Definition set_metric_res (v : option rspamd_metric_result) (t : rspamd_task) : rspamd_task :=
  mkTask (msg t) (task_flags t) (cfg t) (message_id t) (queue_id t)
    (subject t) (raw_headers t) (request_headers t) (parts t) (text_parts t)
    (received t) (from_addr t) (hostname t) (from_envelope t) (deliver_to t)
    (rcpt_mime t) (from_mime t) (urls t) (emails t) (err t) (pre_result t)
    (messages t) v (symbols t) (pool_variables t) (digest t) (log t).

Definition set_symbols (v : list (string * float)) (t : rspamd_task) : rspamd_task :=
  mkTask (msg t) (task_flags t) (cfg t) (message_id t) (queue_id t)
    (subject t) (raw_headers t) (request_headers t) (parts t) (text_parts t)
    (received t) (from_addr t) (hostname t) (from_envelope t) (deliver_to t)
    (rcpt_mime t) (from_mime t) (urls t) (emails t) (err t) (pre_result t)
    (messages t) (metric_res t) v (pool_variables t) (digest t) (log t).

Definition set_pool_variables (v : gmap string pool_value) (t : rspamd_task) : rspamd_task :=
  mkTask (msg t) (task_flags t) (cfg t) (message_id t) (queue_id t)
    (subject t) (raw_headers t) (request_headers t) (parts t) (text_parts t)
    (received t) (from_addr t) (hostname t) (from_envelope t) (deliver_to t)
    (rcpt_mime t) (from_mime t) (urls t) (emails t) (err t) (pre_result t)
    (messages t) (metric_res t) (symbols t) v (digest t) (log t).

Definition set_digest (v : list byte) (t : rspamd_task) : rspamd_task :=
  mkTask (msg t) (task_flags t) (cfg t) (message_id t) (queue_id t)
    (subject t) (raw_headers t) (request_headers t) (parts t) (text_parts t)
    (received t) (from_addr t) (hostname t) (from_envelope t) (deliver_to t)
    (rcpt_mime t) (from_mime t) (urls t) (emails t) (err t) (pre_result t)
    (messages t) (metric_res t) (symbols t) (pool_variables t) v (log t).

Definition set_log (v : list log_record) (t : rspamd_task) : rspamd_task :=
  mkTask (msg t) (task_flags t) (cfg t) (message_id t) (queue_id t)
    (subject t) (raw_headers t) (request_headers t) (parts t) (text_parts t)
    (received t) (from_addr t) (hostname t) (from_envelope t) (deliver_to t)
    (rcpt_mime t) (from_mime t) (urls t) (emails t) (err t) (pre_result t)
    (messages t) (metric_res t) (symbols t) (pool_variables t) (digest t) v.

Definition set_language (v : option string) (p : rspamd_mime_text_part) : rspamd_mime_text_part :=
  mkTextPart v (lang_code p) (script p) (raw p) (parsed p) (content p)
    (stripped_content p) (newlines p) (html p) (exceptions p) (mime_part p)
    (normalized_words p) (normalized_hashes p) (nlines p) (tp_flags p).

Definition set_lang_code (v : option string) (p : rspamd_mime_text_part) : rspamd_mime_text_part :=
  mkTextPart (language p) v (script p) (raw p) (parsed p) (content p)
    (stripped_content p) (newlines p) (html p) (exceptions p) (mime_part p)
    (normalized_words p) (normalized_hashes p) (nlines p) (tp_flags p).

Definition set_script (v : nat) (p : rspamd_mime_text_part) : rspamd_mime_text_part :=
  mkTextPart (language p) (lang_code p) v (raw p) (parsed p) (content p)
    (stripped_content p) (newlines p) (html p) (exceptions p) (mime_part p)
    (normalized_words p) (normalized_hashes p) (nlines p) (tp_flags p).

Definition set_raw (v : list byte) (p : rspamd_mime_text_part) : rspamd_mime_text_part :=
  mkTextPart (language p) (lang_code p) (script p) v (parsed p) (content p)
    (stripped_content p) (newlines p) (html p) (exceptions p) (mime_part p)
    (normalized_words p) (normalized_hashes p) (nlines p) (tp_flags p).

Definition set_parsed (v : list byte) (p : rspamd_mime_text_part) : rspamd_mime_text_part :=
  mkTextPart (language p) (lang_code p) (script p) (raw p) v (content p)
    (stripped_content p) (newlines p) (html p) (exceptions p) (mime_part p)
    (normalized_words p) (normalized_hashes p) (nlines p) (tp_flags p).

Definition set_content (v : option (list byte)) (p : rspamd_mime_text_part) : rspamd_mime_text_part :=
  mkTextPart (language p) (lang_code p) (script p) (raw p) (parsed p) v
    (stripped_content p) (newlines p) (html p) (exceptions p) (mime_part p)
    (normalized_words p) (normalized_hashes p) (nlines p) (tp_flags p).

Definition set_stripped_content (v : option (list byte)) (p : rspamd_mime_text_part) : rspamd_mime_text_part :=
  mkTextPart (language p) (lang_code p) (script p) (raw p) (parsed p)
    (content p) v (newlines p) (html p) (exceptions p) (mime_part p)
    (normalized_words p) (normalized_hashes p) (nlines p) (tp_flags p).

Definition set_newlines (v : option (list Z)) (p : rspamd_mime_text_part) : rspamd_mime_text_part :=
  mkTextPart (language p) (lang_code p) (script p) (raw p) (parsed p)
    (content p) (stripped_content p) v (html p) (exceptions p) (mime_part p)
    (normalized_words p) (normalized_hashes p) (nlines p) (tp_flags p).

Definition set_html (v : option html_content) (p : rspamd_mime_text_part) : rspamd_mime_text_part :=
  mkTextPart (language p) (lang_code p) (script p) (raw p) (parsed p)
    (content p) (stripped_content p) (newlines p) v (exceptions p)
    (mime_part p) (normalized_words p) (normalized_hashes p) (nlines p)
    (tp_flags p).

Definition set_exceptions (v : list rspamd_process_exception) (p : rspamd_mime_text_part) : rspamd_mime_text_part :=
  mkTextPart (language p) (lang_code p) (script p) (raw p) (parsed p)
    (content p) (stripped_content p) (newlines p) (html p) v (mime_part p)
    (normalized_words p) (normalized_hashes p) (nlines p) (tp_flags p).

Definition set_mime_part (v : option nat) (p : rspamd_mime_text_part) : rspamd_mime_text_part :=
  mkTextPart (language p) (lang_code p) (script p) (raw p) (parsed p)
    (content p) (stripped_content p) (newlines p) (html p) (exceptions p) v
    (normalized_words p) (normalized_hashes p) (nlines p) (tp_flags p).

Definition set_normalized_words (v : option (list rspamd_ftok_t)) (p : rspamd_mime_text_part) : rspamd_mime_text_part :=
  mkTextPart (language p) (lang_code p) (script p) (raw p) (parsed p)
    (content p) (stripped_content p) (newlines p) (html p) (exceptions p)
    (mime_part p) v (normalized_hashes p) (nlines p) (tp_flags p).

Definition set_normalized_hashes (v : option (list Z)) (p : rspamd_mime_text_part) : rspamd_mime_text_part :=
  mkTextPart (language p) (lang_code p) (script p) (raw p) (parsed p)
    (content p) (stripped_content p) (newlines p) (html p) (exceptions p)
    (mime_part p) (normalized_words p) v (nlines p) (tp_flags p).

Definition set_nlines (v : Z) (p : rspamd_mime_text_part) : rspamd_mime_text_part :=
  mkTextPart (language p) (lang_code p) (script p) (raw p) (parsed p)
    (content p) (stripped_content p) (newlines p) (html p) (exceptions p)
    (mime_part p) (normalized_words p) (normalized_hashes p) v (tp_flags p).

Definition set_tp_flags (v : Z) (p : rspamd_mime_text_part) : rspamd_mime_text_part :=
  mkTextPart (language p) (lang_code p) (script p) (raw p) (parsed p)
    (content p) (stripped_content p) (newlines p) (html p) (exceptions p)
    (mime_part p) (normalized_words p) (normalized_hashes p) (nlines p) v.

Definition set_mp_flags (v : Z) (m : rspamd_mime_part) : rspamd_mime_part :=
  mkPart (ct m) (cd m) (raw_data m) (parsed_data m) (parent_part m) v
    (specific_txt m) (mp_raw_headers m) (mp_digest m).

Definition set_specific_txt (v : option nat) (m : rspamd_mime_part) : rspamd_mime_part :=
  mkPart (ct m) (cd m) (raw_data m) (parsed_data m) (parent_part m)
    (mp_flags m) v (mp_raw_headers m) (mp_digest m).

(** ** Constants and functions of other translation units *)

(** The flag bits of [task.h], [message.h] and [content_type.h]. *)
Record flag_consts := mkFlags {
  RSPAMD_TASK_FLAG_MIME : Z;
  RSPAMD_TASK_FLAG_JSON : Z;
  RSPAMD_TASK_FLAG_SKIP : Z;
  RSPAMD_TASK_FLAG_NO_IP : Z;
  RSPAMD_TASK_FLAG_GTUBE : Z;
  RSPAMD_TASK_FLAG_EMPTY : Z;
  RSPAMD_TASK_FLAG_LOCAL_CLIENT : Z;
  RSPAMD_MIME_TEXT_PART_FLAG_UTF : Z;
  RSPAMD_MIME_TEXT_PART_FLAG_BALANCED : Z;
  RSPAMD_MIME_TEXT_PART_FLAG_EMPTY : Z;
  RSPAMD_MIME_TEXT_PART_FLAG_HTML : Z;
  RSPAMD_MIME_PART_TEXT : Z;
  RSPAMD_CONTENT_TYPE_TEXT : Z
}.

(** What [rspamd_html_process_part_full] hands back: the HTML tree, the
    extracted text, and the exception list and URL sets it was given,
    extended. *)
Record html_result := mkHtmlRes {
  hr_html : html_content;
  hr_content : list byte;
  hr_exceptions : list rspamd_process_exception;
  hr_urls : list rspamd_url;
  hr_emails : list rspamd_url
}.

(** A Snowball stemmer: [sb_stemmer_stem] on a word, [None] for NULL. *)
Definition sb_stemmer := rspamd_ftok_t -> option (list byte).

Record externals := mkExt {
  (* build option *)
  WITH_SNOWBALL : bool;
  (* libstemmer *)
  sb_stemmer_new : string -> option sb_stemmer;
  (* tokenizers, str_util, cryptobox *)
  rspamd_tokenize_text : list byte -> bool -> option rspamd_config ->
    list rspamd_process_exception -> option (list rspamd_ftok_t);
  rspamd_str_lc_utf8 : list byte -> list byte;
  rspamd_str_lc : list byte -> list byte;
  rspamd_cryptobox_fast_hash_specific : rspamd_ftok_t -> Z -> Z;
  rspamd_ftok_cmp : rspamd_ftok_t -> rspamd_ftok_t -> Z;
  rspamd_strip_newlines_parse : list byte -> bool -> Z -> list byte * Z * list Z;
  rspamd_cryptobox_hash_init : list byte;
  rspamd_cryptobox_hash_update : list byte -> list byte -> list byte;
  rspamd_cryptobox_hash_final : list byte -> list byte;
  (* GLib unicode *)
  g_utf8_get_char_validated : list byte -> Z;
  g_unichar_isalpha : Z -> bool;
  g_unichar_get_script : Z -> nat;
  (* mime_parser, mime_encoding, html, url *)
  rspamd_mime_parse_task : rspamd_task -> bool * option GError * rspamd_task;
  rspamd_mime_text_part_maybe_convert :
    rspamd_task -> rspamd_mime_text_part -> list byte * Z;
  rspamd_html_process_part_full : list byte ->
    list rspamd_process_exception -> list rspamd_url -> list rspamd_url -> html_result;
  rspamd_url_text_extract : rspamd_task -> rspamd_mime_text_part ->
    list rspamd_url * list rspamd_url * list rspamd_process_exception;
  rspamd_url_find_multiple : rspamd_task -> string -> list rspamd_url * list rspamd_url;
  (* content type, libmagic, message id *)
  rspamd_content_type_parse : rspamd_ftok_t -> option rspamd_content_type;
  magic_buffer : list byte -> option string;
  rspamd_mime_message_id_generate : string -> string;
  (* metric results *)
  rspamd_create_metric_result : rspamd_task -> option rspamd_metric_result;
  rspamd_task_get_required_score : rspamd_task -> rspamd_metric_result -> float;
  (* images, archives: the new flag word of a part *)
  rspamd_images_process : rspamd_task -> rspamd_mime_part -> Z;
  rspamd_archives_process : rspamd_task -> rspamd_mime_part -> Z;
  (* received headers and addresses *)
  rspamd_smtp_recieved_parse : rspamd_task -> string -> received_header;
  rspamd_inet_address_compare : list byte -> list byte -> Z;
  rspamd_inet_address_to_string : list byte -> string;
  rspamd_parse_inet_address : string -> option (list byte);
  rspamd_email_address_from_smtp : string -> option (list byte);
  internet_address_list_parse_string : string -> option (list string)
}.

(** ** The task monad *)

Definition M (A : Type) : Type := rspamd_task -> option (A * rspamd_task).

Definition ret {A} (a : A) : M A := fun t => Some (a, t).

Definition bind {A B} (m : M A) (k : A -> M B) : M B :=
  fun t => match m t with
           | Some (a, t') => k a t'
           | None => None
           end.

(** The process ends here: a dereference of a NULL or dangling pointer, or
    [abort]. *)
Definition fault {A} : M A := fun _ => None.

Definition get : M rspamd_task := fun t => Some (t, t).

Definition modify (f : rspamd_task -> rspamd_task) : M unit :=
  fun t => Some (tt, f t).

Definition deref {A} (o : option A) : M A :=
  match o with Some a => ret a | None => fault end.

Declare Scope task_scope.
Delimit Scope task_scope with task.
Notation "x <- m ;; k" := (bind m (fun x => k))
  (at level 100, m at next level, right associativity) : task_scope.
Notation "m ;;; k" := (bind m (fun _ => k))
  (at level 100, right associativity) : task_scope.
Open Scope task_scope.

Definition when (b : bool) (m : M unit) : M unit := if b then m else ret tt.

(** GLib's [g_assert (p != NULL)]: the process is aborted on a NULL
    pointer; otherwise what [p] points to is at hand. *)
Definition g_assert_not_null {A} (p : option A) : M A :=
  match p with Some a => ret a | None => fault end.

(** [msg_err_task], [msg_warn_task], [msg_info_task], [debug_task]. *)
Definition log_msg (l : log_level) (fmt : string) : M unit :=
  modify (fun t => set_log (log t ++ [mkLog l fmt]) t).

Definition msg_err_task := log_msg LOG_ERR.
Definition msg_warn_task := log_msg LOG_WARN.
Definition msg_info_task := log_msg LOG_INFO.
Definition debug_task := log_msg LOG_DEBUG.
Definition msg_debug_task := log_msg LOG_DEBUG.

(** The part a pointer into [parts] or [text_parts] points to. *)
Definition get_part (i : nat) : M rspamd_mime_part :=
  t <- get ;; deref (parts t !! i).

Definition get_text_part (k : nat) : M rspamd_mime_text_part :=
  t <- get ;; deref (text_parts t !! k).

(** An assignment through a pointer into [parts] or [text_parts]. *)
Definition update_part (i : nat) (f : rspamd_mime_part -> rspamd_mime_part) : M unit :=
  m <- get_part i ;; modify (fun t => set_parts (<[i := f m]> (parts t)) t).

Definition update_text_part (k : nat)
    (f : rspamd_mime_text_part -> rspamd_mime_text_part) : M unit :=
  p <- get_text_part k ;;
  modify (fun t => set_text_parts (<[k := f p]> (text_parts t)) t).

Definition has_flag (flags mask : Z) : bool := negb (Z.land flags mask =? 0).

(** ** Macros of the headers

    Modelled from the spec: the flag tests [RSPAMD_TASK_IS_EMPTY],
    [IS_PART_UTF], [IS_PART_HTML], [IS_PART_EMPTY] and [IS_CT_TEXT] are
    declared in headers outside the sources at hand; each tests the flag bit
    the data model names (empty task; UTF, HTML, empty text part; text-typed
    content type), and [IS_CT_TEXT] guards against a NULL content type. *)

Definition RSPAMD_TASK_IS_EMPTY (K : flag_consts) (t : rspamd_task) : bool :=
  has_flag (task_flags t) (RSPAMD_TASK_FLAG_EMPTY K).

Definition IS_PART_UTF (K : flag_consts) (p : rspamd_mime_text_part) : bool :=
  has_flag (tp_flags p) (RSPAMD_MIME_TEXT_PART_FLAG_UTF K).

Definition IS_PART_HTML (K : flag_consts) (p : rspamd_mime_text_part) : bool :=
  has_flag (tp_flags p) (RSPAMD_MIME_TEXT_PART_FLAG_HTML K).

Definition IS_PART_EMPTY (K : flag_consts) (p : rspamd_mime_text_part) : bool :=
  has_flag (tp_flags p) (RSPAMD_MIME_TEXT_PART_FLAG_EMPTY K).

Definition IS_CT_TEXT (K : flag_consts) (c : option rspamd_content_type) : bool :=
  match c with
  | Some c => has_flag (ct_flags c) (RSPAMD_CONTENT_TYPE_TEXT K)
  | None => false
  end.

(** ** Constants of message.c *)

Definition GTUBE_SYMBOL : string := "GTUBE".

Definition gtube_pattern : string :=
  "XJS*C4JDBQADN1.NSBN3*2IDNEN*GTUBE-STANDARD-ANTI-UBE-TEST-EMAIL*C.34X".

(** [sizeof (gtube_pattern)]: the characters and the terminating NUL. *)
Definition sizeof_gtube_pattern : Z := Z.of_nat (String.length gtube_pattern) + 1.

Definition words_hash_seed : Z := 0xdeadbabe.

Definition max_words : Z := 8192.

Definition max_check_size : Z := 4 * 1024.

Definition max_chars : Z := 32.

Definition MIN3 (a b c : Z) : Z :=
  if a <? b then (if a <? c then a else c) else (if b <? c then b else c).

(** ** The edit distance of the specification

    Written from the specification's words (insert 1, delete 1,
    substitute 2, nothing for equal elements), to be compared with the code. *)
Fixpoint levenshtein_spec (s1 s2 : list Z) : Z :=
  match s1 with
  | [] => Z.of_nat (length s2)
  | a :: s1' =>
      (fix inner (s2 : list Z) : Z :=
         match s2 with
         | [] => Z.of_nat (length s1)
         | b :: s2' =>
             Z.min (Z.min (levenshtein_spec s1' s2 + 1) (inner s2' + 1))
                   (levenshtein_spec s1' s2' + (if a =? b then 0 else 2))
         end) s2
  end.

(** Modelled from the spec: [rspamd_substring_search_twoway] (str_util.c,
    outside the sources at hand) is an exact substring match; it returns the
    offset of the first occurrence of [srch] in [inp], or -1. *)
Fixpoint rspamd_substring_search_twoway_from (off : Z) (inp srch : list byte) : Z :=
  if memcmp_eq inp srch then off
  else match inp with
       | [] => -1
       | _ :: inp' => rspamd_substring_search_twoway_from (off + 1) inp' srch
       end.

Definition rspamd_substring_search_twoway (inp srch : list byte) : Z :=
  rspamd_substring_search_twoway_from 0 inp srch.

(** GLib's [g_utf8_skip] table behind [g_utf8_next_char]. *)
Definition g_utf8_skip (c : byte) : nat :=
  let n := Z.of_N (Byte.to_N c) in
  if n <? 0xc0 then 1 else if n <? 0xe0 then 2 else if n <? 0xf0 then 3
  else if n <? 0xf8 then 4 else if n <? 0xfc then 5 else if n <? 0xfe then 6
  else 1.

(** [struct language_match] and the table of [detect_text_language].  The
    rows are kept sorted by script: GLib numbers the scripts listed here
    consecutively, from [G_UNICODE_SCRIPT_COMMON] = 0 to
    [G_UNICODE_SCRIPT_NKO] = 66, so a row's script is its position. *)
Record language_match := mkLm { lm_code : string; lm_name : string; lm_script : nat }.

Definition language_rows : list (string * string) :=
  [ ("", "english") (* COMMON *); ("", "") (* INHERITED *);
    ("ar", "arabic"); ("hy", "armenian"); ("bn", "chineese") (* BENGALI *);
    ("", "") (* BOPOMOFO *); ("chr", "") (* CHEROKEE *); ("cop", "");
    ("ru", "russian") (* CYRILLIC *); ("", "") (* DESERET *);
    ("hi", "") (* DEVANAGARI *); ("am", "") (* ETHIOPIC *);
    ("ka", "") (* GEORGIAN *); ("", "") (* GOTHIC *); ("el", "greek");
    ("gu", "") (* GUJARATI *); ("pa", "") (* GURMUKHI *);
    ("han", "chineese") (* HAN *); ("ko", "") (* HANGUL *);
    ("he", "hebrew"); ("ja", "") (* HIRAGANA *); ("kn", "") (* KANNADA *);
    ("ja", "") (* KATAKANA *); ("km", "") (* KHMER *); ("lo", "") (* LAO *);
    ("en", "english") (* LATIN *); ("ml", "") (* MALAYALAM *);
    ("mn", "") (* MONGOLIAN *); ("my", "") (* MYANMAR *); ("", "") (* OGHAM *);
    ("", "") (* OLD_ITALIC *); ("or", "") (* ORIYA *); ("", "") (* RUNIC *);
    ("si", "") (* SINHALA *); ("syr", "") (* SYRIAC *); ("ta", "") (* TAMIL *);
    ("te", "") (* TELUGU *); ("dv", "") (* THAANA *); ("th", "") (* THAI *);
    ("bo", "") (* TIBETAN *); ("iu", "") (* CANADIAN_ABORIGINAL *);
    ("", "") (* YI *); ("tl", "") (* TAGALOG *); ("hnn", "") (* HANUNOO *);
    ("bku", "") (* BUHID *); ("tbw", "") (* TAGBANWA *); ("", "") (* BRAILLE *);
    ("", "") (* CYPRIOT *); ("", "") (* LIMBU *); ("", "") (* OSMANYA *);
    ("", "") (* SHAVIAN *); ("", "") (* LINEAR_B *); ("", "") (* TAI_LE *);
    ("uga", "") (* UGARITIC *); ("", "") (* NEW_TAI_LUE *);
    ("bug", "") (* BUGINESE *); ("", "") (* GLAGOLITIC *);
    ("", "") (* TIFINAGH *); ("syl", "") (* SYLOTI_NAGRI *);
    ("peo", "") (* OLD_PERSIAN *); ("", "") (* KHAROSHTHI *);
    ("", "") (* UNKNOWN *); ("", "") (* BALINESE *); ("", "") (* CUNEIFORM *);
    ("", "") (* PHOENICIAN *); ("", "") (* PHAGS_PA *); ("nqo", "") (* NKO *) ].

Definition language_codes : list language_match :=
  imap (fun i r => mkLm (fst r) (snd r) i) language_rows.

Definition G_UNICODE_SCRIPT_COMMON : nat := 0.

Definition language_elts_cmp (sc : nat) (bb : language_match) : Z :=
  Z.of_nat sc - Z.of_nat (lm_script bb).

(** libc's [bsearch] over [base[lo..hi)]. *)
Fixpoint bsearch_range {A} (fuel : nat) (cmp : A -> Z) (base : list A) (lo hi : nat)
    : option A :=
  match fuel with
  | O => None
  | S fuel' =>
      if (lo <? hi)%nat then
        let mid := ((lo + hi) / 2)%nat in
        match base !! mid with
        | None => None
        | Some e =>
            let c := cmp e in
            if c <? 0 then bsearch_range fuel' cmp base lo mid
            else if 0 <? c then bsearch_range fuel' cmp base (mid + 1)%nat hi
            else Some e
        end
      else None
  end.

Definition bsearch {A} (cmp : A -> Z) (base : list A) : option A :=
  bsearch_range (S (length base)) cmp base 0 (length base).

Definition exceptions_compare_func (ea eb : rspamd_process_exception) : Z :=
  gint (ex_pos ea - ex_pos eb).

(** GLib's [g_list_sort] (glist.c) is a merge sort.  [g_list_sort_merge]
    takes the head of the first list as long as the comparison with the head
    of the second one is not positive. *)
Fixpoint g_list_sort_merge {A} (cmp : A -> A -> Z) (l1 : list A) : list A -> list A :=
  fix merge_l2 (l2 : list A) : list A :=
    match l1, l2 with
    | [], _ => l2
    | _, [] => l1
    | a :: l1', b :: l2' =>
        if cmp a b <=? 0 then a :: g_list_sort_merge cmp l1' l2
        else b :: merge_l2 l2'
    end.

(** [g_list_sort_real]: a list of two elements or more is cut after its
    first [n / 2] elements (the pointer [l1] moves one step for every two of
    [l2]), both halves are sorted and then merged.  The depth of the
    recursion is bounded by [fuel]. *)
Fixpoint g_list_sort_real {A} (fuel : nat) (l : list A) (cmp : A -> A -> Z) : list A :=
  match fuel with
  | O => l
  | S fuel' =>
      match l with
      | [] => []
      | [a] => [a]
      | _ =>
          let half := (length l / 2)%nat in
          g_list_sort_merge cmp (g_list_sort_real fuel' (take half l) cmp)
                                (g_list_sort_real fuel' (drop half l) cmp)
      end
  end.

Definition g_list_sort {A} (l : list A) (cmp : A -> A -> Z) : list A :=
  g_list_sort_real (length l) l cmp.

(** [rspamd_mempool_alloc0 (sizeof (struct rspamd_mime_text_part))]. *)
Definition text_part_alloc0 : rspamd_mime_text_part :=
  mkTextPart None None 0%nat [] [] None None None None [] None None None 0 0.

(** The last character of a C string, and the string without it. *)
Fixpoint string_last (s : string) : option Ascii.ascii :=
  match s with
  | EmptyString => None
  | String c EmptyString => Some c
  | String _ s' => string_last s'
  end.

Fixpoint string_init (s : string) : string :=
  match s with
  | EmptyString => EmptyString
  | String c EmptyString => EmptyString
  | String c s' => String c (string_init s')
  end.

(** [PTR_ARRAY_FOREACH (ar, i, cur)]: the body at every index in turn. *)
Fixpoint ptr_array_foreach {A} (i : nat) (ar : list A) (body : nat -> A -> M unit)
    : M unit :=
  match ar with
  | [] => ret tt
  | cur :: ar' => body i cur ;;; ptr_array_foreach (S i) ar' body
  end.

(** ** The functions of message.c *)

Section Message.

Variable K : flag_consts.
Variable X : externals.

(** *** [detect_text_language] (lines 71-198) *)

(** The [while] loop: [p] holds the bytes from the cursor on. *)
Fixpoint detect_text_language_scan (fuel : nat) (p : list byte)
    (remain processed : Z) (scripts : list Z) : list Z :=
  match fuel with
  | O => scripts
  | S fuel' =>
      if (0 <? remain) && (processed <? max_chars) then
        let c := g_utf8_get_char_validated X p in
        if (c =? guint (-2)) || (c =? guint (-1)) then scripts
        else
          let scc := g_unichar_get_script X c in
          let scripts' :=
            if g_unichar_isalpha X c && (scc <? length language_codes)%nat
            then <[scc := scripts !!! scc + 1]> scripts else scripts in
          let processed' := if g_unichar_isalpha X c then processed + 1 else processed in
          let skip := g_utf8_skip (default x00 (head p)) in
          detect_text_language_scan fuel' (drop skip p) (remain - Z.of_nat skip)
            processed' scripts'
      else scripts
  end.

(** The [for] loop choosing the script with the largest count. *)
Definition detect_text_language_select (scripts : list Z) : nat :=
  snd (foldl (fun '(max, sel) remain =>
                if max <? scripts !!! remain then (scripts !!! remain, remain)
                else (max, sel))
             (0, G_UNICODE_SCRIPT_COMMON) (seq 0 (length language_codes))).

Definition detect_text_language (k : nat) : M unit :=
  part <- get_text_part k ;;
  if IS_PART_UTF K part then
    c <- deref (content part) ;;
    (* gint32 remain = part->content->len *)
    let remain := gint (Z.of_nat (length c)) in
    let scripts := detect_text_language_scan (length c) c remain 0
                     (replicate (length language_codes) 0) in
    let sel := detect_text_language_select scripts in
    update_text_part k (fun p =>
      let p := set_script sel p in
      match bsearch (language_elts_cmp sel) language_codes with
      | Some lm => set_language (Some (lm_name lm)) (set_lang_code (Some (lm_code lm)) p)
      | None => p
      end)
  else ret tt.

(** *** [rspamd_extract_words] (lines 200-282) *)

(** The body of the [for] loop: the word as it is left in
    [normalized_words], and the hash appended for it, if any. *)
Definition extract_word (utf : bool) (stem : option sb_stemmer) (w : rspamd_ftok_t)
    : rspamd_ftok_t * option Z :=
  let r := match stem with Some s => s w | None => None end in
  let w' :=
    if (0 <? tok_len w) &&
       negb ((tok_len w =? 6) && memcmp_eq (tok_begin w) (bytes_of "!!EX!!"))
    then
      match r with
      | Some r =>
          let nlen := Z.min (Z.of_nat (length r)) (tok_len w) in
          mkTok nlen (take (Z.to_nat nlen) r)
      | None =>
          let temp_word := take (Z.to_nat (tok_len w)) (tok_begin w) in
          mkTok (tok_len w)
            (if utf then rspamd_str_lc_utf8 X temp_word else rspamd_str_lc X temp_word)
      end
    else w in
  (w', if 0 <? tok_len w'
       then Some (rspamd_cryptobox_fast_hash_specific X w' words_hash_seed)
       else None).

Definition extract_words_loop (utf : bool) (stem : option sb_stemmer)
    (words : list rspamd_ftok_t) : list rspamd_ftok_t * list Z :=
  foldl (fun '(ws, hs) w =>
           let '(w', h) := extract_word utf stem w in
           (ws ++ [w'], match h with Some h => hs ++ [h] | None => hs end))
        ([], []) words.

Definition rspamd_extract_words (k : nat) : M unit :=
  part <- get_text_part k ;;
  task <- get ;;
  stem <- (if WITH_SNOWBALL X then
             match language part with
             | Some l =>
                 if negb (String.eqb l "") && IS_PART_UTF K part then
                   match sb_stemmer_new X l with
                   | Some s => ret (Some s)
                   | None =>
                       msg_info_task "<%s> cannot create lemmatizer for %s language" ;;;
                       ret None
                   end
                 else ret None
             | None => ret None
             end
           else ret None) ;;
  c <- deref (content part) ;;
  let words := rspamd_tokenize_text X c (IS_PART_UTF K part) (cfg task) (exceptions part) in
  match words with
  | Some ws =>
      let '(ws', hs) := extract_words_loop (IS_PART_UTF K part) stem ws in
      update_text_part k (fun p =>
        set_normalized_hashes (Some hs) (set_normalized_words (Some ws') p))
  | None => update_text_part k (set_normalized_words None)
  end.

(** *** [rspamd_normalize_text_part] (lines 284-321) *)

Definition rspamd_normalize_text_part (k : nat) : M unit :=
  part <- get_text_part k ;;
  c <- deref (content part) ;;
  let '(stripped, nl, offs) :=
    rspamd_strip_newlines_parse X c (IS_PART_HTML K part) (nlines part) in
  let exs := foldl (fun exs off => mkEx off 0 RSPAMD_EXCEPTION_NEWLINE :: exs)
                   (exceptions part) offs in
  update_text_part k (fun p =>
    set_exceptions exs (set_newlines (Some offs) (set_nlines nl
      (set_stripped_content (Some stripped) p)))).

(** *** [rspamd_words_levenshtein_distance] (lines 325-372) *)

(** The body of the inner loop, at cell [y] of row [x]; the state is the
    column and [lastdiag]. *)
Definition levenshtein_cell (w1 : list Z) (h2 : Z) (st : list Z * Z) (y : nat)
    : list Z * Z :=
  let '(column, lastdiag) := st in
  let olddiag := column !!! y in
  let h1 := w1 !!! (y - 1)%nat in
  let eq := if h1 =? h2 then 1 else 0 in
  (<[y := MIN3 (guint (column !!! y + 1)) (guint (column !!! (y - 1)%nat + 1))
              (guint (lastdiag + eq * 2))]> column,
   olddiag).

(** The body of the outer loop, at row [x]. *)
Definition levenshtein_row (w1 w2 : list Z) (column : list Z) (x : nat) : list Z :=
  let column := <[0%nat := Z.of_nat x]> column in
  fst (foldl (levenshtein_cell w1 (w2 !!! (x - 1)%nat))
             (column, guint (Z.of_nat x - 1)) (seq 1 (length w1))).

Definition levenshtein_column (w1 w2 : list Z) : list Z :=
  let column := replicate (length w1 + 1) 0 in
  let column := foldl (fun c y => <[y := Z.of_nat y]> c) column (seq 1 (length w1)) in
  foldl (levenshtein_row w1 w2) column (seq 1 (length w2)).

Definition rspamd_words_levenshtein_distance (w1 w2 : list Z) : M Z :=
  let s1len := guint (Z.of_nat (length w1)) in
  let s2len := guint (Z.of_nat (length w2)) in
  if max_words <? guint (s1len + s2len) then
    msg_err_task "cannot compare parts with more than %ud words: %ud" ;;;
    ret 0
  else
    ret (levenshtein_column w1 w2 !!! length w1).

(** *** [rspamd_check_gtube] (lines 374-395) *)

Definition rspamd_check_gtube (k : nat) : M bool :=
  part <- get_text_part k ;;
  match content part with
  | Some c =>
      let len := Z.of_nat (length c) in
      if (sizeof_gtube_pattern <? len) && (len <=? max_check_size) then
        if negb (rspamd_substring_search_twoway c (bytes_of gtube_pattern) =? -1) then
          modify (fun t => set_task_flags (Z.lor (task_flags t) (RSPAMD_TASK_FLAG_SKIP K)) t) ;;;
          modify (fun t => set_task_flags (Z.lor (task_flags t) (RSPAMD_TASK_FLAG_GTUBE K)) t) ;;;
          msg_info_task "<%s>: gtube pattern has been found in part of length %ud" ;;;
          ret true
        else ret false
      else ret false
  | None => ret false
  end.

(** *** [rspamd_message_process_text_part] (lines 405-531) *)

Definition html_tok : rspamd_ftok_t := mkTok 4 (bytes_of "html").
Definition xhtml_tok : rspamd_ftok_t := mkTok 5 (bytes_of "xhtml").

(** [g_ptr_array_add (task->text_parts, text_part)]; the result is the
    pointer under which the part is reached from now on. *)
Definition g_ptr_array_add_text_part (p : rspamd_mime_text_part) : M nat :=
  t <- get ;;
  modify (set_text_parts (text_parts t ++ [p])) ;;;
  ret (length (text_parts t)).

(** Lines 494-512: the pre-result recorded when the GTUBE pattern is found.
    Modelled from the spec: [ucl_object_insert_key] and
    [rspamd_task_insert_result] (outside the sources at hand) add the SMTP
    message and inject the symbol; they are recorded in [messages] and
    [symbols]. *)
Definition process_text_part_gtube : M unit :=
  task <- get ;;
  match rspamd_create_metric_result X task with
  | Some mres =>
      modify (set_metric_res
        (Some (mkMres (rspamd_task_get_required_score X task mres) METRIC_ACTION_REJECT)))
  | None => ret tt
  end ;;;
  modify (set_pre_result (mkPre METRIC_ACTION_REJECT (Some "Gtube pattern"))) ;;;
  modify (fun t => set_messages (messages t ++ [("smtp_message", "Gtube pattern")]) t) ;;;
  modify (fun t => set_symbols (symbols t ++ [(GTUBE_SYMBOL, 0%float)]) t).

(** Lines 514-530: post-processing of the part. *)
Definition process_text_part_post (k : nat) : M unit :=
  detect_text_language k ;;;
  rspamd_normalize_text_part k ;;;
  part <- get_text_part k ;;
  (if negb (IS_PART_HTML K part) then
     task <- get ;;
     let '(u, e, exs) := rspamd_url_text_extract X task part in
     modify (fun t => set_emails e (set_urls u t)) ;;;
     update_text_part k (set_exceptions exs)
   else ret tt) ;;;
  part <- get_text_part k ;;
  match exceptions part with
  | [] => ret tt
  | _ :: _ =>
      update_text_part k
        (set_exceptions (g_list_sort (exceptions part) exceptions_compare_func))
  end ;;;
  rspamd_extract_words k.

(** Lines 491-530: what follows once the text part [k] is in [text_parts]. *)
Definition process_text_part_linked (i k : nat) : M unit :=
  update_part i (fun m =>
    set_specific_txt (Some k)
      (set_mp_flags (Z.lor (mp_flags m) (RSPAMD_MIME_PART_TEXT K)) m)) ;;;
  found <- rspamd_check_gtube k ;;
  if found then process_text_part_gtube else process_text_part_post k.

Definition is_attachment (m : rspamd_mime_part) : bool :=
  match cd m with
  | Some (mkCd RSPAMD_CT_ATTACHMENT) => true
  | _ => false
  end.

Definition is_html_subtype (c : rspamd_content_type) : bool :=
  (rspamd_ftok_cmp X (subtype c) html_tok =? 0) ||
  (rspamd_ftok_cmp X (subtype c) xhtml_tok =? 0).

(** Lines 428-435: the text part allocated for an HTML part. *)
Definition text_part_html_new (i : nat) (mime_part : rspamd_mime_part)
    : rspamd_mime_text_part :=
  let text_part := set_raw (raw_data mime_part) text_part_alloc0 in
  let text_part := set_parsed (parsed_data mime_part) text_part in
  let text_part :=
    set_tp_flags (Z.lor (tp_flags text_part) (RSPAMD_MIME_TEXT_PART_FLAG_HTML K))
      text_part in
  set_mime_part (Some i) text_part.

(** Lines 469-477: the text part allocated for any other text part. *)
Definition text_part_plain_new (i : nat) (mime_part : rspamd_mime_part)
    : rspamd_mime_text_part :=
  let text_part := set_mime_part (Some i) text_part_alloc0 in
  let text_part := set_raw (raw_data mime_part) text_part in
  set_parsed (parsed_data mime_part) text_part.

Definition set_part_empty (text_part : rspamd_mime_text_part) : rspamd_mime_text_part :=
  set_tp_flags (Z.lor (tp_flags text_part) (RSPAMD_MIME_TEXT_PART_FLAG_EMPTY K)) text_part.

Definition rspamd_message_process_text_part (i : nat) : M unit :=
  mime_part <- get_part i ;;
  task <- get ;;
  if is_attachment mime_part &&
     match cfg task with
     | Some c => negb (check_text_attachements c)
     | None => false
     end
  then debug_task "skip attachments for checking as text parts"
  else
    c <- deref (ct mime_part) ;;
    if is_html_subtype c then
      let text_part := text_part_html_new i mime_part in
      if Z.of_nat (length (parsed_data mime_part)) =? 0 then
        g_ptr_array_add_text_part (set_part_empty text_part) ;;;
        ret tt
      else
        let '(part_content, fl) := rspamd_mime_text_part_maybe_convert X task text_part in
        let text_part := set_tp_flags fl text_part in
        let text_part :=
          set_tp_flags (Z.lor (tp_flags text_part) (RSPAMD_MIME_TEXT_PART_FLAG_BALANCED K))
            text_part in
        let res := rspamd_html_process_part_full X part_content (exceptions text_part)
                     (urls task) (emails task) in
        let text_part :=
          set_content (Some (hr_content res))
            (set_exceptions (hr_exceptions res)
               (set_html (Some (hr_html res)) text_part)) in
        modify (fun t => set_emails (hr_emails res) (set_urls (hr_urls res) t)) ;;;
        let text_part :=
          if Z.of_nat (length (hr_content res)) =? 0
          then set_part_empty text_part
          else text_part in
        k <- g_ptr_array_add_text_part text_part ;;
        process_text_part_linked i k
    else
      let text_part := text_part_plain_new i mime_part in
      if Z.of_nat (length (parsed_data mime_part)) =? 0 then
        g_ptr_array_add_text_part (set_part_empty text_part) ;;;
        ret tt
      else
        let '(part_content, fl) := rspamd_mime_text_part_maybe_convert X task text_part in
        let text_part := set_content (Some part_content) (set_tp_flags fl text_part) in
        k <- g_ptr_array_add_text_part text_part ;;
        process_text_part_linked i k.

(** *** [rspamd_message_from_data] (lines 533-581)

    The fake part built here stays local: nothing links it into
    [task->parts]. *)
Definition rspamd_message_from_data (start : option (list byte)) : M unit :=
  start <- g_assert_not_null start ;;
  task <- get ;;
  let '(ct, mb) :=
    match request_headers task "Content-Type" with
    | Some tok => (rspamd_content_type_parse X tok, None)
    | None =>
        if match cfg task with Some c => libs_ctx c | None => false end then
          let mb := magic_buffer X start in
          (match mb with
           | Some s => rspamd_content_type_parse X
                         (mkTok (Z.of_nat (String.length s)) (bytes_of s))
           | None => None
           end, mb)
        else (None, None)
    end in
  msg_warn_task "construct fake mime of type: %s" ;;;
  let part := mkPart ct None start start None 0 None (fun _ => None) [] in
  let mid := rspamd_mime_message_id_generate X "localhost.localdomain" in
  modify (set_message_id (Some mid)) ;;;
  modify (set_queue_id (Some mid)).

(** *** Header lookup (lines 962-1055) *)

Definition rspamd_message_get_header_from_hash (htb : GHashTable) (pool : bool)
    (field : string) (strong : bool) : option (list rspamd_mime_header) :=
  match htb field with
  | None => None
  | Some ar =>
      if strong && pool
      then Some (filter (fun cur => hdr_name cur = field) ar)
      else Some ar
  end.

Definition rspamd_message_get_header_array (task : rspamd_task) (field : string)
    (strong : bool) : option (list rspamd_mime_header) :=
  rspamd_message_get_header_from_hash (raw_headers task) true field strong.

(** The first loop skips the parts without the header and adds up the
    lengths of the arrays in a [guint]; the second loop copies the arrays
    in the order of the parts. *)
Definition rspamd_message_get_mime_header_array (task : rspamd_task) (field : string)
    (strong : bool) : option (list rspamd_mime_header) :=
  let found := omap (fun mp => mp_raw_headers mp field) (parts task) in
  let nelems := foldl (fun nelems ar => guint (nelems + Z.of_nat (length ar))) 0 found in
  if nelems =? 0 then None
  else Some (concat (map (fun ar =>
               if strong then filter (fun cur => hdr_name cur = field) ar else ar)
             found)).

(** *** [rspamd_message_parse] (lines 583-959) *)

(** Lines 609-612 and 634-637: the cursor moves over leading white space. *)
Fixpoint skip_spaces (p : list byte) : list byte :=
  match p with
  | c :: p' => if g_ascii_isspace c then skip_spaces p' else p
  | [] => []
  end.

(** Lines 630-633: the cursor moves up to the next line feed, or to the end. *)
Fixpoint skip_line (p : list byte) : list byte :=
  match p with
  | c :: p' => if Byte.eqb c x0a then p else skip_line p'
  | [] => []
  end.

Definition sizeof_From : Z := Z.of_nat (String.length "From ") + 1.

(** Lines 621-624: the tests guarding the mailbox workaround, on the
    window [p] left after the leading white space. *)
Definition mailbox_input (task : rspamd_task) (p : list byte) : bool :=
  (negb (has_flag (task_flags task) (RSPAMD_TASK_FLAG_JSON K)) ||
   has_flag (task_flags task) (RSPAMD_TASK_FLAG_LOCAL_CLIENT K)) &&
  (sizeof_From - 1 <? Z.of_nat (length p)) &&
  memcmp_eq p (bytes_of "From ").

(** Lines 605-643: the window [p, len] the message is cut down to.  Behind
    a NULL pointer the length is 0: no byte is read, both loops and the test
    of line 623 are passed over, and the pointer stays NULL. *)
Definition message_parse_start : M (option (list byte)) :=
  task <- get ;;
  p <- match msg task with
       | Some m =>
           let p := skip_spaces m in
           if mailbox_input task p then
             msg_info_task "mailbox input detected, enable workaround" ;;;
             ret (Some (skip_spaces (skip_line (drop (Z.to_nat (sizeof_From - 1)) p))))
           else ret (Some p)
       | None => ret None
       end ;;
  modify (set_msg p) ;;;
  ret p.

Definition clear_mime_flag (t : rspamd_task) : rspamd_task :=
  set_task_flags (Z.land (task_flags t) (Z.lnot (RSPAMD_TASK_FLAG_MIME K))) t.

(** Lines 646-670: the MIME structure, or the raw-data fallback; [false]
    stands for the [return FALSE] of line 659. *)
Definition message_parse_mime (p : option (list byte)) : M bool :=
  task <- get ;;
  if has_flag (task_flags task) (RSPAMD_TASK_FLAG_MIME K) then
    debug_task "construct mime parser from string length %d" ;;;
    task <- get ;;
    let '(ok, err, task') := rspamd_mime_parse_task X task in
    modify (fun _ => task') ;;;
    if ok then ret true
    else
      msg_err_task "cannot construct mime from stream: %e" ;;;
      if match cfg task' with Some c => negb (allow_raw_input c) | None => false end
      then
        msg_err_task "cannot construct mime from stream" ;;;
        match err with
        | Some e => modify (set_err (Some e))
        | None => ret tt
        end ;;;
        ret false
      else
        modify clear_mime_flag ;;;
        rspamd_message_from_data p ;;;
        ret true
  else
    modify clear_mime_flag ;;;
    rspamd_message_from_data p ;;;
    ret true.

(** Lines 684-694: the text [p] ends up pointing to. *)
Definition message_id_of_header (decoded : string) : string :=
  match decoded with
  | String "<"%char rest =>
      match string_last rest with
      | Some ">"%char => string_init rest
      | _ => rest
      end
  | _ => decoded
  end.

(** Lines 673-699. *)
Definition message_parse_message_id : M unit :=
  task <- get ;;
  match rspamd_message_get_header_array task "Message-ID" false with
  | Some hdrs =>
      rh <- deref (hdrs !! 0%nat) ;;
      modify (set_message_id (Some (message_id_of_header (hdr_decoded rh))))
  | None => ret tt
  end ;;;
  task <- get ;;
  match message_id task with
  | None => modify (set_message_id (Some "undef"))
  | Some _ => ret tt
  end.

(** Lines 701-713. *)
Definition message_parse_subject : M unit :=
  task <- get ;;
  match subject task with
  | None =>
      match rspamd_message_get_header_array task "Subject" false with
      | Some hdrs =>
          rh <- deref (hdrs !! 0%nat) ;;
          modify (set_subject (Some (hdr_decoded rh)))
      | None => ret tt
      end
  | Some _ => ret tt
  end ;;;
  debug_task "found %ud parts in message" ;;;
  task <- get ;;
  match queue_id task with
  | None => modify (set_queue_id (Some "undef"))
  | Some _ => ret tt
  end.

(** Lines 715-723: the loop over [task->parts]; the lookup is the test
    [i < task->parts->len]. *)
Fixpoint message_parse_parts (fuel i : nat) : M unit :=
  match fuel with
  | O => ret tt
  | S fuel' =>
      task <- get ;;
      match parts task !! i with
      | Some part =>
          (if IS_CT_TEXT K (ct part) then rspamd_message_process_text_part i
           else ret tt) ;;;
          message_parse_parts fuel' (S i)
      | None => ret tt
      end
  end.

(** Lines 725-726. *)
Definition message_parse_images_archives : M unit :=
  modify (fun t => set_parts (map (fun m => set_mp_flags (rspamd_images_process X t m) m)
                                  (parts t)) t) ;;;
  modify (fun t => set_parts (map (fun m => set_mp_flags (rspamd_archives_process X t m) m)
                                  (parts t)) t).

Definition cfg_ignore_received (t : rspamd_task) : bool :=
  match cfg t with Some c => ignore_received c | None => false end.

(** Lines 731-784: the body of the loop over the Received headers. *)
Definition message_parse_received_header (i : nat) (rh : rspamd_mime_header) : M unit :=
  task <- get ;;
  let recv := rspamd_smtp_recieved_parse X task (hdr_decoded rh) in
  (if (i =? 0)%nat then
     let raddr := recv_addr recv in
     let no_ip := has_flag (task_flags task) (RSPAMD_TASK_FLAG_NO_IP K) in
     let need_recv_correction :=
       match real_ip recv with
       | None => true
       | Some _ =>
           if cfg_ignore_received task then true
           else
             match from_addr task with
             | Some fa =>
                 if negb no_ip then
                   match raddr with
                   | None => true
                   | Some ra => negb (rspamd_inet_address_compare X ra fa =? 0)
                   end
                 else false
             | None => false
             end
       end in
     match from_addr task with
     | Some fa =>
         if need_recv_correction && negb no_ip then
           msg_debug_task "the first received seems to be not ours, replace it with fake one" ;;;
           let ip := Some (rspamd_inet_address_to_string X fa) in
           let trecv := mkRecv (hostname task) ip (hostname task) ip (Some fa) in
           modify (fun t => set_received (received t ++ [trecv]) t)
         else ret tt
     | None => ret tt
     end
   else ret tt) ;;;
  modify (fun t => set_received (received t ++ [recv]) t).

(** Lines 728-802. *)
Definition message_parse_received : M unit :=
  task <- get ;;
  match rspamd_message_get_header_array task "Received" false with
  | Some hdrs => ptr_array_foreach 0 hdrs message_parse_received_header
  | None => ret tt
  end ;;;
  task <- get ;;
  match received task with
  | recv :: _ =>
      if has_flag (task_flags task) (RSPAMD_TASK_FLAG_NO_IP K) &&
         match cfg task with Some c => negb (ignore_received c) | None => false end
      then
        match real_ip recv with
        | Some ip =>
            match rspamd_parse_inet_address X ip with
            | Some a => modify (set_from_addr (Some a))
            | None =>
                msg_warn_task "cannot get IP from received header: '%s'" ;;;
                modify (set_from_addr None)
            end
        | None => ret tt
        end ;;;
        match real_hostname recv with
        | Some h => modify (set_hostname (Some h))
        | None => ret tt
        end
      else ret tt
  | [] => ret tt
  end.

(** Lines 804-868: envelope sender, Delivered-To, MIME recipients and sender. *)
Definition message_parse_envelope : M unit :=
  task <- get ;;
  match from_envelope task, rspamd_message_get_header_array task "Return-Path" false with
  | None, Some (rh :: _) =>
      modify (set_from_envelope (rspamd_email_address_from_smtp X (hdr_decoded rh)))
  | _, _ => ret tt
  end ;;;
  match deliver_to task, rspamd_message_get_header_array task "Delivered-To" false with
  | None, Some (rh :: _) => modify (set_deliver_to (Some (hdr_decoded rh)))
  | _, _ => ret tt
  end ;;;
  modify (set_rcpt_mime (Some [])) ;;;
  ptr_array_foreach 0 ["To"; "Cc"; "Bcc"]%string (fun _ to_hdr =>
    match rspamd_message_get_header_array task to_hdr false with
    | Some hdrs =>
        ptr_array_foreach 0 hdrs (fun _ rh =>
          match internet_address_list_parse_string X (hdr_decoded rh) with
          | Some tia =>
              modify (fun t => set_rcpt_mime (Some (default [] (rcpt_mime t) ++ tia)) t)
          | None => ret tt
          end)
    | None => ret tt
    end) ;;;
  match rspamd_message_get_header_array task "From" false with
  | Some (rh :: _) =>
      modify (set_from_mime (internet_address_list_parse_string X (hdr_value rh)))
  | _ => ret tt
  end.

(** Lines 870-878. *)
Definition message_parse_subject_urls : M unit :=
  task <- get ;;
  match rspamd_message_get_header_array task "Subject" false with
  | Some hdrs =>
      ptr_array_foreach 0 hdrs (fun _ rh =>
        t <- get ;;
        let '(u, e) := rspamd_url_find_multiple X t (hdr_decoded rh) in
        modify (fun t => set_emails e (set_urls u t)))
  | None => ret tt
  end.

Definition alternative_tok : rspamd_ftok_t := mkTok 11 (bytes_of "alternative").

(** Lines 897-925: the distance of two parts and the pool variables. *)
Definition message_parse_publish_distance (h1 h2 : list Z) : M unit :=
  let tw := guint (guint (Z.of_nat (length h1)) + guint (Z.of_nat (length h2))) in
  if 0 <? tw then
    dw <- rspamd_words_levenshtein_distance h1 h2 ;;
    let diff := PrimFloat.div (gdouble_of_guint dw) (gdouble_of_guint tw) in
    msg_debug_task
      "different words: %d, total words: %d, got diff between parts of %.2f" ;;;
    modify (fun t =>
      set_pool_variables (<["parts_distance" := VDouble diff]> (pool_variables t)) t) ;;;
    modify (fun t =>
      set_pool_variables (<["total_words" := VUInt tw]> (pool_variables t)) t)
  else ret tt.

(** Lines 880-933: the distance of a message of two parts. *)
Definition message_parse_distance : M unit :=
  task <- get ;;
  match text_parts task with
  | [p1; p2] =>
      i1 <- deref (mime_part p1) ;;
      m1 <- get_part i1 ;;
      match parent_part m1 with
      | Some parent =>
          i2 <- deref (mime_part p2) ;;
          m2 <- get_part i2 ;;
          if bool_decide (parent_part m2 = Some parent) then
            par <- get_part parent ;;
            c <- deref (ct par) ;;
            if rspamd_ftok_cmp X (subtype c) alternative_tok =? 0 then
              if negb (IS_PART_EMPTY K p1) && negb (IS_PART_EMPTY K p2) then
                match normalized_hashes p1, normalized_hashes p2 with
                | Some h1, Some h2 => message_parse_publish_distance h1 h2
                | _, _ => ret tt
                end
              else ret tt
            else ret tt
          else
            debug_task "message contains two parts but they are in different multi-parts"
      | None =>
          debug_task "message contains two parts but they are in different multi-parts"
      end
  | _ => ret tt
  end.

(** Lines 935-956: the digest of the parts and the closing log line. *)
Definition message_parse_digest (st : list byte) : M unit :=
  task <- get ;;
  let st := foldl (fun st part => rspamd_cryptobox_hash_update X st (mp_digest part))
                  st (parts task) in
  modify (set_digest (take 16 (rspamd_cryptobox_hash_final X st))) ;;;
  match queue_id task with
  | Some _ =>
      msg_info_task "loaded message; id: <%s>; queue-id: <%s>; size: %z; checksum: <%*xs>"
  | None => msg_info_task "loaded message; id: <%s>; size: %z; checksum: <%*xs>"
  end.

(** Lines 673-958: everything after the MIME structure is there. *)
Definition message_parse_rest (st : list byte) : M bool :=
  message_parse_message_id ;;;
  message_parse_subject ;;;
  task <- get ;;
  message_parse_parts (length (parts task)) 0 ;;;
  message_parse_images_archives ;;;
  message_parse_received ;;;
  message_parse_envelope ;;;
  message_parse_subject_urls ;;;
  message_parse_distance ;;;
  message_parse_digest st ;;;
  ret true.

Definition rspamd_message_parse : M bool :=
  task <- get ;;
  if RSPAMD_TASK_IS_EMPTY K task then ret true
  else
    p <- message_parse_start ;;
    let st := rspamd_cryptobox_hash_init X in
    ok <- message_parse_mime p ;;
    if ok then message_parse_rest st else ret false.

End Message.

(** ** A sample instantiation

    Flag bits and stand-ins for the functions of other translation units,
    small enough to run the model on concrete messages. *)

Definition sample_flags : flag_consts :=
  {| RSPAMD_TASK_FLAG_MIME := 1;
     RSPAMD_TASK_FLAG_JSON := 2;
     RSPAMD_TASK_FLAG_SKIP := 8;
     RSPAMD_TASK_FLAG_NO_IP := 256;
     RSPAMD_TASK_FLAG_GTUBE := 2048;
     RSPAMD_TASK_FLAG_EMPTY := 4194304;
     RSPAMD_TASK_FLAG_LOCAL_CLIENT := 8388608;
     RSPAMD_MIME_TEXT_PART_FLAG_UTF := 1;
     RSPAMD_MIME_TEXT_PART_FLAG_BALANCED := 2;
     RSPAMD_MIME_TEXT_PART_FLAG_EMPTY := 4;
     RSPAMD_MIME_TEXT_PART_FLAG_HTML := 8;
     RSPAMD_MIME_PART_TEXT := 1;
     RSPAMD_CONTENT_TYPE_TEXT := 4 |}.

Definition byte_of_Z (z : Z) : byte := default x00 (Byte.of_N (Z.to_N z)).

Definition sample_lc_byte (c : byte) : byte :=
  let n := Z.of_N (Byte.to_N c) in
  if (65 <=? n) && (n <=? 90) then byte_of_Z (n + 32) else c.

(** Words are the maximal runs of bytes other than the space. *)
Fixpoint sample_split (cur : list byte) (p : list byte) : list (list byte) :=
  match p with
  | [] => match cur with [] => [] | _ => [cur] end
  | c :: p' =>
      if Byte.eqb c x20
      then match cur with [] => sample_split [] p' | _ => cur :: sample_split [] p' end
      else sample_split (cur ++ [c]) p'
  end.

Definition sample_tok (w : list byte) : rspamd_ftok_t := mkTok (Z.of_nat (length w)) w.

(** The words of the text, then one sentinel for every URL exception. *)
Definition sample_tokenize (c : list byte) (utf : bool) (cfg : option rspamd_config)
    (exs : list rspamd_process_exception) : option (list rspamd_ftok_t) :=
  Some (map sample_tok (sample_split [] c) ++
        omap (fun e => match ex_type e with
                       | RSPAMD_EXCEPTION_URL => Some (sample_tok (bytes_of "!!EX!!"))
                       | _ => None
                       end) exs).

Definition sample_hash (w : rspamd_ftok_t) (seed : Z) : Z :=
  foldl (fun h b => (h * 31 + Z.of_N (Byte.to_N b)) mod 2 ^ 64) seed
        (take (Z.to_nat (tok_len w)) (tok_begin w)).

Definition sample_ftok_cmp (a b : rspamd_ftok_t) : Z :=
  if tok_len a =? tok_len b
  then if bytes_eqb (take (Z.to_nat (tok_len a)) (tok_begin a))
                    (take (Z.to_nat (tok_len b)) (tok_begin b)) then 0 else 1
  else tok_len a - tok_len b.

Definition sample_is_newline (c : byte) : bool := Byte.eqb c x0a || Byte.eqb c x0d.

(** The offsets, in the stripped text, at which a line feed was taken out. *)
Fixpoint sample_newline_offsets (off : Z) (c : list byte) : list Z :=
  match c with
  | [] => []
  | b :: c' =>
      if Byte.eqb b x0a then off :: sample_newline_offsets off c'
      else if sample_is_newline b then sample_newline_offsets off c'
      else sample_newline_offsets (off + 1) c'
  end.

Definition sample_strip_newlines (c : list byte) (is_html : bool) (nl : Z)
    : list byte * Z * list Z :=
  (List.filter (fun b => negb (sample_is_newline b)) c,
   nl + Z.of_nat (length (List.filter (fun b => Byte.eqb b x0a) c)),
   sample_newline_offsets 0 c).

(** Parts are separated by a bar; they hang as text/plain leaves under one
    multipart/alternative parent.  An empty message cannot be parsed. *)
Fixpoint sample_bodies (cur : list byte) (p : list byte) : list (list byte) :=
  match p with
  | [] => [cur]
  | c :: p' =>
      if Byte.eqb c "|"%byte then cur :: sample_bodies [] p'
      else sample_bodies (cur ++ [c]) p'
  end.

Definition sample_ct (type sub : string) (flags : Z) : rspamd_content_type :=
  mkCt (sample_tok (bytes_of type)) (sample_tok (bytes_of sub)) flags.

Definition sample_leaf (body : list byte) : rspamd_mime_part :=
  mkPart (Some (sample_ct "text" "plain" 4)) None body body (Some 0%nat) 0 None
         (fun _ => None) body.

Definition sample_mime_parse (t : rspamd_task) : bool * option GError * rspamd_task :=
  match msg t with
  | None | Some [] => (false, Some (mkGError 1 "no content"), t)
  | Some m =>
      (true, None,
       set_parts (mkPart (Some (sample_ct "multipart" "alternative" 2)) None m m
                         None 0 None (fun _ => None) []
                  :: map sample_leaf (sample_bodies [] m)) t)
  end.

Definition sample_externals : externals :=
  {| WITH_SNOWBALL := false;
     sb_stemmer_new := fun _ => None;
     rspamd_tokenize_text := sample_tokenize;
     rspamd_str_lc_utf8 := map sample_lc_byte;
     rspamd_str_lc := map sample_lc_byte;
     rspamd_cryptobox_fast_hash_specific := sample_hash;
     rspamd_ftok_cmp := sample_ftok_cmp;
     rspamd_strip_newlines_parse := sample_strip_newlines;
     rspamd_cryptobox_hash_init := [];
     rspamd_cryptobox_hash_update := fun st d => take 16 (d ++ st);
     rspamd_cryptobox_hash_final := fun st => st;
     g_utf8_get_char_validated := fun p => Z.of_N (Byte.to_N (default x00 (head p)));
     g_unichar_isalpha := fun c => ((65 <=? c) && (c <=? 90)) || ((97 <=? c) && (c <=? 122));
     g_unichar_get_script := fun _ => 25%nat;
     rspamd_mime_parse_task := sample_mime_parse;
     rspamd_mime_text_part_maybe_convert := fun _ p => (parsed p, Z.lor (tp_flags p) 1);
     rspamd_html_process_part_full := fun c exs u e => mkHtmlRes (mkHtml []) c exs u e;
     rspamd_url_text_extract := fun t p => (urls t, emails t, exceptions p);
     rspamd_url_find_multiple := fun t _ => (urls t, emails t);
     rspamd_content_type_parse := fun _ => None;
     magic_buffer := fun _ => None;
     rspamd_mime_message_id_generate := fun d => ("generated@" ++ d)%string;
     rspamd_create_metric_result := fun t => Some (default (mkMres 0 METRIC_ACTION_NOACTION)
                                                           (metric_res t));
     rspamd_task_get_required_score := fun _ _ => 15%float;
     rspamd_images_process := fun _ m => mp_flags m;
     rspamd_archives_process := fun _ m => mp_flags m;
     rspamd_smtp_recieved_parse := fun _ _ => mkRecv None None None None None;
     rspamd_inet_address_compare := fun a b => if bytes_eqb a b then 0 else 1;
     rspamd_inet_address_to_string := fun _ => "127.0.0.1"%string;
     rspamd_parse_inet_address := fun _ => None;
     rspamd_email_address_from_smtp := fun s => Some (bytes_of s);
     internet_address_list_parse_string := fun s => Some [s] |}.

(** A task as [rspamd_task_new] leaves it, with a message and flags. *)
Definition sample_task (m : list byte) (flags : Z) (c : option rspamd_config)
    (hdrs : GHashTable) : rspamd_task :=
  mkTask (Some m) flags c None None None hdrs (fun _ => None) [] [] [] None None None None
         None None [] [] None (mkPre METRIC_ACTION_MAX None) [] None [] ∅ [] [].

Definition sample_config : rspamd_config := mkConfig false false false false.

(** ** Vocabulary of the statements *)

(** [hoare d m Q t]: running [m] from [t] ends in a state satisfying [Q];
    a fault counts as [d].  With [d := False] this is total correctness,
    with [d := True] partial correctness. *)
Definition hoare {A} (d : Prop) (m : M A) (Q : A -> rspamd_task -> Prop)
    (t : rspamd_task) : Prop :=
  match m t with
  | Some (a, t') => Q a t'
  | None => d
  end.

(** All the bits of [mask] are set in [flags]. *)
Definition flag_set (flags mask : Z) : Prop := Z.land flags mask = mask.

(** The test of [rspamd_check_gtube] on the content of a part. *)
Definition gtube_found (c : list byte) : bool :=
  (sizeof_gtube_pattern <? Z.of_nat (length c)) &&
  (Z.of_nat (length c) <=? max_check_size) &&
  negb (rspamd_substring_search_twoway c (bytes_of gtube_pattern) =? -1).

(** [sub] occurs in [c] as a substring. *)
Definition occurs_in (sub c : list byte) : Prop :=
  exists pre post, c = pre ++ sub ++ post.

Definition sentinel : rspamd_ftok_t := mkTok 6 (bytes_of "!!EX!!").

Definition is_sentinel (w : rspamd_ftok_t) : bool :=
  (tok_len w =? 6) && memcmp_eq (tok_begin w) (bytes_of "!!EX!!").

Definition nonempty_tok (w : rspamd_ftok_t) : bool := 0 <? tok_len w.

(** The MIME part skipped as an attachment (lines 414-418). *)
Definition skipped_as_attachment (t : rspamd_task) (m : rspamd_mime_part) : bool :=
  is_attachment m &&
  match cfg t with
  | Some c => negb (check_text_attachements c)
  | None => false
  end.

(** The content of the text part built for the MIME part [m]: what the
    charset conversion returns, passed through the HTML processor for an
    HTML part. *)
Definition converted_content (K : flag_consts) (X : externals) (t : rspamd_task)
    (i : nat) (m : rspamd_mime_part) (c : rspamd_content_type) : list byte :=
  if is_html_subtype X c then
    hr_content (rspamd_html_process_part_full X
      (fst (rspamd_mime_text_part_maybe_convert X t (text_part_html_new K i m)))
      [] (urls t) (emails t))
  else fst (rspamd_mime_text_part_maybe_convert X t (text_part_plain_new i m)).

(** What the HTML processor returns for the MIME part [m] (lines 450-456):
    it is given the converted text, the empty exception list of the new text
    part and the URL sets of the task. *)
Definition html_processed (K : flag_consts) (X : externals) (t : rspamd_task)
    (i : nat) (m : rspamd_mime_part) : html_result :=
  rspamd_html_process_part_full X
    (fst (rspamd_mime_text_part_maybe_convert X t (text_part_html_new K i m)))
    [] (urls t) (emails t).

(** Two text parts that qualify for the distance (lines 881-895): they
    are the only text parts, their MIME parts hang under one parent whose
    subtype compares equal to "alternative", neither is flagged empty, and
    both have hashes, [h1] and [h2]. *)
Definition alternative_pair (K : flag_consts) (X : externals) (t : rspamd_task)
    (h1 h2 : list Z) : Prop :=
  exists p1 p2 i1 i2 m1 m2 q par c,
    text_parts t = [p1; p2] /\
    mime_part p1 = Some i1 /\ parts t !! i1 = Some m1 /\
    mime_part p2 = Some i2 /\ parts t !! i2 = Some m2 /\
    parent_part m1 = Some q /\ parent_part m2 = Some q /\
    parts t !! q = Some par /\ ct par = Some c /\
    rspamd_ftok_cmp X (subtype c) alternative_tok = 0 /\
    IS_PART_EMPTY K p1 = false /\ IS_PART_EMPTY K p2 = false /\
    normalized_hashes p1 = Some h1 /\ normalized_hashes p2 = Some h2.

(** [dw / (gdouble) tw]. *)
Definition ratio (dw tw : Z) : float :=
  PrimFloat.div (gdouble_of_guint dw) (gdouble_of_guint tw).

Definition is_space (c : byte) : Prop := g_ascii_isspace c = true.

(** The bytes behind the pointer of a message; there are none behind NULL. *)
Definition msg_bytes (p : option (list byte)) : list byte :=
  match p with Some m => m | None => [] end.

(** The window does not begin with white space. *)
Definition trimmed (p : list byte) : Prop :=
  match p with
  | c :: _ => g_ascii_isspace c = false
  | [] => True
  end.

(** What the pointers of a MIME part come to: its parent, and whether it
    has a content type. *)
Definition part_link (m : rspamd_mime_part) : option nat * bool :=
  (parent_part m, bool_decide (is_Some (ct m))).

Definition link_ok (links : list (option nat * bool)) (l : option nat * bool) : bool :=
  match fst l with
  | Some q => match links !! q with
              | Some par => snd par
              | None => false
              end
  | None => true
  end.

Definition text_link_ok (n : nat) (o : option nat) : bool :=
  match o with
  | Some i => (i <? n)%nat
  | None => false
  end.

Definition header_array_ok (h : GHashTable) (field : string) : bool :=
  match h field with
  | Some [] => false
  | _ => true
  end.

(** The pointers of the structure lead somewhere: the parent of every MIME
    part is in [parts] and has a content type, the MIME part of every text
    part is in [parts], and the header table holds no empty array under
    Message-ID or Subject. *)
Definition well_linked (t : rspamd_task) : bool :=
  let links := map part_link (parts t) in
  forallb (link_ok links) links &&
  forallb (text_link_ok (length links)) (map mime_part (text_parts t)) &&
  header_array_ok (raw_headers t) "Message-ID" &&
  header_array_ok (raw_headers t) "Subject".

(** From [t] to [t'] the message-id, the header table and the pointers of
    the parts are the same. *)
Definition same_links (t t' : rspamd_task) : Prop :=
  message_id t' = message_id t /\
  raw_headers t' = raw_headers t /\
  map part_link (parts t') = map part_link (parts t) /\
  map mime_part (text_parts t') = map mime_part (text_parts t).

(** The same, but for text parts added at the end, each for a MIME part
    that is there. *)
Definition grown_links (t t' : rspamd_task) : Prop :=
  message_id t' = message_id t /\
  raw_headers t' = raw_headers t /\
  map part_link (parts t') = map part_link (parts t) /\
  exists new,
    map mime_part (text_parts t') = map mime_part (text_parts t) ++ map Some new /\
    Forall (fun i => (i < length (parts t))%nat) new.

(** The text part [k] is there and has a content. *)
Definition content_at (k : nat) (t : rspamd_task) : Prop :=
  exists p, text_parts t !! k = Some p /\ is_Some (content p).

(** An update of a text part that leaves its MIME part and content alone. *)
Definition tame (f : rspamd_mime_text_part -> rspamd_mime_text_part) : Prop :=
  forall p, mime_part (f p) = mime_part p /\ content (f p) = content p.

(** The message-id the task is left with (lines 673-699). *)
Definition message_id_after (t : rspamd_task) : string :=
  match rspamd_message_get_header_array t "Message-ID" false with
  | Some (rh :: _) => message_id_of_header (hdr_decoded rh)
  | _ => default "undef"%string (message_id t)
  end.

(** The task [rspamd_mime_parse_task] is called on: the message is cut
    down to its window and the debug line is logged. *)
Definition mime_parser_input (K : flag_consts) (t : rspamd_task) : rspamd_task :=
  match (message_parse_start K ;;;
         debug_task "construct mime parser from string length %d") t with
  | Some (_, t0) => t0
  | None => t
  end.

(** The one fatal case: the task is not empty, it is flagged MIME, the
    MIME parser fails on the trimmed message, and the configuration forbids
    raw input. *)
Definition config_forbids_raw (K : flag_consts) (X : externals) (t : rspamd_task)
    : Prop :=
  RSPAMD_TASK_IS_EMPTY K t = false /\
  has_flag (task_flags t) (RSPAMD_TASK_FLAG_MIME K) = true /\
  let '(ok, _, t1) := rspamd_mime_parse_task X (mime_parser_input K t) in
  ok = false /\ exists c, cfg t1 = Some c /\ allow_raw_input c = false.

(** *** The table of the edit distance

    The Wagner-Fischer table with the cost of a diagonal step left open, and
    the cost the code uses there. *)

(** What the code adds on the diagonal (line 363). *)
Definition code_cost (a b : Z) : Z := if a =? b then 2 else 0.

(** One row of the Wagner-Fischer table from the row above: [diag] and
    [prev] are the row above from the cell on the diagonal on, [left] is the
    cell to the left. *)
Fixpoint table_next_row (cost : Z -> Z -> Z) (h2 : Z) (w1 : list Z)
    (diag : Z) (prev : list Z) (left : Z) : list Z :=
  match w1, prev with
  | h1 :: w1', up :: prev' =>
      let v := MIN3 (up + 1) (left + 1) (diag + cost h1 h2) in
      v :: table_next_row cost h2 w1' up prev' v
  | _, _ => []
  end.

(** The table, row by row; [row] is the row of index [x]. *)
Fixpoint table_rows (cost : Z -> Z -> Z) (w1 w2 : list Z) (x : nat) (row : list Z)
    : list Z :=
  match w2 with
  | [] => row
  | h2 :: w2' =>
      table_rows cost w1 w2' (S x)
        (Z.of_nat (S x) ::
         table_next_row cost h2 w1 (Z.of_nat x) (drop 1 row) (Z.of_nat (S x)))
  end.

Definition wagner_fischer (cost : Z -> Z -> Z) (w1 w2 : list Z) : Z :=
  table_rows cost w1 w2 0 (map Z.of_nat (seq 0 (S (length w1)))) !!! length w1.

Definition in_range (B : Z) (l : list Z) : Prop := Forall (fun v => 0 <= v <= B) l.

(** The cells of row [x] from column [y0] on are at least [|x - y|]. *)
Definition above_diagonal (x y0 : Z) (row : list Z) : Prop :=
  forall (j : nat) (v : Z), row !! j = Some v -> Z.abs (x - (y0 + Z.of_nat j)) <= v.

(** The sum of the counters. *)
Definition counters_sum (scripts : list Z) : Z := foldr Z.add 0 scripts.

(** One step of the selection loop (lines 183-186). *)
Definition select_step (scripts : list Z) (st : Z * nat) (remain : nat) : Z * nat :=
  let '(max, sel) := st in
  if max <? scripts !!! remain then (scripts !!! remain, remain) else (max, sel).

(** The exception recorded for a newline at offset [off] (lines 309-311). *)
Definition newline_exception (off : Z) : rspamd_process_exception :=
  mkEx off 0 RSPAMD_EXCEPTION_NEWLINE.

(** Exceptions in the order of their positions. *)
Definition by_position (a b : rspamd_process_exception) : Prop := ex_pos a <= ex_pos b.

(** The headers named [field] in the tables of the parts, in the order of
    the parts. *)
Definition mime_headers (task : rspamd_task) (field : string) : list rspamd_mime_header :=
  concat (omap (fun mp => mp_raw_headers mp field) (parts task)).

(** The task after [rspamd_check_gtube] has found the pattern (lines
    385-388). *)
Definition gtube_flagged (K : flag_consts) (t : rspamd_task) : rspamd_task :=
  set_log (log t ++ [mkLog LOG_INFO
                       "<%s>: gtube pattern has been found in part of length %ud"])
    (set_task_flags
       (Z.lor (Z.lor (task_flags t) (RSPAMD_TASK_FLAG_SKIP K)) (RSPAMD_TASK_FLAG_GTUBE K)) t).

(** [m] leaves [f] of the task as it finds it, whenever it returns. *)
Definition keeps {A B} (f : rspamd_task -> B) (m : M A) : Prop :=
  forall t a t', m t = Some (a, t') -> f t' = f t.

(** What a verdict is read from: the flags, the pre-result and the symbols. *)
Definition verdict (t : rspamd_task) : Z * pre_result_t * list (string * float) :=
  (task_flags t, pre_result t, symbols t).

(** The task carries the verdict of lines 385-386 and 504-509. *)
Definition gtube_verdict (K : flag_consts) (t : rspamd_task) : Prop :=
  flag_set (task_flags t) (RSPAMD_TASK_FLAG_SKIP K) /\
  flag_set (task_flags t) (RSPAMD_TASK_FLAG_GTUBE K) /\
  pre_result t = mkPre METRIC_ACTION_REJECT (Some "Gtube pattern") /\
  (GTUBE_SYMBOL, 0%float) ∈ symbols t.

(** The closing line of the log when there is a queue id (line 946). *)
Definition loaded_message_line : log_record :=
  mkLog LOG_INFO "loaded message; id: <%s>; queue-id: <%s>; size: %z; checksum: <%*xs>".

(** The queue id and what a verdict is read from. *)
Definition core (t : rspamd_task) : option string * (Z * pre_result_t * list (string * float)) :=
  (queue_id t, verdict t).

(** The queue id stays, and what a verdict is read from stays or is the
    GTUBE verdict. *)
Definition verdict_inv (K : flag_consts) (t0 t' : rspamd_task) : Prop :=
  queue_id t' = queue_id t0 /\ (verdict t' = verdict t0 \/ gtube_verdict K t').

(** The MIME part after lines 491-492: flagged as text and pointing to its
    text part. *)
Definition linked_part (K : flag_consts) (k : nat) (m : rspamd_mime_part)
    : rspamd_mime_part :=
  set_specific_txt (Some k) (set_mp_flags (Z.lor (mp_flags m) (RSPAMD_MIME_PART_TEXT K)) m).

(** The entry put in front of the first Received header (lines 764-777). *)
Definition fake_received (X : externals) (t : rspamd_task) (fa : list byte)
    : received_header :=
  let ip := Some (rspamd_inet_address_to_string X fa) in
  mkRecv (hostname t) ip (hostname t) ip (Some fa).

(** The fake entry that goes in front of the entry [recv] of the first
    Received header, if any (lines 741-760): there is one when the client
    address is known and the task is not flagged NO_IP, and the header has
    no real IP, or the configuration ignores Received headers, or the header
    has no address or one that differs from the client's. *)
Definition wants_fake_received (K : flag_consts) (X : externals) (t : rspamd_task)
    (recv : received_header) : list received_header :=
  match from_addr t with
  | Some fa =>
      if negb (has_flag (task_flags t) (RSPAMD_TASK_FLAG_NO_IP K)) &&
         (bool_decide (real_ip recv = None) || cfg_ignore_received t ||
          match recv_addr recv with
          | Some ra => negb (rspamd_inet_address_compare X ra fa =? 0)
          | None => true
          end)
      then [fake_received X t fa]
      else []
  | None => []
  end.

(** The task after the first Received header (lines 731-784): the entries
    are appended, and a fake entry is logged. *)
Definition after_first_received (K : flag_consts) (X : externals) (t : rspamd_task)
    (rh : rspamd_mime_header) : rspamd_task :=
  let recv := rspamd_smtp_recieved_parse X t (hdr_decoded rh) in
  let fake := wants_fake_received K X t recv in
  set_received (received t ++ fake ++ [recv])
    match fake with
    | [] => t
    | _ :: _ =>
        set_log (log t ++ [mkLog LOG_DEBUG
                   "the first received seems to be not ours, replace it with fake one"]) t
    end.

(** The headers the MIME recipients are read from, To before Cc before
    Bcc, and the header a field of the envelope is read from. *)
Definition recipient_headers (t : rspamd_task) : list rspamd_mime_header :=
  default [] (rspamd_message_get_header_array t "To" false) ++
  default [] (rspamd_message_get_header_array t "Cc" false) ++
  default [] (rspamd_message_get_header_array t "Bcc" false).

Definition first_header (t : rspamd_task) (field : string) : option rspamd_mime_header :=
  match rspamd_message_get_header_array t field false with
  | Some (rh :: _) => Some rh
  | _ => None
  end.

(** What decides whether a MIME part gets a text part: its content type
    and its disposition. *)
Definition part_key (m : rspamd_mime_part)
    : option rspamd_content_type * option rspamd_content_disposition :=
  (ct m, cd m).

(** The MIME part is text and is not skipped as an attachment (lines 720
    and 414-418). *)
Definition makes_text_part (K : flag_consts) (t : rspamd_task) (m : rspamd_mime_part)
    : bool :=
  IS_CT_TEXT K (ct m) && negb (skipped_as_attachment t m).

(** The indices, from [i] on, of the parts of [ps] that get a text part. *)
Fixpoint text_part_sources (K : flag_consts) (t : rspamd_task) (i : nat)
    (ps : list rspamd_mime_part) : list nat :=
  match ps with
  | [] => []
  | m :: ps' =>
      (if makes_text_part K t m then [i] else []) ++ text_part_sources K t (S i) ps'
  end.

(** What the loop over the parts reads of the task. *)
Definition loop_input (t : rspamd_task)
    : option rspamd_config * list rspamd_mime_part * list rspamd_mime_text_part :=
  (cfg t, parts t, text_parts t).

(** ** Concrete inputs *)

(** A UTF text part with the given content, and a task holding it. *)
Definition part_with_content (c : list byte) (exs : list rspamd_process_exception)
    : rspamd_mime_text_part :=
  set_exceptions exs (set_tp_flags 1 (set_content (Some c)
    (set_mime_part (Some 0%nat) text_part_alloc0))).

Definition task_with_content (c : list byte) (exs : list rspamd_process_exception)
    : rspamd_task :=
  set_text_parts [part_with_content c exs]
    (set_parts [sample_leaf c]
       (sample_task c 1 (Some sample_config) (fun _ => None))).

Definition gtube_only_task : rspamd_task := task_with_content (bytes_of gtube_pattern) [].

(** A task whose only MIME part is an empty text/plain attachment, under a
    configuration that leaves text attachments alone. *)
Definition attachment_task : rspamd_task :=
  set_parts [mkPart (Some (sample_ct "text" "plain" 4)) (Some (mkCd RSPAMD_CT_ATTACHMENT))
                    [] [] None 0 None (fun _ => None) []]
    (sample_task [] 1 (Some sample_config) (fun _ => None)).

(** The same part, inline. *)
Definition empty_part_task : rspamd_task :=
  set_parts [mkPart (Some (sample_ct "text" "plain" 4)) None
                    [] [] None 0 None (fun _ => None) []]
    (sample_task [] 1 (Some sample_config) (fun _ => None)).

(** A task whose only MIME part is text/plain and holds the pattern in a
    sentence. *)
Definition gtube_sentence : list byte :=
  bytes_of ("This is the GTUBE: " ++ gtube_pattern).

Definition gtube_task : rspamd_task :=
  set_parts [sample_leaf gtube_sentence]
    (sample_task gtube_sentence 1 (Some sample_config) (fun _ => None)).

(** Two text parts with the given hashes under one multipart/alternative
    parent. *)
Definition hashed_part (i : nat) (h : list Z) : rspamd_mime_text_part :=
  set_mime_part (Some i) (set_normalized_hashes (Some h)
    (set_normalized_words (Some []) (part_with_content (bytes_of "x") []))).

Definition two_part_task (h1 h2 : list Z) : rspamd_task :=
  set_text_parts [hashed_part 1 h1; hashed_part 2 h2]
    (set_parts [mkPart (Some (sample_ct "multipart" "alternative" 2)) None [] []
                       None 0 None (fun _ => None) [];
                sample_leaf (bytes_of "x"); sample_leaf (bytes_of "x")]
       (sample_task [] 1 (Some sample_config) (fun _ => None))).

(** Two parts of 8192 words and of one word. *)
Definition oversized_task : rspamd_task := two_part_task (replicate (Z.to_nat 8192) 7) [7].

(** A message of two alternative parts, as the sample MIME parser reads it. *)
Definition hello_task : rspamd_task :=
  sample_task (bytes_of "hello world foo|hello world bar") 1 (Some sample_config)
              (fun _ => None).

(** A message that is the mailbox prefix and nothing else. *)
Definition from_only_task : rspamd_task :=
  sample_task (bytes_of "From ") 1 (Some sample_config) (fun _ => None).

(** A mailbox envelope line in front of a message. *)
Definition mailbox_message : list byte :=
  bytes_of "  From a@b.c Fri May 13 19:08:48 2016
 Subject: x".

Definition mailbox_task : rspamd_task :=
  sample_task mailbox_message 1 (Some sample_config) (fun _ => None).

(** A task that is not flagged MIME and whose message pointer is NULL. *)
Definition null_message_task : rspamd_task :=
  set_msg None (sample_task [] 0 (Some sample_config) (fun _ => None)).

(** An empty task without a message-id. *)
Definition empty_task : rspamd_task :=
  sample_task [] (Z.lor 1 (RSPAMD_TASK_FLAG_EMPTY sample_flags)) (Some sample_config)
              (fun _ => None).

(** The message of two alternative parts under a header table with a
    Message-ID. *)
Definition msgid_headers : GHashTable :=
  fun field =>
    if String.eqb field "Message-ID"
    then Some [mkHdr "Message-ID" "<abc@example.com>" "<abc@example.com>"]
    else None.

Definition msgid_task : rspamd_task :=
  sample_task (bytes_of "hello world foo|hello world bar") 1 (Some sample_config)
              msgid_headers.

(** A message of white space only, which the sample MIME parser refuses,
    under a configuration that forbids raw input. *)
Definition forbidden_raw_task : rspamd_task :=
  sample_task (bytes_of "  ") 1 (Some sample_config) (fun _ => None).

Definition url_words_task : rspamd_task :=
  task_with_content (bytes_of "Hello") [mkEx 5 0 RSPAMD_EXCEPTION_URL].

(** A text of three lines, and a part holding it that has a URL exception
    already. *)
Definition three_lines : list byte := ["a"; x0a; "b"; x0a; "c"]%byte.

Definition three_lines_part : rspamd_mime_text_part :=
  part_with_content three_lines [mkEx 5 0 RSPAMD_EXCEPTION_URL].

Definition three_lines_task : rspamd_task :=
  task_with_content three_lines [mkEx 5 0 RSPAMD_EXCEPTION_URL].

(** A one-part message with [body] as its text. *)
Definition gtube_message (body : list byte) : rspamd_task :=
  sample_task body 1 (Some sample_config) (fun _ => None).

(** A table that finds Subject whatever the case of its letters, with two
    headers under it, and a task of two parts carrying it. *)
Definition subject_table : GHashTable :=
  fun field =>
    if String.eqb field "Subject" || String.eqb field "subject"
    then Some [mkHdr "Subject" "one" "one"; mkHdr "subject" "two" "two"]
    else None.

Definition subject_part : rspamd_mime_part :=
  mkPart (Some (sample_ct "text" "plain" 4)) None [] [] None 0 None subject_table [].

Definition subject_parts_task : rspamd_task :=
  set_parts [subject_part; sample_leaf (bytes_of "x"); subject_part]
    (sample_task [] 1 (Some sample_config) subject_table).

(** * Theorems *)

(** ** Rules of the task monad *)

Section Hoare.

Context {A B : Type} (d : Prop).

Lemma hoare_ret (a : A) (Q : A -> rspamd_task -> Prop) t :
  Q a t -> hoare d (ret a) Q t.
Proof. intros H. exact H. Qed.

Lemma hoare_bind (m : M A) (k : A -> M B) (Q : B -> rspamd_task -> Prop) t :
  hoare d m (fun a t' => hoare d (k a) Q t') t -> hoare d (bind m k) Q t.
Proof.
  unfold hoare, bind. destruct (m t) as [[a t']|]; intros H; exact H.
Qed.

Lemma hoare_mono (m : M A) (Q Q' : A -> rspamd_task -> Prop) t :
  (forall a t', Q a t' -> Q' a t') -> hoare d m Q t -> hoare d m Q' t.
Proof.
  unfold hoare. intros HQ. destruct (m t) as [[a t']|]; [apply HQ | trivial].
Qed.

Lemma hoare_deref (o : option A) (Q : A -> rspamd_task -> Prop) t :
  match o with Some a => Q a t | None => d end -> hoare d (deref o) Q t.
Proof. destruct o; intros H; exact H. Qed.

Lemma hoare_run (m : M A) (Q : A -> rspamd_task -> Prop) t a t' :
  hoare d m Q t -> m t = Some (a, t') -> Q a t'.
Proof. unfold hoare. intros H E. rewrite E in H. exact H. Qed.

End Hoare.

Lemma hoare_total {A} (m : M A) (Q : A -> rspamd_task -> Prop) t :
  hoare False m Q t -> exists a t', m t = Some (a, t') /\ Q a t'.
Proof.
  unfold hoare. destruct (m t) as [[a t']|]; [eauto | tauto].
Qed.

Lemma hoare_get (d : Prop) (Q : rspamd_task -> rspamd_task -> Prop) t :
  Q t t -> hoare d get Q t.
Proof. intros H. exact H. Qed.

Lemma hoare_modify (d : Prop) f (Q : unit -> rspamd_task -> Prop) t :
  Q tt (f t) -> hoare d (modify f) Q t.
Proof. intros H. exact H. Qed.

Lemma hoare_log (d : Prop) l fmt (Q : unit -> rspamd_task -> Prop) t :
  Q tt (set_log (log t ++ [mkLog l fmt]) t) -> hoare d (log_msg l fmt) Q t.
Proof. intros H. exact H. Qed.

(** ** Machine integers *)

(** No wrap-around below 2^32. *)
Lemma guint_small (z : Z) : 0 <= z < 2 ^ 32 -> guint z = z.
Proof. intros H. unfold guint. now apply Z.mod_small. Qed.

(** ** Byte strings *)

Lemma bytes_eqb_eq (a b : list byte) : bytes_eqb a b = true <-> a = b.
Proof.
  revert b. induction a as [|x a IH]; intros [|y b]; simpl; split; try easy.
  - intros H. apply andb_prop in H as [Hx Hab].
    apply Byte.byte_dec_bl in Hx. apply IH in Hab. congruence.
  - intros [= -> ->]. rewrite (Byte.byte_dec_lb eq_refl). simpl. now apply IH.
Qed.

Lemma memcmp_eq_prefix (p lit : list byte) :
  memcmp_eq p lit = true <-> exists rest, p = lit ++ rest.
Proof.
  unfold memcmp_eq. rewrite bytes_eqb_eq. split.
  - intros H. exists (drop (length lit) p). rewrite <- H at 1.
    symmetry. apply take_drop.
  - intros [rest ->]. rewrite take_app_length. reflexivity.
Qed.

(** ** Pointers into the task *)

Lemma bind_eq {A B} (m : M A) (k : A -> M B) t a t' :
  m t = Some (a, t') -> bind m k t = k a t'.
Proof. intros H. unfold bind. now rewrite H. Qed.

Lemma get_text_part_eq (k : nat) (t : rspamd_task) (p : rspamd_mime_text_part) :
  text_parts t !! k = Some p -> get_text_part k t = Some (p, t).
Proof. intros H. unfold get_text_part, bind, get, deref. simpl. now rewrite H. Qed.

Lemma get_part_eq (i : nat) (t : rspamd_task) (m : rspamd_mime_part) :
  parts t !! i = Some m -> get_part i t = Some (m, t).
Proof. intros H. unfold get_part, bind, get, deref. simpl. now rewrite H. Qed.

Lemma update_text_part_eq (k : nat) f (t : rspamd_task) (p : rspamd_mime_text_part) :
  text_parts t !! k = Some p ->
  update_text_part k f t = Some (tt, set_text_parts (<[k := f p]> (text_parts t)) t).
Proof.
  intros H. unfold update_text_part.
  rewrite (bind_eq _ _ _ _ _ (get_text_part_eq _ _ _ H)). reflexivity.
Qed.

Lemma update_part_eq (i : nat) f (t : rspamd_task) (m : rspamd_mime_part) :
  parts t !! i = Some m ->
  update_part i f t = Some (tt, set_parts (<[i := f m]> (parts t)) t).
Proof.
  intros H. unfold update_part.
  rewrite (bind_eq _ _ _ _ _ (get_part_eq _ _ _ H)). reflexivity.
Qed.

(** ** The edit distance *)

(** C1 (the code departs from the claim).  The claim asks for the edit
    distance with insert 1, delete 1, substitute 2, so that two identical
    sequences are at distance 0.  The code charges the 2 for a pair of
    EQUAL hashes and nothing for a replaced one: for every hash [h] the
    sequences [h] and [h] are at distance 2, where the edit distance of the
    specification is 0. *)
Theorem levenshtein_equal_words_cost_two (h : Z) (t : rspamd_task) :
  rspamd_words_levenshtein_distance [h] [h] t = Some (2, t) /\
  levenshtein_spec [h] [h] = 0.
Proof.
  split.
  - unfold rspamd_words_levenshtein_distance, levenshtein_column, levenshtein_row,
      levenshtein_cell. simpl. rewrite Z.eqb_refl. reflexivity.
  - simpl. rewrite Z.eqb_refl. reflexivity.
Qed.

(** Conversely a replaced word costs nothing. *)
Lemma levenshtein_replaced_word_free (h h' : Z) (t : rspamd_task) :
  h <> h' ->
  rspamd_words_levenshtein_distance [h] [h'] t = Some (0, t) /\
  levenshtein_spec [h] [h'] = 2.
Proof.
  intros Hne. apply Z.eqb_neq in Hne. split.
  - unfold rspamd_words_levenshtein_distance, levenshtein_column, levenshtein_row,
      levenshtein_cell. simpl. rewrite Hne. reflexivity.
  - simpl. rewrite Hne. reflexivity.
Qed.

(** *** The loop is the table with the costs exchanged *)

(** [MIN3] lies between the minimum of its arguments and the first one. *)
Lemma MIN3_bounds (a b c : Z) :
  Z.min a (Z.min b c) <= MIN3 a b c <= a.
Proof.
  unfold MIN3.
  destruct (a <? b) eqn:E1; [destruct (a <? c) eqn:E2 | destruct (b <? c) eqn:E2];
    rewrite ?Z.ltb_lt, ?Z.ltb_ge in *; lia.
Qed.

Lemma code_cost_range (a b : Z) : 0 <= code_cost a b <= 2.
Proof. unfold code_cost. destruct (a =? b); lia. Qed.

(** One cell (lines 353-364): the column holds the new row up to [left]
    and the row above from [up] on. *)
Lemma levenshtein_cell_step (w1pre w1rest done old : list Z)
    (h1 h2 left up lastdiag B : Z) :
  length done = length w1pre ->
  B + 2 < 2 ^ 32 ->
  0 <= up <= B -> 0 <= left <= B -> 0 <= lastdiag <= B ->
  levenshtein_cell (w1pre ++ h1 :: w1rest) h2
    ((done ++ [left]) ++ up :: old, lastdiag) (S (length w1pre))
  = ((done ++ [left]) ++
       MIN3 (up + 1) (left + 1) (lastdiag + code_cost h1 h2) :: old, up).
Proof.
  intros Hlen HB Hup Hleft Hdiag. unfold levenshtein_cell.
  assert (Hy : S (length w1pre) = length (done ++ [left])).
  { rewrite length_app. cbn. lia. }
  rewrite (list_lookup_total_middle (done ++ [left]) old up _ Hy).
  replace (S (length w1pre) - 1)%nat with (length w1pre) by lia.
  rewrite (list_lookup_total_middle w1pre w1rest h1 _ eq_refl).
  rewrite <- (app_assoc done [left]).
  rewrite (list_lookup_total_middle done ([] ++ up :: old) left _ (eq_sym Hlen)).
  rewrite (app_assoc done [left]).
  rewrite insert_app_r_alt by lia. rewrite Hy, Nat.sub_diag. cbn [insert list_insert].
  assert (Hc : (if h1 =? h2 then 1 else 0) * 2 = code_cost h1 h2).
  { unfold code_cost. destruct (h1 =? h2); reflexivity. }
  rewrite Hc. pose proof (code_cost_range h1 h2).
  rewrite !guint_small by lia. reflexivity.
Qed.

Lemma table_next_row_range (h2 : Z) (w1 prev : list Z) (diag left B : Z) :
  in_range B prev -> 0 <= diag <= B -> 0 <= left <= B + 1 ->
  in_range (B + 1) (table_next_row code_cost h2 w1 diag prev left).
Proof.
  revert prev diag left. induction w1 as [|h1 w1 IH]; intros prev diag left Hprev Hd Hl.
  - constructor.
  - destruct prev as [|up prev]; [constructor|].
    apply Forall_cons in Hprev as [Hup Hprev]. cbn [table_next_row].
    pose proof (MIN3_bounds (up + 1) (left + 1) (diag + code_cost h1 h2)).
    pose proof (code_cost_range h1 h2).
    constructor; [lia|]. apply IH; [assumption | lia | lia].
Qed.

Lemma table_next_row_length (cost : Z -> Z -> Z) (h2 : Z) (w1 prev : list Z)
    (diag left : Z) :
  length prev = length w1 ->
  length (table_next_row cost h2 w1 diag prev left) = length w1.
Proof.
  revert prev diag left. induction w1 as [|h1 w1 IH]; intros [|up prev] diag left Hlen;
    try discriminate; [reflexivity|].
  cbn. f_equal. apply IH. now injection Hlen.
Qed.

(** The inner loop, from cell [S (length w1pre)] on: the cells already
    written are [done ++ [left]], the cells of the row above still to be read
    are [old]. *)
Lemma levenshtein_cells (h2 : Z) (w1rest : list Z) :
  forall (w1pre done old : list Z) (left lastdiag B : Z),
    length done = length w1pre ->
    length old = length w1rest ->
    B + 3 < 2 ^ 32 ->
    in_range B old -> 0 <= lastdiag <= B -> 0 <= left <= B + 1 ->
    fst (foldl (levenshtein_cell (w1pre ++ w1rest) h2)
               ((done ++ [left]) ++ old, lastdiag)
               (seq (S (length w1pre)) (length w1rest)))
    = (done ++ [left]) ++ table_next_row code_cost h2 w1rest lastdiag old left.
Proof.
  induction w1rest as [|h1 w1rest IH];
    intros w1pre done old left lastdiag B Hdone Hold HB Hrange Hd Hl.
  - destruct old; [reflexivity | discriminate Hold].
  - destruct old as [|up old]; [discriminate Hold|].
    apply Forall_cons in Hrange as [Hup Hrange].
    cbn [length seq foldl table_next_row].
    rewrite (levenshtein_cell_step w1pre w1rest done old h1 h2 left up lastdiag (B + 1))
      by (try assumption; lia).
    set (v := MIN3 (up + 1) (left + 1) (lastdiag + code_cost h1 h2)).
    assert (Hv : 0 <= v <= B + 1).
    { pose proof (MIN3_bounds (up + 1) (left + 1) (lastdiag + code_cost h1 h2)).
      pose proof (code_cost_range h1 h2). subst v. lia. }
    replace (w1pre ++ h1 :: w1rest) with ((w1pre ++ [h1]) ++ w1rest)
      by now rewrite <- app_assoc.
    replace (S (S (length w1pre))) with (S (length (w1pre ++ [h1])))
      by (rewrite length_app; cbn; lia).
    replace ((done ++ [left]) ++ v :: old) with (((done ++ [left]) ++ [v]) ++ old)
      by now rewrite <- (app_assoc _ [v]).
    rewrite (IH (w1pre ++ [h1]) (done ++ [left]) old v up B).
    + now rewrite <- (app_assoc _ [v]).
    + rewrite !length_app. cbn. lia.
    + now injection Hold.
    + exact HB.
    + exact Hrange.
    + exact Hup.
    + exact Hv.
Qed.

(** One row (lines 350-365). *)
Lemma levenshtein_row_spec (w1 w2pre w2rest col : list Z) (h2 B : Z) :
  length col = S (length w1) ->
  in_range B col ->
  Z.of_nat (S (length w2pre)) <= B + 1 ->
  B + 3 < 2 ^ 32 ->
  levenshtein_row w1 (w2pre ++ h2 :: w2rest) col (S (length w2pre))
  = Z.of_nat (S (length w2pre)) ::
    table_next_row code_cost h2 w1 (Z.of_nat (length w2pre)) (drop 1 col)
      (Z.of_nat (S (length w2pre))).
Proof.
  intros Hlen Hrange Hx HB. unfold levenshtein_row.
  destruct col as [|c0 col]; [discriminate Hlen|].
  apply Forall_cons in Hrange as [_ Hrange]. cbn [insert list_insert drop].
  replace (S (length w2pre) - 1)%nat with (length w2pre) by lia.
  rewrite (list_lookup_total_middle w2pre w2rest h2 _ eq_refl).
  rewrite guint_small by lia.
  replace (Z.of_nat (S (length w2pre)) - 1) with (Z.of_nat (length w2pre)) by lia.
  apply (levenshtein_cells h2 w1 [] [] col (Z.of_nat (S (length w2pre)))
           (Z.of_nat (length w2pre)) B); try assumption; try reflexivity; try lia.
  now injection Hlen.
Qed.

(** The rows from [S (length w2pre)] on; the cells of row [x] are at most
    [length w1 + x], so nothing wraps around. *)
Lemma levenshtein_rows (w1 w2rest : list Z) :
  forall (w2pre col : list Z),
    length col = S (length w1) ->
    in_range (Z.of_nat (length w1 + length w2pre)) col ->
    Z.of_nat (length w1 + length w2pre + length w2rest) + 3 < 2 ^ 32 ->
    foldl (levenshtein_row w1 (w2pre ++ w2rest)) col
          (seq (S (length w2pre)) (length w2rest))
    = table_rows code_cost w1 w2rest (length w2pre) col.
Proof.
  induction w2rest as [|h2 w2rest IH]; intros w2pre col Hlen Hrange HB; [reflexivity|].
  cbn [length seq foldl table_rows]. cbn [length] in HB.
  rewrite (levenshtein_row_spec w1 w2pre w2rest col h2
             (Z.of_nat (length w1 + length w2pre))); try assumption; try lia.
  replace (w2pre ++ h2 :: w2rest) with ((w2pre ++ [h2]) ++ w2rest)
    by now rewrite <- app_assoc.
  replace (S (S (length w2pre))) with (S (length (w2pre ++ [h2])))
    by (rewrite length_app; cbn; lia).
  replace (S (length w2pre)) with (length (w2pre ++ [h2]))
    by (rewrite length_app; cbn; lia).
  apply IH.
  - cbn. f_equal. apply table_next_row_length.
    destruct col; [discriminate Hlen | cbn; now injection Hlen].
  - replace (Z.of_nat (length w1 + length (w2pre ++ [h2])))
      with (Z.of_nat (length w1 + length w2pre) + 1)
      by (rewrite length_app; cbn; lia).
    constructor; [rewrite length_app; cbn; lia|].
    apply table_next_row_range; rewrite ?length_app; cbn [length]; try lia.
    destruct col as [|c0 col]; [constructor|].
    now apply Forall_cons in Hrange as [_ Hrange].
  - rewrite length_app. cbn. lia.
Qed.

(** Lines 344-348: the column before the first row. *)
Lemma levenshtein_column_init (n : nat) :
  forall done : list Z,
    foldl (fun c y => <[y := Z.of_nat y]> c) (done ++ replicate n 0)
          (seq (length done) n)
    = done ++ map Z.of_nat (seq (length done) n).
Proof.
  induction n as [|n IH]; intros done; [reflexivity|].
  cbn [replicate seq foldl map].
  rewrite insert_app_r_alt by lia. rewrite Nat.sub_diag. cbn [insert list_insert].
  replace (done ++ Z.of_nat (length done) :: replicate n 0)
    with ((done ++ [Z.of_nat (length done)]) ++ replicate n 0)
    by now rewrite <- app_assoc.
  replace (S (length done)) with (length (done ++ [Z.of_nat (length done)]))
    by (rewrite length_app; cbn; lia).
  rewrite IH. now rewrite <- app_assoc.
Qed.

(** Lines 344-366: the column after the last row is the last row of the
    table. *)
Lemma levenshtein_column_table (w1 w2 : list Z) :
  Z.of_nat (length w1 + length w2) + 3 < 2 ^ 32 ->
  levenshtein_column w1 w2
  = table_rows code_cost w1 w2 0 (map Z.of_nat (seq 0 (S (length w1)))).
Proof.
  intros Hlen. unfold levenshtein_column.
  replace (length w1 + 1)%nat with (S (length w1)) by lia.
  pose proof (levenshtein_column_init (length w1) [0]) as Hinit.
  cbn [length app] in Hinit.
  change (replicate (S (length w1)) 0) with (0 :: replicate (length w1) 0).
  rewrite Hinit.
  pose proof (levenshtein_rows w1 w2 [] (0 :: map Z.of_nat (seq 1 (length w1)))) as Hrows.
  cbn [app length] in Hrows. rewrite Hrows.
  - reflexivity.
  - cbn. now rewrite length_map, length_seq.
  - rewrite Nat.add_0_r. constructor; [lia|].
    apply Forall_forall. intros v [y [-> Hy]]%list_elem_of_fmap.
    apply elem_of_seq in Hy. lia.
  - lia.
Qed.

(** Lines 335-342 and 368-371: within the limit the guard lets the
    sequences through and nothing is logged. *)
Lemma levenshtein_guard (w1 w2 : list Z) (t : rspamd_task) :
  Z.of_nat (length w1 + length w2) <= max_words ->
  rspamd_words_levenshtein_distance w1 w2 t
  = Some (levenshtein_column w1 w2 !!! length w1, t).
Proof.
  intros Hlen. unfold max_words in Hlen. unfold rspamd_words_levenshtein_distance.
  rewrite (guint_small (Z.of_nat (length w1))), (guint_small (Z.of_nat (length w2))),
    guint_small by (change (2 ^ 32) with 4294967296; lia).
  destruct (max_words <? _) eqn:E; [apply Z.ltb_lt in E; unfold max_words in E; lia|].
  reflexivity.
Qed.

Lemma table_rows_length (cost : Z -> Z -> Z) (w1 w2 : list Z) :
  forall (x : nat) (row : list Z),
    length row = S (length w1) ->
    length (table_rows cost w1 w2 x row) = S (length w1).
Proof.
  induction w2 as [|h2 w2 IH]; intros x row Hlen; [exact Hlen|].
  cbn [table_rows]. apply IH. cbn. f_equal. apply table_next_row_length.
  destruct row; [discriminate Hlen | cbn; now injection Hlen].
Qed.

(** The cells of row [x] are at most [length w1 + x]. *)
Lemma table_rows_range (w1 w2 : list Z) :
  forall (x : nat) (row : list Z),
    in_range (Z.of_nat (length w1 + x)) row ->
    in_range (Z.of_nat (length w1 + x + length w2)) (table_rows code_cost w1 w2 x row).
Proof.
  induction w2 as [|h2 w2 IH]; intros x row Hrange; cbn [table_rows length].
  - now rewrite Nat.add_0_r.
  - replace (length w1 + x + S (length w2))%nat with (length w1 + S x + length w2)%nat by lia.
    apply IH.
    replace (Z.of_nat (length w1 + S x)) with (Z.of_nat (length w1 + x) + 1) by lia.
    constructor; [lia|].
    apply table_next_row_range; try lia.
    destruct row as [|c0 row]; [constructor|].
    now apply Forall_cons in Hrange as [_ Hrange].
Qed.

(** A cell is never below the distance of its indices from the diagonal. *)
Lemma table_next_row_above (h2 : Z) (w1 : list Z) :
  forall (prev : list Z) (diag left x y0 : Z),
    above_diagonal (x - 1) y0 prev ->
    Z.abs (x - y0) <= diag ->
    Z.abs (x - y0 + 1) <= left ->
    above_diagonal x y0 (table_next_row code_cost h2 w1 diag prev left).
Proof.
  induction w1 as [|h1 w1 IH]; intros prev diag left x y0 Hprev Hd Hl j v Hj.
  - discriminate Hj.
  - destruct prev as [|up prev]; [discriminate Hj|].
    cbn [table_next_row] in Hj.
    pose proof (Hprev 0%nat up eq_refl) as Hup.
    pose proof (MIN3_bounds (up + 1) (left + 1) (diag + code_cost h1 h2)) as HM.
    pose proof (code_cost_range h1 h2) as Hc.
    destruct j as [|j].
    + injection Hj as <-. lia.
    + cbn in Hj.
      pose proof (IH prev up (MIN3 (up + 1) (left + 1) (diag + code_cost h1 h2))
                    x (y0 + 1)) as H.
      replace (y0 + Z.of_nat (S j)) with (y0 + 1 + Z.of_nat j) by lia.
      apply H; try assumption; try lia.
      intros j' v' Hj'. specialize (Hprev (S j') v' Hj'). lia.
Qed.

Lemma table_rows_above (w1 w2 : list Z) :
  forall (x : nat) (row : list Z),
    above_diagonal (Z.of_nat x) 0 row ->
    above_diagonal (Z.of_nat (x + length w2)) 0 (table_rows code_cost w1 w2 x row).
Proof.
  induction w2 as [|h2 w2 IH]; intros x row Hrow; cbn [table_rows length].
  - now rewrite Nat.add_0_r.
  - replace (x + S (length w2))%nat with (S x + length w2)%nat by lia.
    apply IH. intros j v Hj. destruct j as [|j].
    + injection Hj as <-. lia.
    + cbn in Hj. replace (0 + Z.of_nat (S j)) with (1 + Z.of_nat j) by lia.
      revert j v Hj. apply table_next_row_above; try lia.
      intros j v Hj. rewrite lookup_drop in Hj. specialize (Hrow _ _ Hj). lia.
Qed.

Lemma wagner_fischer_bounds (w1 w2 : list Z) :
  Z.abs (Z.of_nat (length w1) - Z.of_nat (length w2))
  <= wagner_fischer code_cost w1 w2
  <= Z.of_nat (length w1 + length w2).
Proof.
  unfold wagner_fischer.
  set (row := table_rows code_cost w1 w2 0 _).
  assert (Hlen : length row = S (length w1)).
  { apply table_rows_length. now rewrite length_map, length_seq. }
  destruct (lookup_lt_is_Some_2 row (length w1)) as [v Hv]; [lia|].
  rewrite (list_lookup_total_correct _ _ _ Hv). split.
  - assert (Ha : above_diagonal (Z.of_nat (0 + length w2)) 0 row).
    { apply table_rows_above. intros j u Hj.
      apply list_lookup_fmap_Some in Hj as (y & -> & Hy).
      apply lookup_seq in Hy as [-> _]. lia. }
    specialize (Ha _ _ Hv). lia.
  - assert (Hr : in_range (Z.of_nat (length w1 + 0 + length w2)) row).
    { apply table_rows_range. apply Forall_forall.
      intros u [y [-> Hy]]%list_elem_of_fmap. apply elem_of_seq in Hy. lia. }
    unfold in_range in Hr. rewrite Forall_lookup in Hr. specialize (Hr _ _ Hv).
    cbv beta in Hr. lia.
Qed.

(** X1.  Apart from what it charges on the diagonal, the code is the
    single-row form of the Wagner-Fischer table: for sequences of at most
    8192 words together it returns the last cell of the table built with
    insert 1, delete 1 and [code_cost] on the diagonal, no cell wraps around
    32 bits, and the task is left as it was (nothing is logged). *)
Theorem levenshtein_distance_is_table (w1 w2 : list Z) (t : rspamd_task) :
  Z.of_nat (length w1 + length w2) <= max_words ->
  rspamd_words_levenshtein_distance w1 w2 t
  = Some (wagner_fischer code_cost w1 w2, t).
Proof.
  intros Hlen. rewrite levenshtein_guard by exact Hlen.
  unfold wagner_fischer. rewrite levenshtein_column_table; [reflexivity|].
  unfold max_words in Hlen. change (2 ^ 32) with 4294967296. lia.
Qed.

Lemma levenshtein_distance_is_table_sample :
  Z.of_nat (length [1; 2; 3] + length [1; 2; 4]) <= max_words /\
  rspamd_words_levenshtein_distance [1; 2; 3] [1; 2; 4] (two_part_task [1; 2; 3] [1; 2; 4])
  = Some (wagner_fischer code_cost [1; 2; 3] [1; 2; 4], two_part_task [1; 2; 3] [1; 2; 4]).
Proof.
  split; [vm_compute; discriminate|].
  apply levenshtein_distance_is_table. vm_compute. discriminate.
Defined.

(** X2.  Within the limit the distance lies between the difference of the
    two word counts and their sum: it is never more than the total number of
    words it is divided by, and two parts of different word counts are never
    at distance 0. *)
Theorem levenshtein_distance_bounds (w1 w2 : list Z) (t : rspamd_task) :
  Z.of_nat (length w1 + length w2) <= max_words ->
  exists dw,
    rspamd_words_levenshtein_distance w1 w2 t = Some (dw, t) /\
    Z.abs (Z.of_nat (length w1) - Z.of_nat (length w2)) <= dw
      <= Z.of_nat (length w1 + length w2).
Proof.
  intros Hlen. exists (wagner_fischer code_cost w1 w2). split.
  - rewrite levenshtein_guard by exact Hlen. unfold wagner_fischer.
    rewrite levenshtein_column_table; [reflexivity|].
    unfold max_words in Hlen. change (2 ^ 32) with 4294967296. lia.
  - apply wagner_fischer_bounds.
Qed.

Lemma levenshtein_distance_bounds_sample :
  Z.of_nat (length [1; 2; 3] + length [4; 5; 6; 7]) <= max_words /\
  exists dw,
    rspamd_words_levenshtein_distance [1; 2; 3] [4; 5; 6; 7] (two_part_task [] [])
      = Some (dw, two_part_task [] []) /\
    Z.abs (Z.of_nat (length [1; 2; 3]) - Z.of_nat (length [4; 5; 6; 7])) <= dw
      <= Z.of_nat (length [1; 2; 3] + length [4; 5; 6; 7]).
Proof.
  split; [vm_compute; discriminate|].
  apply levenshtein_distance_bounds. vm_compute. discriminate.
Defined.

(** X3.  Against an empty sequence the distance is the length of the other
    one, on either side. *)
Theorem levenshtein_distance_empty (w : list Z) (t : rspamd_task) :
  Z.of_nat (length w) <= max_words ->
  rspamd_words_levenshtein_distance w [] t = Some (Z.of_nat (length w), t) /\
  rspamd_words_levenshtein_distance [] w t = Some (Z.of_nat (length w), t).
Proof.
  intros Hlen.
  assert (H32 : Z.of_nat (length w) + 3 < 2 ^ 32).
  { unfold max_words in Hlen. change (2 ^ 32) with 4294967296. lia. }
  split.
  - rewrite levenshtein_guard by (cbn [length]; rewrite Nat.add_0_r; exact Hlen).
    rewrite levenshtein_column_table by (cbn [length]; rewrite Nat.add_0_r; exact H32).
    pose proof (wagner_fischer_bounds w []) as Hb. unfold wagner_fischer in Hb.
    cbn [length] in Hb. do 2 f_equal. lia.
  - rewrite levenshtein_guard by exact Hlen.
    rewrite levenshtein_column_table by exact H32.
    pose proof (wagner_fischer_bounds [] w) as Hb. unfold wagner_fischer in Hb.
    cbn [length] in Hb. cbn [length]. do 2 f_equal. lia.
Qed.

Lemma levenshtein_distance_empty_sample :
  Z.of_nat (length [5; 6; 7]) <= max_words /\
  rspamd_words_levenshtein_distance [5; 6; 7] [] (two_part_task [] [])
    = Some (Z.of_nat (length [5; 6; 7]), two_part_task [] []) /\
  rspamd_words_levenshtein_distance [] [5; 6; 7] (two_part_task [] [])
    = Some (Z.of_nat (length [5; 6; 7]), two_part_task [] []).
Proof.
  split; [vm_compute; discriminate|].
  apply levenshtein_distance_empty. vm_compute. discriminate.
Defined.


(** ** The GTUBE probe *)

Lemma substring_search_found (srch inp : list byte) (off : Z) :
  occurs_in srch inp -> 0 <= off ->
  0 <= rspamd_substring_search_twoway_from off inp srch.
Proof.
  intros (pre & post & ->). revert off.
  induction pre as [|b pre IH]; intros off Hoff.
  - simpl. destruct (srch ++ post) eqn:E; simpl;
      (replace (memcmp_eq _ srch) with true; [lia|]);
      symmetry; apply memcmp_eq_prefix; exists post; now rewrite E.
  - simpl. destruct (memcmp_eq (b :: pre ++ srch ++ post) srch); [lia|].
    apply IH. lia.
Qed.

Lemma substring_search_occurs (srch inp : list byte) (off : Z) :
  rspamd_substring_search_twoway_from off inp srch <> -1 -> occurs_in srch inp.
Proof.
  revert off. induction inp as [|b inp IH]; intros off; simpl.
  - destruct (memcmp_eq [] srch) eqn:E; [|congruence].
    apply memcmp_eq_prefix in E as [rest E]. intros _. exists [], rest. exact E.
  - destruct (memcmp_eq (b :: inp) srch) eqn:E.
    + apply memcmp_eq_prefix in E as [rest E]. intros _. exists [], rest. exact E.
    + intros H. apply IH in H as (pre & post & ->). exists (b :: pre), post. reflexivity.
Qed.

Lemma gtube_found_spec (c : list byte) :
  gtube_found c = true <->
  sizeof_gtube_pattern < Z.of_nat (length c) <= max_check_size /\
  occurs_in (bytes_of gtube_pattern) c.
Proof.
  unfold gtube_found. rewrite !andb_true_iff, negb_true_iff, Z.ltb_lt, Z.leb_le, Z.eqb_neq.
  split.
  - intros [[H1 H2] H3]. split; [lia|]. eapply substring_search_occurs, H3.
  - intros [[H1 H2] H3]. split; [lia|].
    pose proof (substring_search_found _ _ 0 H3 (Z.le_refl 0)).
    unfold rspamd_substring_search_twoway. lia.
Qed.


(** C4 (the code departs from the claim).  The claim covers every text
    part of at most 4 KiB containing the pattern.  The length guard of
    [rspamd_check_gtube] compares with [sizeof (gtube_pattern)], which counts
    the terminating NUL, and does so strictly: a part of at most 69 bytes is
    never reported and the task is left as it is, also when the part is the
    68-byte pattern itself. *)
Theorem check_gtube_misses_short_parts (K : flag_consts) (t : rspamd_task) (k : nat)
    (p : rspamd_mime_text_part) (c : list byte) :
  text_parts t !! k = Some p ->
  content p = Some c ->
  Z.of_nat (length c) <= sizeof_gtube_pattern ->
  rspamd_check_gtube K k t = Some (false, t).
Proof.
  intros Hp Hc Hlen. unfold rspamd_check_gtube.
  rewrite (bind_eq _ _ _ _ _ (get_text_part_eq _ _ _ Hp)), Hc.
  destruct (sizeof_gtube_pattern <? Z.of_nat (length c)) eqn:E.
  - apply Z.ltb_lt in E. lia.
  - reflexivity.
Qed.

(** The 68-byte pattern alone, in a part of its own, goes unnoticed. *)
Lemma check_gtube_misses_bare_pattern :
  occurs_in (bytes_of gtube_pattern) (bytes_of gtube_pattern) /\
  Z.of_nat (length (bytes_of gtube_pattern)) <= max_check_size /\
  rspamd_check_gtube sample_flags 0 gtube_only_task = Some (false, gtube_only_task).
Proof.
  split; [exists [], []; reflexivity|].
  split; [vm_compute; discriminate|].
  eapply (check_gtube_misses_short_parts sample_flags gtube_only_task 0).
  - reflexivity.
  - reflexivity.
  - vm_compute. discriminate.
Defined.

(** ** Words and hashes *)

Section Words.

Variable X : externals.

Lemma extract_words_loop_acc utf stem words ws0 hs0 :
  foldl (fun '(ws, hs) w =>
           let '(w', h) := extract_word X utf stem w in
           (ws ++ [w'], match h with Some h => hs ++ [h] | None => hs end))
        (ws0, hs0) words =
  (ws0 ++ map (fun w => fst (extract_word X utf stem w)) words,
   hs0 ++ omap (fun w => snd (extract_word X utf stem w)) words).
Proof.
  revert ws0 hs0. induction words as [|w words IH]; intros ws0 hs0;
    cbn [foldl map omap list_omap].
  - now rewrite !app_nil_r.
  - destruct (extract_word X utf stem w) as [w' h]. rewrite IH. cbn [fst snd].
    destruct h; now rewrite <- !app_assoc.
Qed.

Lemma extract_word_hash utf stem w :
  snd (extract_word X utf stem w) =
  if nonempty_tok (fst (extract_word X utf stem w))
  then Some (rspamd_cryptobox_fast_hash_specific X (fst (extract_word X utf stem w))
               words_hash_seed)
  else None.
Proof. reflexivity. Qed.

Lemma extract_word_sentinel utf stem w :
  is_sentinel w = true ->
  extract_word X utf stem w =
  (w, Some (rspamd_cryptobox_fast_hash_specific X w words_hash_seed)).
Proof.
  unfold is_sentinel, extract_word. destruct w as [len begin]. cbn [tok_len tok_begin].
  intros H. apply andb_prop in H as [Hlen Hmem].
  apply Z.eqb_eq in Hlen. subst len. rewrite Hmem. reflexivity.
Qed.

Lemma extract_words_loop_spec utf stem words :
  let ws' := map (fun w => fst (extract_word X utf stem w)) words in
  extract_words_loop X utf stem words =
  (ws', map (fun w => rspamd_cryptobox_fast_hash_specific X w words_hash_seed)
            (List.filter nonempty_tok ws')).
Proof.
  unfold extract_words_loop. rewrite extract_words_loop_acc. cbn [app]. f_equal.
  induction words as [|w words IH]; cbn [map omap list_omap List.filter]; [reflexivity|].
  rewrite extract_word_hash.
  destruct (nonempty_tok (fst (extract_word X utf stem w))); cbn [map]; now rewrite IH.
Qed.

Lemma extract_words_run (K : flag_consts) k t p c :
  text_parts t !! k = Some p ->
  content p = Some c ->
  exists stem lg,
    rspamd_extract_words K X k t =
    (match rspamd_tokenize_text X c (IS_PART_UTF K p) (cfg t) (exceptions p) with
     | Some ws =>
         let '(ws', hs) := extract_words_loop X (IS_PART_UTF K p) stem ws in
         update_text_part k (fun p =>
           set_normalized_hashes (Some hs) (set_normalized_words (Some ws') p))
     | None => update_text_part k (set_normalized_words None)
     end) (set_log (log t ++ lg) t).
Proof.
  intros Hp Hc. unfold rspamd_extract_words.
  rewrite (bind_eq _ _ _ _ _ (get_text_part_eq _ _ _ Hp)).
  unfold bind at 1. cbn [get].
  assert (Hnil : set_log (log t ++ []) t = t) by (rewrite app_nil_r; now destruct t).
  destruct (WITH_SNOWBALL X).
  2:{ exists None, []. rewrite Hnil. unfold bind at 1. cbn [ret]. rewrite Hc. reflexivity. }
  destruct (language p) as [l|].
  2:{ exists None, []. rewrite Hnil. unfold bind at 1. cbn [ret]. rewrite Hc. reflexivity. }
  destruct (negb (l =? "")%string && IS_PART_UTF K p).
  2:{ exists None, []. rewrite Hnil. unfold bind at 1. cbn [ret]. rewrite Hc. reflexivity. }
  destruct (sb_stemmer_new X l) as [s|].
  - exists (Some s), []. rewrite Hnil. unfold bind at 1. cbn [ret]. rewrite Hc. reflexivity.
  - exists None, [mkLog LOG_INFO "<%s> cannot create lemmatizer for %s language"].
    unfold bind at 1. cbn. rewrite Hc. reflexivity.
Qed.

(** C5, as amended.  After [rspamd_extract_words] the hashes of a part
    are, in order, the hashes of the tokens left in [normalized_words] whose
    length is not zero, one for each; a sentinel token [!!EX!!] is left as it
    is (neither stemmed nor lowercased) and is hashed like any other token. *)
Theorem extract_words_hashes (K : flag_consts) k t p c ws :
  text_parts t !! k = Some p ->
  content p = Some c ->
  rspamd_tokenize_text X c (IS_PART_UTF K p) (cfg t) (exceptions p) = Some ws ->
  exists t' p' ws' hs,
    rspamd_extract_words K X k t = Some (tt, t') /\
    text_parts t' !! k = Some p' /\
    normalized_words p' = Some ws' /\
    normalized_hashes p' = Some hs /\
    length ws' = length ws /\
    hs = map (fun w => rspamd_cryptobox_fast_hash_specific X w words_hash_seed)
             (List.filter nonempty_tok ws') /\
    forall w, w ∈ ws -> is_sentinel w = true ->
      w ∈ ws' /\ rspamd_cryptobox_fast_hash_specific X w words_hash_seed ∈ hs.
Proof.
  intros Hp Hc Hws.
  destruct (extract_words_run K k t p c Hp Hc) as (stem & lg & Hrun).
  rewrite Hws in Hrun. rewrite extract_words_loop_spec in Hrun. cbn zeta in Hrun.
  set (ws' := map (fun w => fst (extract_word X (IS_PART_UTF K p) stem w)) ws) in *.
  set (hs := map _ (List.filter nonempty_tok ws')) in *.
  rewrite (update_text_part_eq k _ (set_log (log t ++ lg) t) p Hp) in Hrun.
  eexists _, _, ws', hs. split; [exact Hrun|]. cbn.
  split; [apply list_lookup_insert_eq; eapply lookup_lt_Some, Hp|].
  split; [reflexivity|]. split; [reflexivity|].
  split; [apply length_map|]. split; [reflexivity|].
  intros w Hin Hsen.
  assert (Hw : w ∈ ws').
  { apply list_elem_of_fmap. exists w. split; [|exact Hin].
    now rewrite (extract_word_sentinel _ _ _ Hsen). }
  split; [exact Hw|].
  apply list_elem_of_fmap. exists w. split; [reflexivity|].
  apply list_elem_of_In, filter_In. split; [now apply list_elem_of_In|].
  unfold is_sentinel in Hsen. apply andb_prop in Hsen as [Hlen _].
  apply Z.eqb_eq in Hlen. unfold nonempty_tok. now rewrite Hlen.
Qed.

End Words.

(** The amended statement on a part with one word and one URL exception. *)
Lemma extract_words_hashes_sample :
  exists t' p' ws' hs,
    rspamd_extract_words sample_flags sample_externals 0 url_words_task = Some (tt, t') /\
    text_parts t' !! 0%nat = Some p' /\
    normalized_words p' = Some ws' /\
    normalized_hashes p' = Some hs /\
    length ws' = length [sample_tok (bytes_of "Hello"); sentinel] /\
    hs = map (fun w => sample_hash w words_hash_seed) (List.filter nonempty_tok ws') /\
    forall w, w ∈ [sample_tok (bytes_of "Hello"); sentinel] -> is_sentinel w = true ->
      w ∈ ws' /\ sample_hash w words_hash_seed ∈ hs.
Proof.
  exact (extract_words_hashes sample_externals sample_flags 0 url_words_task
           (part_with_content (bytes_of "Hello") [mkEx 5 0 RSPAMD_EXCEPTION_URL])
           (bytes_of "Hello") [sample_tok (bytes_of "Hello"); sentinel]
           eq_refl eq_refl eq_refl).
Defined.

(** C5 as stated fails: the tokenizer marks a URL exception with the
    sentinel, and the hash of the sentinel is among the hashes of the part. *)
Lemma sentinel_is_hashed :
  exists t' p' hs,
    rspamd_extract_words sample_flags sample_externals 0 url_words_task = Some (tt, t') /\
    text_parts t' !! 0%nat = Some p' /\
    normalized_words p' = Some [sample_tok (bytes_of "hello"); sentinel] /\
    normalized_hashes p' = Some hs /\
    rspamd_cryptobox_fast_hash_specific sample_externals sentinel words_hash_seed ∈ hs.
Proof.
  eexists _, _, _. split; [vm_compute; reflexivity|]. split; [reflexivity|].
  split; [reflexivity|]. split; [reflexivity|].
  apply list_elem_of_lookup. exists 1%nat. reflexivity.
Qed.


(** ** Text parts *)

Lemma flag_set_lor (flags mask : Z) : flag_set (Z.lor flags mask) mask.
Proof.
  unfold flag_set. apply Z.bits_inj'. intros n _.
  rewrite Z.land_spec, Z.lor_spec. destruct (Z.testbit mask n), (Z.testbit flags n); reflexivity.
Qed.

Lemma flag_set_lor_l (flags mask mask' : Z) :
  flag_set flags mask -> flag_set (Z.lor flags mask') mask.
Proof.
  unfold flag_set. intros H. apply Z.bits_inj'. intros n _.
  apply (f_equal (fun z => Z.testbit z n)) in H.
  rewrite Z.land_spec in H. rewrite Z.land_spec, Z.lor_spec.
  destruct (Z.testbit mask n), (Z.testbit flags n), (Z.testbit mask' n);
    simpl in *; congruence.
Qed.

Section TextPart.

Variable K : flag_consts.
Variable X : externals.

Lemma IS_CT_TEXT_Some (o : option rspamd_content_type) :
  IS_CT_TEXT K o = true -> exists c, o = Some c.
Proof. destruct o; [eauto | discriminate]. Qed.

(** C10, as amended.  For a text-typed MIME part that is not skipped as
    an attachment and whose parsed data is empty,
    [rspamd_message_process_text_part] appends a text part flagged EMPTY,
    pointing back to the MIME part and without content, and changes nothing
    else: the MIME part keeps its flags and its payload, so it is not given
    the TEXT flag and is not linked to the text part. *)
Theorem empty_text_part_not_linked (i : nat) (t : rspamd_task) (m : rspamd_mime_part) :
  parts t !! i = Some m ->
  IS_CT_TEXT K (ct m) = true ->
  skipped_as_attachment t m = false ->
  parsed_data m = [] ->
  exists p,
    rspamd_message_process_text_part K X i t
      = Some (tt, set_text_parts (text_parts t ++ [p]) t) /\
    flag_set (tp_flags p) (RSPAMD_MIME_TEXT_PART_FLAG_EMPTY K) /\
    mime_part p = Some i /\
    content p = None /\
    parts (set_text_parts (text_parts t ++ [p]) t) !! i = Some m.
Proof.
  intros Hm Hct Hskip Hempty. apply IS_CT_TEXT_Some in Hct as [c Hc].
  unfold rspamd_message_process_text_part.
  rewrite (bind_eq _ _ _ _ _ (get_part_eq _ _ _ Hm)).
  unfold bind at 1. cbn beta iota delta [get].
  unfold skipped_as_attachment in Hskip. rewrite Hskip, Hc.
  unfold bind at 1. cbn beta iota delta [deref ret]. rewrite Hempty.
  cbn [length Z.of_nat Z.eqb].
  destruct (is_html_subtype X c).
  - exists (set_part_empty K (text_part_html_new K i m)).
    split; [reflexivity|]. split; [apply flag_set_lor|].
    split; [reflexivity|]. split; [reflexivity|]. exact Hm.
  - exists (set_part_empty K (text_part_plain_new i m)).
    split; [reflexivity|]. split; [apply flag_set_lor|].
    split; [reflexivity|]. split; [reflexivity|]. exact Hm.
Qed.

Lemma add_text_part_eq (p : rspamd_mime_text_part) (t : rspamd_task) :
  g_ptr_array_add_text_part p t
  = Some (length (text_parts t), set_text_parts (text_parts t ++ [p]) t).
Proof. reflexivity. Qed.

Lemma gtube_found_tests (c : list byte) :
  gtube_found c = true ->
  (sizeof_gtube_pattern <? Z.of_nat (length c)) = true /\
  (Z.of_nat (length c) <=? max_check_size) = true /\
  (rspamd_substring_search_twoway c (bytes_of gtube_pattern) =? -1) = false.
Proof.
  unfold gtube_found. rewrite !andb_true_iff, negb_true_iff. tauto.
Qed.

(** Lines 491-512 on a part in which the pattern is found: the pre-result
    is recorded and the part is left as it was. *)
Lemma process_text_part_linked_gtube (i k : nat) (t : rspamd_task)
    (m : rspamd_mime_part) (p : rspamd_mime_text_part) (c : list byte) :
  parts t !! i = Some m ->
  text_parts t !! k = Some p ->
  content p = Some c ->
  gtube_found c = true ->
  exists t',
    process_text_part_linked K X i k t = Some (tt, t') /\
    text_parts t' = text_parts t /\
    urls t' = urls t /\ emails t' = emails t /\
    pre_result t' = mkPre METRIC_ACTION_REJECT (Some "Gtube pattern") /\
    flag_set (task_flags t') (RSPAMD_TASK_FLAG_SKIP K) /\
    flag_set (task_flags t') (RSPAMD_TASK_FLAG_GTUBE K) /\
    symbols t' = symbols t ++ [(GTUBE_SYMBOL, 0%float)].
Proof.
  intros Hm Hp Hc Hg. apply gtube_found_tests in Hg as (H1 & H2 & H3).
  unfold process_text_part_linked.
  rewrite (bind_eq _ _ _ _ _ (update_part_eq _ _ _ _ Hm)).
  unfold rspamd_check_gtube.
  unfold bind at 1. cbv beta.
  rewrite (bind_eq _ _ _ _ _ (get_text_part_eq k (set_parts _ t) p Hp)).
  rewrite Hc. cbv zeta. rewrite H1, H2, H3. cbn [andb negb].
  unfold process_text_part_gtube, bind, modify, msg_info_task, log_msg, ret, get.
  cbn.
  match goal with |- context [rspamd_create_metric_result X ?s] =>
    destruct (rspamd_create_metric_result X s) end;
    (eexists; split; [reflexivity|]; cbn;
     repeat split; try reflexivity;
     [apply flag_set_lor_l, flag_set_lor | apply flag_set_lor]).
Qed.

(** C9.  When the pattern is found in the content of the text part built
    for a MIME part, [rspamd_message_process_text_part] records the
    pre-result and returns: the part appended to [text_parts] has no
    language, no stripped content, no newline positions, no words and no
    hashes, and its script and line count are as allocated.  No URL is
    extracted from its text and its exceptions are not sorted: for a part
    that is not HTML there is no exception and the URL sets of the task are
    untouched; for an HTML part the exceptions and the URL sets are those
    the HTML processor of lines 450-456 returned, in the order it returned
    them. *)
Theorem gtube_part_is_not_processed (i : nat) (t : rspamd_task)
    (m : rspamd_mime_part) (c0 : rspamd_content_type) :
  parts t !! i = Some m ->
  ct m = Some c0 ->
  skipped_as_attachment t m = false ->
  parsed_data m <> [] ->
  gtube_found (converted_content K X t i m c0) = true ->
  exists t' p,
    rspamd_message_process_text_part K X i t = Some (tt, t') /\
    text_parts t' = text_parts t ++ [p] /\
    content p = Some (converted_content K X t i m c0) /\
    language p = None /\ lang_code p = None /\ script p = 0%nat /\
    stripped_content p = None /\ newlines p = None /\ nlines p = 0 /\
    normalized_words p = None /\ normalized_hashes p = None /\
    (is_html_subtype X c0 = false ->
       exceptions p = [] /\ urls t' = urls t /\ emails t' = emails t) /\
    (is_html_subtype X c0 = true ->
       exceptions p = hr_exceptions (html_processed K X t i m) /\
       urls t' = hr_urls (html_processed K X t i m) /\
       emails t' = hr_emails (html_processed K X t i m)) /\
    pre_result t' = mkPre METRIC_ACTION_REJECT (Some "Gtube pattern") /\
    flag_set (task_flags t') (RSPAMD_TASK_FLAG_SKIP K) /\
    flag_set (task_flags t') (RSPAMD_TASK_FLAG_GTUBE K) /\
    symbols t' = symbols t ++ [(GTUBE_SYMBOL, 0%float)].
Proof.
  intros Hm Hc Hskip Hne Hg.
  assert (Hlen : (Z.of_nat (length (parsed_data m)) =? 0) = false).
  { apply Z.eqb_neq. destruct (parsed_data m); [congruence | simpl; lia]. }
  unfold rspamd_message_process_text_part.
  rewrite (bind_eq _ _ _ _ _ (get_part_eq _ _ _ Hm)).
  unfold bind at 1. cbn beta iota delta [get].
  unfold skipped_as_attachment in Hskip. rewrite Hskip, Hc.
  unfold bind at 1. cbn beta iota delta [deref ret]. rewrite Hlen.
  unfold converted_content, html_processed in *.
  destruct (is_html_subtype X c0) eqn:Hh.
  - destruct (rspamd_mime_text_part_maybe_convert X t (text_part_html_new K i m))
      as [pc fl] eqn:Hconv. cbn [fst] in *.
    unfold bind at 1. cbn beta iota delta [modify].
    change (exceptions (set_tp_flags _ (set_tp_flags fl (text_part_html_new K i m))))
      with (@nil rspamd_process_exception).
    clear Hlen.
    set (res := rspamd_html_process_part_full X pc [] (urls t) (emails t)) in *.
    match goal with |- context [bind (g_ptr_array_add_text_part ?tp) _ ?s] =>
      set (p := tp); set (t1 := s) end.
    rewrite (bind_eq _ _ _ _ _ (add_text_part_eq p t1)).
    assert (Hcp : content p = Some (hr_content res)).
    { subst p. destruct (_ =? 0); reflexivity. }
    destruct (process_text_part_linked_gtube i (length (text_parts t1))
                (set_text_parts (text_parts t1 ++ [p]) t1) m p _ Hm
                (list_lookup_middle _ _ _ _ eq_refl) Hcp Hg)
      as (t' & Hrun & Htp & Hu & He & Hpre & Hs & Hgt & Hsym).
    exists t', p. split; [exact Hrun|]. split; [exact Htp|]. split; [exact Hcp|].
    subst p. repeat split; try (destruct (_ =? 0); reflexivity); try assumption.
    all: discriminate.
  - destruct (rspamd_mime_text_part_maybe_convert X t (text_part_plain_new i m))
      as [pc fl] eqn:Hconv. cbn [fst] in *.
    match goal with |- context [g_ptr_array_add_text_part ?tp] => set (p := tp) end.
    rewrite (bind_eq _ _ _ _ _ (add_text_part_eq p t)).
    destruct (process_text_part_linked_gtube i (length (text_parts t))
                (set_text_parts (text_parts t ++ [p]) t) m p pc Hm
                (list_lookup_middle _ _ _ _ eq_refl) eq_refl Hg)
      as (t' & Hrun & Htp & Hu & He & Hpre & Hs & Hgt & Hsym).
    exists t', p. split; [exact Hrun|]. split; [exact Htp|].
    repeat split; try reflexivity; try assumption; discriminate.
Qed.

End TextPart.

(** The amended statement on an empty inline text/plain part. *)
Lemma empty_text_part_not_linked_sample :
  exists p,
    rspamd_message_process_text_part sample_flags sample_externals 0 empty_part_task
      = Some (tt, set_text_parts (text_parts empty_part_task ++ [p]) empty_part_task) /\
    flag_set (tp_flags p) (RSPAMD_MIME_TEXT_PART_FLAG_EMPTY sample_flags) /\
    mime_part p = Some 0%nat /\
    content p = None /\
    parts (set_text_parts (text_parts empty_part_task ++ [p]) empty_part_task) !! 0%nat
      = Some (mkPart (Some (sample_ct "text" "plain" 4)) None
                     [] [] None 0 None (fun _ => None) []).
Proof.
  exact (empty_text_part_not_linked sample_flags sample_externals 0 empty_part_task _
           eq_refl eq_refl eq_refl eq_refl).
Defined.

(** C10 as stated fails: an empty text/plain part sent as an attachment,
    under a configuration that does not check text attachments, gets no text
    part at all. *)
Lemma empty_attachment_gets_no_text_part :
  exists m t',
    parts attachment_task !! 0%nat = Some m /\
    IS_CT_TEXT sample_flags (ct m) = true /\
    parsed_data m = [] /\
    rspamd_message_process_text_part sample_flags sample_externals 0 attachment_task
      = Some (tt, t') /\
    text_parts t' = [].
Proof.
  eexists _, _. split; [reflexivity|]. split; [reflexivity|]. split; [reflexivity|].
  split; [vm_compute; reflexivity|]. reflexivity.
Qed.

(** C9 on a text/plain part holding the pattern in a sentence. *)
Lemma gtube_part_is_not_processed_sample :
  exists t' p,
    rspamd_message_process_text_part sample_flags sample_externals 0 gtube_task
      = Some (tt, t') /\
    text_parts t' = text_parts gtube_task ++ [p] /\
    content p = Some gtube_sentence /\
    language p = None /\ lang_code p = None /\ script p = 0%nat /\
    stripped_content p = None /\ newlines p = None /\ nlines p = 0 /\
    normalized_words p = None /\ normalized_hashes p = None /\
    (is_html_subtype sample_externals (sample_ct "text" "plain" 4) = false ->
       exceptions p = [] /\ urls t' = urls gtube_task /\ emails t' = emails gtube_task) /\
    (is_html_subtype sample_externals (sample_ct "text" "plain" 4) = true ->
       exceptions p = hr_exceptions (html_processed sample_flags sample_externals gtube_task
                                       0 (sample_leaf gtube_sentence)) /\
       urls t' = hr_urls (html_processed sample_flags sample_externals gtube_task
                            0 (sample_leaf gtube_sentence)) /\
       emails t' = hr_emails (html_processed sample_flags sample_externals gtube_task
                                0 (sample_leaf gtube_sentence))) /\
    pre_result t' = mkPre METRIC_ACTION_REJECT (Some "Gtube pattern") /\
    flag_set (task_flags t') (RSPAMD_TASK_FLAG_SKIP sample_flags) /\
    flag_set (task_flags t') (RSPAMD_TASK_FLAG_GTUBE sample_flags) /\
    symbols t' = symbols gtube_task ++ [(GTUBE_SYMBOL, 0%float)].
Proof.
  apply (gtube_part_is_not_processed sample_flags sample_externals 0 gtube_task
           (sample_leaf gtube_sentence) (sample_ct "text" "plain" 4)).
  - reflexivity.
  - reflexivity.
  - reflexivity.
  - discriminate.
  - vm_compute. reflexivity.
Defined.

(** ** The window of the message *)

Lemma skip_spaces_split (p : list byte) :
  exists ws, p = ws ++ skip_spaces p /\ Forall is_space ws.
Proof.
  induction p as [|c p (ws & Hp & Hws)]; [exists []; split; [reflexivity | constructor]|].
  simpl. destruct (g_ascii_isspace c) eqn:E.
  - exists (c :: ws). split; [simpl; congruence | now constructor].
  - exists []. split; [reflexivity | constructor].
Qed.

Lemma skip_spaces_trimmed (p : list byte) : trimmed (skip_spaces p).
Proof.
  induction p as [|c p IH]; [exact I|].
  simpl. destruct (g_ascii_isspace c) eqn:E; [exact IH | exact E].
Qed.

Lemma skip_line_split (p : list byte) :
  exists line, p = line ++ skip_line p /\ (x0a ∉ line) /\
    (match skip_line p with [] => True | c :: _ => c = x0a end).
Proof.
  induction p as [|c p (line & Hp & Hline & Hhd)].
  - exists []. split; [reflexivity|]. split; [apply not_elem_of_nil | exact I].
  - simpl. destruct (Byte.eqb c x0a) eqn:E.
    + exists []. split; [reflexivity|]. split; [apply not_elem_of_nil|].
      now apply Byte.byte_dec_bl.
    + exists (c :: line). split; [simpl; congruence|]. split; [|exact Hhd].
      intros [Heq|H]%elem_of_cons; [subst c; discriminate E | contradiction].
Qed.

(** After the envelope line: the white space skipped begins with the line
    feed, unless the input ended. *)
Lemma skip_envelope_split (rest : list byte) :
  exists line ws,
    rest = line ++ ws ++ skip_spaces (skip_line rest) /\
    (x0a ∉ line) /\ Forall is_space ws /\
    (match ws with [] => skip_spaces (skip_line rest) = [] | c :: _ => c = x0a end).
Proof.
  destruct (skip_line_split rest) as (line & Hrest & Hline & Hhd).
  destruct (skip_spaces_split (skip_line rest)) as (ws & Hsp & Hws).
  exists line, ws. split; [congruence|]. split; [exact Hline|]. split; [exact Hws|].
  destruct (skip_line rest) as [|c r] eqn:E.
  - destruct ws; [reflexivity | discriminate Hsp].
  - subst c. destruct ws as [|c ws].
    + pose proof (skip_spaces_trimmed (x0a :: r)) as Htr.
      cbn [app] in Hsp. rewrite <- Hsp in Htr. discriminate Htr.
    + injection Hsp as <- _. reflexivity.
Qed.

Lemma mailbox_input_spec (K : flag_consts) (t : rspamd_task) (p : list byte) :
  mailbox_input K t p = true <->
  (has_flag (task_flags t) (RSPAMD_TASK_FLAG_JSON K) = false \/
   has_flag (task_flags t) (RSPAMD_TASK_FLAG_LOCAL_CLIENT K) = true) /\
  5 < Z.of_nat (length p) /\
  exists rest, p = bytes_of "From " ++ rest.
Proof.
  unfold mailbox_input.
  rewrite !andb_true_iff, orb_true_iff, negb_true_iff, Z.ltb_lt, memcmp_eq_prefix.
  change (sizeof_From - 1) with 5. tauto.
Qed.

Section Window.

Variable K : flag_consts.
Variable X : externals.

(** C8, as amended.  For a task that is not flagged empty,
    [rspamd_message_parse] first cuts the message down to a window and parses
    that: leading white space is dropped; then, unless the task is flagged
    JSON without the local-client flag, if MORE THAN FIVE bytes remain and
    they begin with "From ", the window moves past the envelope line (up to
    the next line feed, or to the end) and past the white space that
    follows.  In every other case the window stays where the white space
    ended.  The pointer of the window is NULL exactly when the pointer of
    the message is. *)
Theorem message_window_is_trimmed (t : rspamd_task) :
  RSPAMD_TASK_IS_EMPTY K t = false ->
  exists p0 p t0,
    message_parse_start K t = Some (p, t0) /\
    msg t0 = p /\
    (p = None <-> msg t = None) /\
    rspamd_message_parse K X t =
      (ok <- message_parse_mime K X p ;;
       if ok then message_parse_rest K X (rspamd_cryptobox_hash_init X) else ret false) t0 /\
    (exists ws, msg_bytes (msg t) = ws ++ p0 /\ Forall is_space ws) /\
    trimmed p0 /\
    (mailbox_input K t p0 = true <->
       (has_flag (task_flags t) (RSPAMD_TASK_FLAG_JSON K) = false \/
        has_flag (task_flags t) (RSPAMD_TASK_FLAG_LOCAL_CLIENT K) = true) /\
       5 < Z.of_nat (length p0) /\
       exists rest, p0 = bytes_of "From " ++ rest) /\
    (if mailbox_input K t p0 then
       exists line ws,
         p0 = bytes_of "From " ++ line ++ ws ++ msg_bytes p /\
         (x0a ∉ line) /\ Forall is_space ws /\ trimmed (msg_bytes p) /\
         (match ws with [] => msg_bytes p = [] | c :: _ => c = x0a end)
     else msg_bytes p = p0).
Proof.
  intros Hne.
  set (p0 := skip_spaces (msg_bytes (msg t))).
  assert (Hstart : exists p t0, message_parse_start K t = Some (p, t0) /\
            msg t0 = p /\ (p = None <-> msg t = None) /\
            msg_bytes p = if mailbox_input K t p0
                          then skip_spaces (skip_line (drop (Z.to_nat (sizeof_From - 1)) p0))
                          else p0).
  { unfold message_parse_start, bind. cbn [get]. subst p0.
    destruct (msg t) as [m|]; cbn [msg_bytes].
    - destruct (mailbox_input K t (skip_spaces m)); eexists _, _; (split; [reflexivity|]);
        (split; [reflexivity|]); (split; [split; discriminate | reflexivity]).
    - eexists _, _. split; [reflexivity|]. split; [reflexivity|].
      split; [split; reflexivity|].
      unfold mailbox_input. cbn [skip_spaces length].
      change (sizeof_From - 1 <? Z.of_nat 0) with false.
      now rewrite andb_false_r. }
  destruct Hstart as (p & t0 & Hstart & Hmsg & Hnull & Hp).
  exists p0, p, t0. split; [exact Hstart|]. split; [exact Hmsg|]. split; [exact Hnull|].
  split.
  { unfold rspamd_message_parse. unfold bind at 1. cbn [get]. rewrite Hne.
    unfold bind at 1. rewrite Hstart. reflexivity. }
  split; [apply skip_spaces_split|]. split; [apply skip_spaces_trimmed|].
  split; [apply mailbox_input_spec|].
  destruct (mailbox_input K t p0) eqn:Hmb; [|exact Hp].
  apply mailbox_input_spec in Hmb as (_ & _ & rest & Hrest).
  rewrite Hrest in Hp. change (Z.to_nat (sizeof_From - 1)) with (length (bytes_of "From ")) in Hp.
  rewrite drop_app_length in Hp.
  destruct (skip_envelope_split rest) as (line & ws & Hsplit & Hline & Hws & Hhd).
  exists line, ws. rewrite Hp. split; [rewrite Hrest; congruence|].
  split; [exact Hline|]. split; [exact Hws|]. split; [apply skip_spaces_trimmed | exact Hhd].
Qed.

End Window.

(** The amended statement on a message behind a mailbox envelope line. *)
Lemma message_window_is_trimmed_sample :
  exists p0 p t0,
    message_parse_start sample_flags mailbox_task = Some (p, t0) /\
    msg t0 = p /\
    (p = None <-> msg mailbox_task = None) /\
    rspamd_message_parse sample_flags sample_externals mailbox_task =
      (ok <- message_parse_mime sample_flags sample_externals p ;;
       if ok then message_parse_rest sample_flags sample_externals
                    (rspamd_cryptobox_hash_init sample_externals)
       else ret false) t0 /\
    (exists ws, msg_bytes (msg mailbox_task) = ws ++ p0 /\ Forall is_space ws) /\
    trimmed p0 /\
    (mailbox_input sample_flags mailbox_task p0 = true <->
       (has_flag (task_flags mailbox_task) (RSPAMD_TASK_FLAG_JSON sample_flags) = false \/
        has_flag (task_flags mailbox_task) (RSPAMD_TASK_FLAG_LOCAL_CLIENT sample_flags) = true) /\
       5 < Z.of_nat (length p0) /\
       exists rest, p0 = bytes_of "From " ++ rest) /\
    (if mailbox_input sample_flags mailbox_task p0 then
       exists line ws,
         p0 = bytes_of "From " ++ line ++ ws ++ msg_bytes p /\
         (x0a ∉ line) /\ Forall is_space ws /\ trimmed (msg_bytes p) /\
         (match ws with [] => msg_bytes p = [] | c :: _ => c = x0a end)
     else msg_bytes p = p0).
Proof.
  apply (message_window_is_trimmed sample_flags sample_externals mailbox_task).
  reflexivity.
Defined.

(** C8 as stated fails at the boundary: a message that is "From " and
    nothing else begins with these bytes and is not flagged JSON, yet the
    window stays on it, where skipping the envelope line leaves nothing. *)
Lemma bare_from_is_not_skipped :
  exists t0,
    message_parse_start sample_flags from_only_task = Some (Some (bytes_of "From "), t0) /\
    msg t0 = Some (bytes_of "From ") /\
    has_flag (task_flags from_only_task) (RSPAMD_TASK_FLAG_JSON sample_flags) = false /\
    skip_spaces (msg_bytes (msg from_only_task)) = bytes_of "From " ++ [] /\
    skip_spaces (skip_line (drop 5 (skip_spaces (msg_bytes (msg from_only_task))))) = [].
Proof.
  eexists. split; [vm_compute; reflexivity|]. repeat split.
Qed.

(** ** The distance of two parts *)

Section Distance.

Variable K : flag_consts.
Variable X : externals.

Lemma total_words_eq (h1 h2 : list Z) :
  Z.of_nat (length h1 + length h2) < 2 ^ 32 ->
  guint (guint (Z.of_nat (length h1)) + guint (Z.of_nat (length h2)))
  = Z.of_nat (length h1 + length h2).
Proof.
  intros H. change (2 ^ 32) with 4294967296 in H.
  rewrite (guint_small (Z.of_nat (length h1))), (guint_small (Z.of_nat (length h2))),
    guint_small; change (2 ^ 32) with 4294967296; lia.
Qed.

(** Lines 881-896: for a qualifying pair the stage comes down to the
    computation of lines 897-925. *)
Lemma distance_of_alternative_pair (t : rspamd_task) (h1 h2 : list Z) :
  alternative_pair K X t h1 h2 ->
  message_parse_distance K X t = message_parse_publish_distance h1 h2 t.
Proof.
  intros (p1 & p2 & i1 & i2 & m1 & m2 & q & par & c & Htp & Hp1 & Hm1 & Hp2 & Hm2 &
          Hq1 & Hq2 & Hpar & Hct & Hcmp & He1 & He2 & Hh1 & Hh2).
  unfold message_parse_distance. unfold bind at 1. cbn [get]. rewrite Htp, Hp1.
  unfold bind at 1. cbn [deref ret].
  rewrite (bind_eq _ _ _ _ _ (get_part_eq _ _ _ Hm1)), Hq1, Hp2.
  unfold bind at 1. cbn [deref ret].
  rewrite (bind_eq _ _ _ _ _ (get_part_eq _ _ _ Hm2)), Hq2.
  rewrite bool_decide_eq_true_2 by reflexivity.
  rewrite (bind_eq _ _ _ _ _ (get_part_eq _ _ _ Hpar)), Hct.
  unfold bind at 1. cbn [deref ret].
  rewrite Hcmp, He1, He2, Hh1, Hh2. reflexivity.
Qed.

(** C3, as amended.  For a qualifying pair with at least one word the
    stage publishes two pool variables and no other: [parts_distance], the
    ratio of the distance to the number of words as a double, and
    [total_words], the NUMBER OF WORDS |s1|+|s2| as an integer.  The raw
    distance is not published on its own. *)
Theorem distance_publishes_ratio_and_total (t : rspamd_task) (h1 h2 : list Z) :
  alternative_pair K X t h1 h2 ->
  0 < Z.of_nat (length h1 + length h2) < 2 ^ 32 ->
  exists dw t1 t',
    rspamd_words_levenshtein_distance h1 h2 t = Some (dw, t1) /\
    message_parse_distance K X t = Some (tt, t') /\
    pool_variables t' =
      <["total_words" := VUInt (Z.of_nat (length h1 + length h2))]>
        (<["parts_distance" := VDouble (ratio dw (Z.of_nat (length h1 + length h2)))]>
           (pool_variables t)).
Proof.
  intros Hpair Htw. rewrite (distance_of_alternative_pair t h1 h2 Hpair).
  unfold message_parse_publish_distance. rewrite total_words_eq by apply Htw.
  destruct (0 <? Z.of_nat (length h1 + length h2)) eqn:E; [|apply Z.ltb_ge in E; lia].
  assert (Hlev : exists dw t1, rspamd_words_levenshtein_distance h1 h2 t = Some (dw, t1) /\
                               pool_variables t1 = pool_variables t).
  { unfold rspamd_words_levenshtein_distance.
    destruct (max_words <? _); eexists _, _; split; reflexivity. }
  destruct Hlev as (dw & t1 & Hlev & Hvars).
  exists dw, t1. rewrite (bind_eq _ _ _ _ _ Hlev).
  eexists. split; [exact Hlev|]. split; [reflexivity|].
  cbn. rewrite Hvars. reflexivity.
Qed.

(** C2, as amended.  For a qualifying pair of more than 8192 words the
    distance is not computed: [rspamd_words_levenshtein_distance] logs an
    ERROR and returns 0, and the caller goes on to publish [parts_distance]
    as 0 / (|s1|+|s2|) and [total_words] like for any other pair. *)
Theorem oversized_pair_publishes_zero (t : rspamd_task) (h1 h2 : list Z) :
  alternative_pair K X t h1 h2 ->
  max_words < Z.of_nat (length h1 + length h2) < 2 ^ 32 ->
  exists t',
    rspamd_words_levenshtein_distance h1 h2 t
      = Some (0, set_log (log t ++
                 [mkLog LOG_ERR "cannot compare parts with more than %ud words: %ud"]) t) /\
    message_parse_distance K X t = Some (tt, t') /\
    log t' = log t ++
      [mkLog LOG_ERR "cannot compare parts with more than %ud words: %ud";
       mkLog LOG_DEBUG
         "different words: %d, total words: %d, got diff between parts of %.2f"] /\
    pool_variables t' =
      <["total_words" := VUInt (Z.of_nat (length h1 + length h2))]>
        (<["parts_distance" := VDouble (ratio 0 (Z.of_nat (length h1 + length h2)))]>
           (pool_variables t)).
Proof.
  intros Hpair Htw. rewrite (distance_of_alternative_pair t h1 h2 Hpair).
  unfold message_parse_publish_distance. rewrite total_words_eq by apply Htw.
  unfold max_words in Htw.
  destruct (0 <? Z.of_nat (length h1 + length h2)) eqn:E; [|apply Z.ltb_ge in E; lia].
  assert (Hlev : rspamd_words_levenshtein_distance h1 h2 t
      = Some (0, set_log (log t ++
                 [mkLog LOG_ERR "cannot compare parts with more than %ud words: %ud"]) t)).
  { unfold rspamd_words_levenshtein_distance. rewrite total_words_eq by apply Htw.
    destruct (max_words <? _) eqn:E'; [reflexivity|].
    apply Z.ltb_ge in E'. unfold max_words in E'. lia. }
  rewrite (bind_eq _ _ _ _ _ Hlev).
  eexists. split; [exact Hlev|]. split; [reflexivity|]. split.
  - cbn. now rewrite <- app_assoc.
  - reflexivity.
Qed.

End Distance.

(** The two sample parts qualify, whatever their hashes. *)
Lemma alternative_pair_sample (h1 h2 : list Z) :
  alternative_pair sample_flags sample_externals (two_part_task h1 h2) h1 h2.
Proof.
  exists (hashed_part 1 h1), (hashed_part 2 h2), 1%nat, 2%nat,
    (sample_leaf (bytes_of "x")), (sample_leaf (bytes_of "x")), 0%nat,
    (mkPart (Some (sample_ct "multipart" "alternative" 2)) None [] []
            None 0 None (fun _ => None) []),
    (sample_ct "multipart" "alternative" 2).
  repeat split.
Qed.

(** The amended statement on parts of 8192 words and of one word. *)
Lemma oversized_pair_publishes_zero_sample :
  exists t',
    rspamd_words_levenshtein_distance (replicate (Z.to_nat 8192) 7) [7] oversized_task
      = Some (0, set_log (log oversized_task ++
                 [mkLog LOG_ERR "cannot compare parts with more than %ud words: %ud"])
                 oversized_task) /\
    message_parse_distance sample_flags sample_externals oversized_task = Some (tt, t') /\
    log t' = log oversized_task ++
      [mkLog LOG_ERR "cannot compare parts with more than %ud words: %ud";
       mkLog LOG_DEBUG
         "different words: %d, total words: %d, got diff between parts of %.2f"] /\
    pool_variables t' =
      <["total_words" := VUInt (Z.of_nat (length (replicate (Z.to_nat 8192) 7) + length [7]))]>
        (<["parts_distance" :=
             VDouble (ratio 0 (Z.of_nat (length (replicate (Z.to_nat 8192) 7) + length [7])))]>
           (pool_variables oversized_task)).
Proof.
  apply (oversized_pair_publishes_zero sample_flags sample_externals oversized_task
           (replicate (Z.to_nat 8192) 7) [7]).
  - apply alternative_pair_sample.
  - vm_compute. split; reflexivity.
Defined.

(** C2 as stated fails: for 8193 words the variable [parts_distance] is
    set, to 0, and nothing is logged at warning level. *)
Lemma oversized_pair_gets_a_distance :
  alternative_pair sample_flags sample_externals oversized_task (replicate (Z.to_nat 8192) 7) [7] /\
  exists t',
    message_parse_distance sample_flags sample_externals oversized_task = Some (tt, t') /\
    pool_variables t' !! "parts_distance" = Some (VDouble 0%float) /\
    Forall (fun r => log_lvl r <> LOG_WARN) (log t').
Proof.
  split; [apply alternative_pair_sample|].
  eexists. split; [vm_compute; reflexivity|]. split; [vm_compute; reflexivity|].
  repeat constructor; discriminate.
Qed.

(** The amended statement on two parts of three words. *)
Lemma distance_publishes_ratio_and_total_sample :
  exists dw t1 t',
    rspamd_words_levenshtein_distance [1; 2; 3] [1; 2; 4] (two_part_task [1; 2; 3] [1; 2; 4])
      = Some (dw, t1) /\
    message_parse_distance sample_flags sample_externals (two_part_task [1; 2; 3] [1; 2; 4])
      = Some (tt, t') /\
    pool_variables t' =
      <["total_words" := VUInt (Z.of_nat (length [1; 2; 3] + length [1; 2; 4]))]>
        (<["parts_distance" :=
             VDouble (ratio dw (Z.of_nat (length [1; 2; 3] + length [1; 2; 4])))]>
           (pool_variables (two_part_task [1; 2; 3] [1; 2; 4]))).
Proof.
  apply (distance_publishes_ratio_and_total sample_flags sample_externals
           (two_part_task [1; 2; 3] [1; 2; 4]) [1; 2; 3] [1; 2; 4]).
  - apply alternative_pair_sample.
  - vm_compute. split; reflexivity.
Defined.

(** C3 as stated fails: the message of the specification's scenario (three
    words in each alternative, one of them replaced) is parsed, its parts
    qualify and are at distance 2, and the variables published are the ratio
    2/6 and the total 6; no variable holds the raw distance 2. *)
Lemma raw_distance_is_not_published :
  exists t' h1 h2,
    rspamd_message_parse sample_flags sample_externals hello_task = Some (true, t') /\
    alternative_pair sample_flags sample_externals t' h1 h2 /\
    rspamd_words_levenshtein_distance h1 h2 t' = Some (2, t') /\
    pool_variables t' =
      <["total_words" := VUInt 6]>
        (<["parts_distance" := VDouble 0x1.5555555555555p-2%float]> ∅) /\
    forall k, pool_variables t' !! k <> Some (VUInt 2).
Proof.
  eexists _, _, _. split; [vm_compute; reflexivity|].
  split.
  { eexists _, _, _, _, _, _, _, _, _. repeat split; reflexivity. }
  split; [vm_compute; reflexivity|].
  assert (Hvars : forall (d : float) (v : gmap string pool_value),
            v = <["total_words" := VUInt 6]> (<["parts_distance" := VDouble d]> ∅) ->
            forall k, v !! k <> Some (VUInt 2)).
  { intros d v -> k.
    destruct (decide (k = "total_words")) as [->|Hk].
    - rewrite lookup_insert_eq. discriminate.
    - rewrite lookup_insert_ne by congruence.
      destruct (decide (k = "parts_distance")) as [->|Hk'].
      + rewrite lookup_insert_eq. discriminate.
      + rewrite lookup_insert_ne by congruence. rewrite lookup_empty. discriminate. }
  split; [vm_compute; reflexivity|].
  apply (Hvars 0x1.5555555555555p-2%float). vm_compute. reflexivity.
Qed.

(** ** Frames of the stages *)

Lemma same_links_refl (t : rspamd_task) : same_links t t.
Proof. repeat split. Qed.

Lemma same_links_trans (t1 t2 t3 : rspamd_task) :
  same_links t1 t2 -> same_links t2 t3 -> same_links t1 t3.
Proof.
  intros (A1 & A2 & A3 & A4) (B1 & B2 & B3 & B4). repeat split; congruence.
Qed.

Lemma same_links_grown (t t' : rspamd_task) : same_links t t' -> grown_links t t'.
Proof.
  intros (A1 & A2 & A3 & A4). repeat split; try assumption.
  exists []. split; [now rewrite app_nil_r | constructor].
Qed.

Lemma grown_links_trans (t1 t2 t3 : rspamd_task) :
  grown_links t1 t2 -> grown_links t2 t3 -> grown_links t1 t3.
Proof.
  intros (A1 & A2 & A3 & n1 & A4 & A5) (B1 & B2 & B3 & n2 & B4 & B5).
  repeat split; try congruence.
  exists (n1 ++ n2). split.
  - rewrite B4, A4, map_app. now rewrite <- app_assoc.
  - apply Forall_app. split; [exact A5|].
    assert (Hlen : length (parts t2) = length (parts t1)).
    { rewrite <- (length_map part_link (parts t2)), A3. apply length_map. }
    now rewrite <- Hlen.
Qed.

Ltac hstep :=
  lazymatch goal with
  | |- hoare _ (bind _ _) _ _ => apply hoare_bind
  | |- hoare _ get _ _ => apply hoare_get
  | |- hoare _ (modify _) _ _ => apply hoare_modify
  | |- hoare _ (ret _) _ _ => apply hoare_ret
  | |- hoare _ (log_msg _ _) _ _ => apply hoare_log
  | |- hoare _ (msg_err_task _) _ _ => apply hoare_log
  | |- hoare _ (msg_warn_task _) _ _ => apply hoare_log
  | |- hoare _ (msg_info_task _) _ _ => apply hoare_log
  | |- hoare _ (msg_debug_task _) _ _ => apply hoare_log
  | |- hoare _ (debug_task _) _ _ => apply hoare_log
  | |- hoare _ (match ?x with _ => _ end) _ _ => destruct x eqn:?
  end.

Ltac links :=
  unfold same_links in *; cbn; intuition (try congruence).

Lemma hoare_foreach {A} (d : Prop) (R : rspamd_task -> Prop) (l : list A)
    (body : nat -> A -> M unit) (i : nat) (t : rspamd_task) :
  (forall j a t, R t -> hoare d (body j a) (fun _ t' => R t') t) ->
  R t -> hoare d (ptr_array_foreach i l body) (fun _ t' => R t') t.
Proof.
  intros Hbody. revert i t. induction l as [|a l IH]; intros i t HR; simpl.
  - exact HR.
  - apply hoare_bind. eapply hoare_mono; [|apply Hbody, HR].
    intros u t' HR'. apply IH, HR'.
Qed.

Section Frames.

Variable K : flag_consts.
Variable X : externals.
Variable d : Prop.

Lemma subject_same_links (t0 t : rspamd_task) :
  d \/ header_array_ok (raw_headers t) "Subject" = true ->
  same_links t0 t ->
  hoare d (message_parse_subject) (fun _ t' => same_links t0 t') t.
Proof.
  intros Hsafe H0. unfold message_parse_subject.
  hstep. hstep. hstep. hstep.
  - repeat hstep; links.
  - hstep.
    + hstep. apply hoare_deref.
      destruct (l !! 0%nat) eqn:El.
      * repeat hstep; links.
      * destruct Hsafe as [Hd|Hok]; [exact Hd|].
        unfold header_array_ok in Hok.
        unfold rspamd_message_get_header_array, rspamd_message_get_header_from_hash in *.
        cbn in *. destruct (raw_headers t "Subject") as [[|]|]; try discriminate.
        all: injection Heqo0 as <-; discriminate.
    + repeat hstep; links.
Qed.

Lemma received_same_links (t0 t : rspamd_task) :
  same_links t0 t ->
  hoare d (message_parse_received K X) (fun _ t' => same_links t0 t') t.
Proof.
  intros H0. unfold message_parse_received.
  hstep. hstep. hstep.
  eapply hoare_mono with (Q := fun _ t' => same_links t0 t').
  - intros u t' H'. cbv beta. repeat hstep; links.
  - hstep.
    + apply hoare_foreach; [|exact H0].
      clear. intros j rh t H0. unfold message_parse_received_header.
      repeat hstep; links.
    + hstep. exact H0.
Qed.

Lemma envelope_same_links (t0 t : rspamd_task) :
  same_links t0 t ->
  hoare d (message_parse_envelope X) (fun _ t' => same_links t0 t') t.
Proof.
  intros H0. unfold message_parse_envelope.
  hstep. hstep. hstep.
  eapply hoare_mono with (Q := fun _ t' => same_links t0 t').
  2:{ repeat hstep; links. }
  intros u1 t1 H1. cbv beta. hstep.
  eapply hoare_mono with (Q := fun _ t' => same_links t0 t').
  2:{ repeat hstep; links. }
  intros u2 t2 H2. cbv beta. hstep. hstep. hstep.
  eapply hoare_mono with (Q := fun _ t' => same_links t0 t').
  2:{ apply hoare_foreach; [|links].
      intros j to_hdr t3 H3. hstep.
      - apply hoare_foreach; [|exact H3].
        intros j' rh t4 H4. repeat hstep; links.
      - hstep. exact H3. }
  intros u3 t3 H3. cbv beta. repeat hstep; links.
Qed.

Lemma subject_urls_same_links (t0 t : rspamd_task) :
  same_links t0 t ->
  hoare d (message_parse_subject_urls X) (fun _ t' => same_links t0 t') t.
Proof.
  intros H0. unfold message_parse_subject_urls.
  hstep. hstep. hstep.
  - apply hoare_foreach; [|exact H0].
    intros j rh t1 H1. repeat hstep; links.
  - hstep. exact H0.
Qed.

Lemma digest_same_links (st : list byte) (t0 t : rspamd_task) :
  same_links t0 t ->
  hoare d (message_parse_digest X st) (fun _ t' => same_links t0 t') t.
Proof.
  intros H0. unfold message_parse_digest. repeat hstep; links.
Qed.

Lemma images_archives_same_links (t0 t : rspamd_task) :
  same_links t0 t ->
  hoare d (message_parse_images_archives X) (fun _ t' => same_links t0 t') t.
Proof.
  intros H0. unfold message_parse_images_archives. repeat hstep.
  unfold same_links in *. cbn. rewrite !map_map. cbn. intuition.
Qed.

Lemma message_id_stage (t : rspamd_task) :
  d \/ header_array_ok (raw_headers t) "Message-ID" = true ->
  hoare d message_parse_message_id
    (fun _ t' => message_id t' = Some (message_id_after t) /\
                 raw_headers t' = raw_headers t /\
                 parts t' = parts t /\ text_parts t' = text_parts t) t.
Proof.
  intros Hsafe. unfold message_id_after, hoare, message_parse_message_id, bind.
  cbn [get]. unfold header_array_ok in Hsafe.
  unfold rspamd_message_get_header_array, rspamd_message_get_header_from_hash in *.
  cbn [andb] in *.
  destruct (raw_headers t "Message-ID") as [[|rh l]|]; cbn.
  - destruct Hsafe as [Hd|Hok]; [exact Hd | discriminate Hok].
  - repeat split.
  - destruct (message_id t) eqn:E; cbn; rewrite ?E; repeat split.
Qed.

Lemma well_linked_text_part (t : rspamd_task) (p : rspamd_mime_text_part) :
  well_linked t = true -> p ∈ text_parts t ->
  exists i m, mime_part p = Some i /\ parts t !! i = Some m.
Proof.
  unfold well_linked. rewrite !andb_true_iff. intros [[[_ Htp] _] _] Hin.
  rewrite forallb_forall in Htp.
  specialize (Htp (mime_part p)).
  assert (Hin' : In (mime_part p) (map mime_part (text_parts t))).
  { apply in_map, list_elem_of_In, Hin. }
  apply Htp in Hin'. unfold text_link_ok in Hin'.
  destruct (mime_part p) as [i|]; [|discriminate].
  apply Nat.ltb_lt in Hin'. rewrite length_map in Hin'.
  destruct (lookup_lt_is_Some_2 (parts t) i Hin') as [m Hm]. eauto.
Qed.

Lemma well_linked_parent (t : rspamd_task) (i q : nat) (m : rspamd_mime_part) :
  well_linked t = true -> parts t !! i = Some m -> parent_part m = Some q ->
  exists par c, parts t !! q = Some par /\ ct par = Some c.
Proof.
  unfold well_linked. rewrite !andb_true_iff. intros [[[Hps _] _] _] Hm Hq.
  rewrite forallb_forall in Hps.
  specialize (Hps (part_link m)).
  assert (Hin : In (part_link m) (map part_link (parts t))).
  { apply in_map, list_elem_of_In. eapply list_elem_of_lookup_2, Hm. }
  apply Hps in Hin. unfold link_ok, part_link in Hin. cbn [fst] in Hin.
  rewrite Hq, list_lookup_fmap in Hin.
  destruct (parts t !! q) as [par|]; [|discriminate].
  cbn in Hin. apply bool_decide_eq_true_1 in Hin as [c Hc]. eauto.
Qed.

Lemma publish_distance_same_links (h1 h2 : list Z) (t0 t : rspamd_task) :
  same_links t0 t ->
  hoare d (message_parse_publish_distance h1 h2) (fun _ t' => same_links t0 t') t.
Proof.
  intros H0. unfold message_parse_publish_distance, rspamd_words_levenshtein_distance.
  repeat hstep; links.
Qed.

Lemma distance_same_links (t0 t : rspamd_task) :
  d \/ well_linked t = true ->
  same_links t0 t ->
  hoare d (message_parse_distance K X) (fun _ t' => same_links t0 t') t.
Proof.
  intros Hsafe H0. unfold message_parse_distance. hstep. hstep.
  destruct (text_parts t) as [|p1 [|p2 [|p3 l]]] eqn:Etp; try (hstep; exact H0).
  assert (Hp1 : d \/ exists i m, mime_part p1 = Some i /\ parts t !! i = Some m).
  { destruct Hsafe as [Hd|Hwl]; [now left | right].
    apply (well_linked_text_part t p1 Hwl). rewrite Etp. apply list_elem_of_here. }
  assert (Hp2 : d \/ exists i m, mime_part p2 = Some i /\ parts t !! i = Some m).
  { destruct Hsafe as [Hd|Hwl]; [now left | right].
    apply (well_linked_text_part t p2 Hwl). rewrite Etp. apply list_elem_of_further, list_elem_of_here. }
  apply hoare_bind, hoare_deref.
  destruct (mime_part p1) as [i1|];
    [|destruct Hp1 as [Hd|(? & ? & ? & _)]; [exact Hd | discriminate]].
  unfold get_part at 1. hstep. hstep. hstep. apply hoare_deref.
  destruct (parts t !! i1) as [m1|] eqn:Em1;
    [|destruct Hp1 as [Hd|(? & ? & [= <-] & ?)]; [exact Hd | congruence]].
  destruct (parent_part m1) as [q|] eqn:Eq; [|hstep; links].
  apply hoare_bind, hoare_deref.
  destruct (mime_part p2) as [i2|];
    [|destruct Hp2 as [Hd|(? & ? & ? & _)]; [exact Hd | discriminate]].
  unfold get_part at 1. hstep. hstep. hstep. apply hoare_deref.
  destruct (parts t !! i2) as [m2|] eqn:Em2;
    [|destruct Hp2 as [Hd|(? & ? & [= <-] & ?)]; [exact Hd | congruence]].
  destruct (bool_decide (parent_part m2 = Some q)); [|hstep; links].
  assert (Hq : d \/ exists par c, parts t !! q = Some par /\ ct par = Some c).
  { destruct Hsafe as [Hd|Hwl]; [now left | right].
    apply (well_linked_parent t i1 q m1 Hwl Em1 Eq). }
  unfold get_part at 1. hstep. hstep. hstep. apply hoare_deref.
  destruct (parts t !! q) as [par|] eqn:Epar;
    [|destruct Hq as [Hd|(? & ? & ? & _)]; [exact Hd | discriminate]].
  apply hoare_bind, hoare_deref.
  destruct (ct par) as [c|] eqn:Ec;
    [|destruct Hq as [Hd|(? & ? & [= <-] & ?)]; [exact Hd | congruence]].
  destruct (rspamd_ftok_cmp X (subtype c) alternative_tok =? 0); [|hstep; exact H0].
  destruct (negb (IS_PART_EMPTY K p1) && negb (IS_PART_EMPTY K p2)); [|hstep; exact H0].
  destruct (normalized_hashes p1); [|hstep; exact H0].
  destruct (normalized_hashes p2); [|hstep; exact H0].
  apply publish_distance_same_links, H0.
Qed.

(** *** A text part under processing *)

Lemma hoare_get_text_part (k : nat) (t : rspamd_task)
    (Q : rspamd_mime_text_part -> rspamd_task -> Prop) :
  content_at k t ->
  (forall p, text_parts t !! k = Some p -> is_Some (content p) -> Q p t) ->
  hoare d (get_text_part k) Q t.
Proof.
  intros (p & Hp & Hc) HQ. unfold hoare. rewrite (get_text_part_eq _ _ _ Hp).
  now apply HQ.
Qed.

Lemma hoare_update_text_part (k : nat) f (t0 t : rspamd_task) :
  tame f -> same_links t0 t -> content_at k t ->
  hoare d (update_text_part k f) (fun _ t' => same_links t0 t' /\ content_at k t') t.
Proof.
  intros Hf (A & B & C & D) (p & Hp & Hc). unfold hoare.
  rewrite (update_text_part_eq _ _ _ _ Hp). split.
  - repeat split; cbn; try assumption.
    rewrite list_fmap_insert, <- D. apply list_insert_id.
    rewrite list_lookup_fmap, Hp. cbn. f_equal. symmetry. apply Hf.
  - exists (f p). split.
    + cbn. apply list_lookup_insert_eq. eapply lookup_lt_Some, Hp.
    + rewrite (proj2 (Hf p)). exact Hc.
Qed.

Lemma detect_text_language_kept (k : nat) (t0 t : rspamd_task) :
  same_links t0 t -> content_at k t ->
  hoare d (detect_text_language K X k)
    (fun _ t' => same_links t0 t' /\ content_at k t') t.
Proof.
  intros H0 Hk. unfold detect_text_language.
  apply hoare_bind, hoare_get_text_part; [exact Hk|]. intros p Hp [c Hc].
  destruct (IS_PART_UTF K p); [|hstep; now split].
  apply hoare_bind, hoare_deref. rewrite Hc.
  apply hoare_update_text_part; [|exact H0|exact Hk].
  intros q. destruct (bsearch _ _); split; reflexivity.
Qed.

Lemma normalize_text_part_kept (k : nat) (t0 t : rspamd_task) :
  same_links t0 t -> content_at k t ->
  hoare d (rspamd_normalize_text_part K X k)
    (fun _ t' => same_links t0 t' /\ content_at k t') t.
Proof.
  intros H0 Hk. unfold rspamd_normalize_text_part.
  apply hoare_bind, hoare_get_text_part; [exact Hk|]. intros p Hp [c Hc].
  apply hoare_bind, hoare_deref. rewrite Hc.
  destruct (rspamd_strip_newlines_parse X c _ _) as [[stripped nl] offs].
  apply hoare_update_text_part; [|exact H0|exact Hk].
  intros q. split; reflexivity.
Qed.

Lemma extract_words_kept (k : nat) (t0 t : rspamd_task) :
  same_links t0 t -> content_at k t ->
  hoare d (rspamd_extract_words K X k)
    (fun _ t' => same_links t0 t' /\ content_at k t') t.
Proof.
  intros H0 Hk. unfold rspamd_extract_words.
  apply hoare_bind, hoare_get_text_part; [exact Hk|]. intros p Hp [c Hc].
  hstep. hstep. hstep.
  eapply hoare_mono with (Q := fun _ t' => same_links t0 t' /\ content_at k t').
  2:{ repeat hstep; (split; [links | exact Hk]). }
  intros stem t1 [H1 Hk1]. cbv beta.
  apply hoare_bind, hoare_deref. rewrite Hc. cbv zeta.
  destruct (rspamd_tokenize_text X c _ _ _) as [ws|].
  - destruct (extract_words_loop X _ stem ws) as [ws' hs].
    apply hoare_update_text_part; [|exact H1|exact Hk1].
    intros q. split; reflexivity.
  - apply hoare_update_text_part; [|exact H1|exact Hk1].
    intros q. split; reflexivity.
Qed.

Lemma process_text_part_post_kept (k : nat) (t0 t : rspamd_task) :
  same_links t0 t -> content_at k t ->
  hoare d (process_text_part_post K X k)
    (fun _ t' => same_links t0 t' /\ content_at k t') t.
Proof.
  intros H0 Hk. unfold process_text_part_post.
  hstep. eapply hoare_mono; [|apply detect_text_language_kept; eassumption].
  intros u1 t1 [H1 Hk1]. cbv beta.
  hstep. eapply hoare_mono; [|apply normalize_text_part_kept; eassumption].
  intros u2 t2 [H2 Hk2]. cbv beta.
  apply hoare_bind, hoare_get_text_part; [exact Hk2|]. intros p Hp Hc.
  hstep.
  eapply hoare_mono with (Q := fun _ t' => same_links t0 t' /\ content_at k t').
  2:{ destruct (negb (IS_PART_HTML K p)); [|hstep; now split].
      hstep. hstep.
      destruct (rspamd_url_text_extract X t2 p) as [[u e] exs].
      hstep. hstep.
      apply hoare_update_text_part; [|links|exact Hk2].
      intros q. split; reflexivity. }
  intros u3 t3 [H3 Hk3]. cbv beta.
  apply hoare_bind, hoare_get_text_part; [exact Hk3|]. intros p' Hp' Hc'.
  hstep.
  eapply hoare_mono with (Q := fun _ t' => same_links t0 t' /\ content_at k t').
  2:{ destruct (exceptions p'); [hstep; now split|].
      apply hoare_update_text_part; [|exact H3|exact Hk3].
      intros q. split; reflexivity. }
  intros u4 t4 [H4 Hk4]. cbv beta.
  apply extract_words_kept; assumption.
Qed.

Lemma check_gtube_kept (k : nat) (t0 t : rspamd_task)
    (Q : bool -> rspamd_task -> Prop) :
  same_links t0 t -> content_at k t ->
  (forall b t', same_links t0 t' -> content_at k t' -> Q b t') ->
  hoare d (rspamd_check_gtube K k) Q t.
Proof.
  intros H0 Hk HQ. unfold rspamd_check_gtube.
  apply hoare_bind, hoare_get_text_part; [exact Hk|]. intros p Hp [c Hc].
  rewrite Hc. cbv zeta.
  repeat hstep; (apply HQ; [links | exact Hk]).
Qed.

Lemma process_text_part_gtube_kept (t0 t : rspamd_task) :
  same_links t0 t ->
  hoare d (process_text_part_gtube X) (fun _ t' => same_links t0 t') t.
Proof.
  intros H0. unfold process_text_part_gtube. repeat hstep; links.
Qed.

Lemma process_text_part_linked_kept (i k : nat) (t0 t : rspamd_task)
    (m : rspamd_mime_part) :
  parts t !! i = Some m ->
  same_links t0 t -> content_at k t ->
  hoare d (process_text_part_linked K X i k) (fun _ t' => same_links t0 t') t.
Proof.
  intros Hm H0 Hk. unfold process_text_part_linked.
  hstep. unfold hoare at 1. rewrite (update_part_eq _ _ _ _ Hm).
  hstep. apply check_gtube_kept with (t0 := t0).
  - destruct H0 as (A & B & C & D). repeat split; cbn; try assumption.
    rewrite list_fmap_insert, <- C. apply list_insert_id.
    rewrite list_lookup_fmap, Hm. reflexivity.
  - exact Hk.
  - intros b t' H' Hk'. destruct b.
    + apply process_text_part_gtube_kept, H'.
    + eapply hoare_mono; [|apply process_text_part_post_kept; eassumption].
      intros u t'' [H'' _]. exact H''.
Qed.

Lemma add_text_part_grown (i : nat) (p : rspamd_mime_text_part) (t : rspamd_task)
    (m : rspamd_mime_part) :
  parts t !! i = Some m -> mime_part p = Some i ->
  grown_links t (set_text_parts (text_parts t ++ [p]) t).
Proof.
  intros Hm Hp. repeat split. exists [i]. cbn. split.
  - now rewrite map_app, <- Hp.
  - constructor; [eapply lookup_lt_Some, Hm | constructor].
Qed.

Lemma process_text_part_grown (i : nat) (t : rspamd_task) (m : rspamd_mime_part) :
  parts t !! i = Some m ->
  IS_CT_TEXT K (ct m) = true ->
  hoare d (rspamd_message_process_text_part K X i) (fun _ t' => grown_links t t') t.
Proof.
  intros Hm Hct. destruct (ct m) as [c|] eqn:Ec; [|discriminate Hct].
  unfold rspamd_message_process_text_part.
  hstep. unfold hoare at 1. rewrite (get_part_eq _ _ _ Hm).
  hstep. hstep. hstep.
  { hstep. apply same_links_grown. links. }
  rewrite Ec. apply hoare_bind, hoare_deref.
  destruct (is_html_subtype X c).
  - destruct (Z.of_nat (length (parsed_data m)) =? 0).
    + hstep. unfold hoare at 1. rewrite add_text_part_eq. hstep.
      eapply add_text_part_grown; [exact Hm | reflexivity].
    + destruct (rspamd_mime_text_part_maybe_convert X t _) as [pc fl].
      hstep. hstep. hstep.
      match goal with |- hoare _ (g_ptr_array_add_text_part ?tp) _ ?s =>
        set (p := tp); set (t1 := s) end.
      unfold hoare at 1. rewrite add_text_part_eq.
      set (t2 := set_text_parts (text_parts t1 ++ [p]) t1).
      assert (Hp : mime_part p = Some i /\ is_Some (content p)).
      { subst p. destruct (_ =? 0); split; eauto. }
      assert (Hg : grown_links t t2).
      { eapply grown_links_trans with (t2 := t1).
        - apply same_links_grown. subst t1. links.
        - eapply add_text_part_grown; [exact Hm | apply Hp]. }
      eapply hoare_mono;
        [|apply process_text_part_linked_kept with (t0 := t2) (m := m)].
      * intros u t' H'. eapply grown_links_trans; [exact Hg|].
        apply same_links_grown, H'.
      * exact Hm.
      * apply same_links_refl.
      * exists p. split; [apply list_lookup_middle; reflexivity | apply Hp].
  - destruct (Z.of_nat (length (parsed_data m)) =? 0).
    + hstep. unfold hoare at 1. rewrite add_text_part_eq. hstep.
      eapply add_text_part_grown; [exact Hm | reflexivity].
    + destruct (rspamd_mime_text_part_maybe_convert X t _) as [pc fl].
      hstep.
      match goal with |- hoare _ (g_ptr_array_add_text_part ?tp) _ _ => set (p := tp) end.
      unfold hoare at 1. rewrite add_text_part_eq.
      set (t2 := set_text_parts (text_parts t ++ [p]) t).
      assert (Hg : grown_links t t2).
      { eapply add_text_part_grown; [exact Hm | reflexivity]. }
      eapply hoare_mono;
        [|apply process_text_part_linked_kept with (t0 := t2) (m := m)].
      * intros u t' H'. eapply grown_links_trans; [exact Hg|].
        apply same_links_grown, H'.
      * exact Hm.
      * apply same_links_refl.
      * exists p. split; [apply list_lookup_middle; reflexivity | eauto].
Qed.

Lemma message_parse_parts_grown (fuel i : nat) (t0 t : rspamd_task) :
  grown_links t0 t ->
  hoare d (message_parse_parts K X fuel i) (fun _ t' => grown_links t0 t') t.
Proof.
  revert i t. induction fuel as [|fuel IH]; intros i t H0; cbn [message_parse_parts].
  - exact H0.
  - hstep. hstep. destruct (parts t !! i) as [part|] eqn:Ep; [|hstep; exact H0].
    hstep.
    eapply hoare_mono with (Q := fun _ t' => grown_links t0 t').
    + intros u t' H'. apply IH, H'.
    + destruct (IS_CT_TEXT K (ct part)) eqn:Ect; [|hstep; exact H0].
      eapply hoare_mono; [|apply (process_text_part_grown i t part Ep Ect)].
      intros u t' H'. eapply grown_links_trans; eassumption.
Qed.

Lemma well_linked_grown (t t' : rspamd_task) :
  grown_links t t' -> well_linked t = true -> well_linked t' = true.
Proof.
  intros (A & B & C & new & D & E). unfold well_linked. cbv zeta.
  rewrite C, D, B, forallb_app, !andb_true_iff.
  intros [[[H1 H2] H3] H4]. repeat split; try assumption.
  apply forallb_forall. intros o [i [<- Hi]]%in_map_iff.
  apply Nat.ltb_lt. rewrite length_map.
  rewrite Forall_forall in E. apply E, list_elem_of_In, Hi.
Qed.

Lemma well_linked_headers (t : rspamd_task) :
  well_linked t = true ->
  header_array_ok (raw_headers t) "Message-ID" = true /\
  header_array_ok (raw_headers t) "Subject" = true.
Proof. unfold well_linked. rewrite !andb_true_iff. tauto. Qed.

(** Lines 673-958: from a well-linked task the stages run to the end, and
    the message-id is the one the first of them leaves. *)
Lemma message_parse_rest_spec (st : list byte) (t : rspamd_task) :
  d \/ well_linked t = true ->
  hoare d (message_parse_rest K X st)
    (fun r t' => r = true /\ message_id t' = Some (message_id_after t)) t.
Proof.
  intros Hsafe. unfold message_parse_rest.
  hstep. eapply hoare_mono; [|apply message_id_stage].
  2:{ destruct Hsafe as [Hd|Hwl]; [now left | right; apply well_linked_headers, Hwl]. }
  intros u1 t1 (Hid & Hh & Hps & Htp). cbv beta.
  assert (Hsafe1 : d \/ well_linked t1 = true).
  { destruct Hsafe as [Hd|Hwl]; [now left | right].
    unfold well_linked in *. now rewrite Hh, Hps, Htp. }
  assert (Hinv : forall t', grown_links t1 t' -> d \/ well_linked t' = true).
  { intros t' Hg. destruct Hsafe1 as [Hd|Hwl]; [now left | right].
    eapply well_linked_grown; eassumption. }
  assert (Hstep : forall t' t'', grown_links t1 t' -> same_links t' t'' -> grown_links t1 t'').
  { intros t' t'' Hg Hs. eapply grown_links_trans; [exact Hg|].
    apply same_links_grown, Hs. }
  hstep. eapply hoare_mono; [|apply (subject_same_links t1 t1)].
  2:{ destruct Hsafe1 as [Hd|Hwl]; [now left | right; apply well_linked_headers, Hwl]. }
  2:{ apply same_links_refl. }
  intros u2 t2 H2%same_links_grown. cbv beta.
  hstep. hstep. hstep.
  eapply hoare_mono; [|apply (message_parse_parts_grown _ _ t1 t2 H2)].
  intros u3 t3 H3. cbv beta.
  hstep. eapply hoare_mono; [|apply (images_archives_same_links t3 t3), same_links_refl].
  intros u4 t4 H4%(Hstep _ _ H3). cbv beta.
  hstep. eapply hoare_mono; [|apply (received_same_links t4 t4), same_links_refl].
  intros u5 t5 H5%(Hstep _ _ H4). cbv beta.
  hstep. eapply hoare_mono; [|apply (envelope_same_links t5 t5), same_links_refl].
  intros u6 t6 H6%(Hstep _ _ H5). cbv beta.
  hstep. eapply hoare_mono; [|apply (subject_urls_same_links t6 t6), same_links_refl].
  intros u7 t7 H7%(Hstep _ _ H6). cbv beta.
  hstep. eapply hoare_mono;
    [|apply (distance_same_links t7 t7); [apply Hinv, H7 | apply same_links_refl]].
  intros u8 t8 H8%(Hstep _ _ H7). cbv beta.
  hstep. eapply hoare_mono; [|apply (digest_same_links st t8 t8), same_links_refl].
  intros u9 t9 H9%(Hstep _ _ H8). cbv beta.
  hstep. split; [reflexivity|]. destruct H9 as (A & _). congruence.
Qed.

End Frames.

(** ** The driver *)

Section Parse.

Variable K : flag_consts.
Variable X : externals.

Lemma message_parse_start_total (t : rspamd_task) :
  exists p t0,
    message_parse_start K t = Some (p, t0) /\
    task_flags t0 = task_flags t /\
    (p = None <-> msg t = None) /\
    mime_parser_input K t =
      set_log (log t0 ++ [mkLog LOG_DEBUG "construct mime parser from string length %d"]) t0.
Proof.
  unfold mime_parser_input.
  assert (H : exists p t0, message_parse_start K t = Some (p, t0) /\
                           task_flags t0 = task_flags t /\ (p = None <-> msg t = None)).
  { unfold message_parse_start, bind. cbn [get].
    destruct (msg t) as [m|].
    - destruct (mailbox_input K t _); eexists _, _; (split; [reflexivity|]);
        (split; [reflexivity|]); split; discriminate.
    - eexists _, _. split; [reflexivity|]. split; [reflexivity|]. split; reflexivity. }
  destruct H as (p & t0 & Hs & Hf & Hn). exists p, t0.
  split; [exact Hs|]. split; [exact Hf|]. split; [exact Hn|].
  unfold bind. rewrite Hs. reflexivity.
Qed.

Lemma message_from_data_eq (start : list byte) (t : rspamd_task) :
  let mid := Some (rspamd_mime_message_id_generate X "localhost.localdomain") in
  rspamd_message_from_data X (Some start) t =
  Some (tt, set_queue_id mid (set_message_id mid
              (set_log (log t ++ [mkLog LOG_WARN "construct fake mime of type: %s"]) t))).
Proof.
  unfold rspamd_message_from_data. unfold bind at 1. cbn [g_assert_not_null ret].
  unfold bind at 1. cbn [get].
  match goal with |- context [let '(_, _) := ?E in _] => destruct E end.
  reflexivity.
Qed.

(** The assertion of line 544: on a NULL pointer the process is aborted. *)
Lemma message_from_data_null (t : rspamd_task) :
  rspamd_message_from_data X None t = None.
Proof. reflexivity. Qed.

(** Lines 646-670, whatever the pointer: the stage ends in failure exactly
    when the task is flagged MIME, the parser fails and the configuration
    forbids raw input, and the error of the parser is then left on the task;
    it does not end at all exactly when the raw-data fallback is reached with
    a NULL pointer. *)
Lemma message_parse_mime_outcome (p : option (list byte)) (t0 : rspamd_task) :
  let input :=
    set_log (log t0 ++ [mkLog LOG_DEBUG "construct mime parser from string length %d"]) t0 in
  let raw :=
    has_flag (task_flags t0) (RSPAMD_TASK_FLAG_MIME K) = false \/
    let '(ok, _, t') := rspamd_mime_parse_task X input in
    ok = false /\ forall c, cfg t' = Some c -> allow_raw_input c = true in
  match message_parse_mime K X p t0 with
  | Some (r, t1) =>
      (p = None -> ~ raw) /\
      (r = false <->
         has_flag (task_flags t0) (RSPAMD_TASK_FLAG_MIME K) = true /\
         let '(ok, _, t') := rspamd_mime_parse_task X input in
         ok = false /\ exists c, cfg t' = Some c /\ allow_raw_input c = false) /\
      (r = false ->
         forall e, snd (fst (rspamd_mime_parse_task X input)) = Some e -> err t1 = Some e) /\
      (r = true -> has_flag (task_flags t0) (RSPAMD_TASK_FLAG_MIME K) = false ->
         message_id t1 = Some (rspamd_mime_message_id_generate X "localhost.localdomain"))
  | None => p = None /\ raw
  end.
Proof.
  intros input raw. subst raw. unfold message_parse_mime. unfold bind at 1. cbn [get].
  assert (Hraw : forall s,
            (modify (clear_mime_flag K) ;;; rspamd_message_from_data X p ;;; ret true) s
            = match p with
              | Some _ =>
                  let mid := Some (rspamd_mime_message_id_generate X "localhost.localdomain") in
                  Some (true, set_queue_id mid (set_message_id mid
                          (set_log (log (clear_mime_flag K s) ++
                                    [mkLog LOG_WARN "construct fake mime of type: %s"])
                             (clear_mime_flag K s))))
              | None => None
              end).
  { intros s. unfold bind at 1. cbn [modify]. destruct p as [start|].
    - rewrite (bind_eq _ _ _ _ _ (message_from_data_eq start _)). reflexivity.
    - unfold bind. now rewrite message_from_data_null. }
  destruct (has_flag (task_flags t0) (RSPAMD_TASK_FLAG_MIME K)) eqn:Hmime.
  - unfold bind at 1. cbn [debug_task log_msg modify]. fold input.
    unfold bind at 1. cbn [get].
    destruct (rspamd_mime_parse_task X input) as [[ok e] t'] eqn:Hparse.
    unfold bind at 1. cbn [modify].
    destruct ok.
    + split; [intros _ [[=]|[[=] _]]|].
      split; [|split; [discriminate|discriminate]].
      split; [discriminate | intros [_ [? _]]; discriminate].
    + unfold bind at 1. cbn [msg_err_task log_msg modify]. cbn [cfg set_log].
      destruct (cfg t') as [c|] eqn:Hcfg.
      * destruct (allow_raw_input c) eqn:Hallow; cbn [negb].
        -- rewrite Hraw. destruct p as [start|].
           ++ cbv zeta. split; [discriminate|].
              split; [|split; [discriminate|discriminate]].
              split; [discriminate | intros [_ [_ (c' & [= <-] & Hc')]]; congruence].
           ++ split; [reflexivity|]. right. split; [reflexivity|].
              intros c' [= <-]. exact Hallow.
        -- destruct e as [e|]; cbn.
           ++ split; [intros _ [[=]|[_ H]]; specialize (H c eq_refl); congruence|].
              split; [|split; [|discriminate]].
              ** split; [intros _; split; [reflexivity|split; [reflexivity|eauto]] | reflexivity].
              ** intros _ e' [= <-]. reflexivity.
           ++ split; [intros _ [[=]|[_ H]]; specialize (H c eq_refl); congruence|].
              split; [|split; [|discriminate]].
              ** split; [intros _; split; [reflexivity|split; [reflexivity|eauto]] | reflexivity].
              ** intros _ e' [=].
      * rewrite Hraw. destruct p as [start|].
        -- cbv zeta. split; [discriminate|].
           split; [|split; [discriminate|discriminate]].
           split; [discriminate | intros [_ [_ (c' & [=] & _)]]].
        -- split; [reflexivity|]. right. split; [reflexivity|]. intros c' [=].
  - rewrite Hraw. destruct p as [start|].
    + cbv zeta. split; [discriminate|].
      split; [|split; [discriminate|intros _ _; reflexivity]].
      split; [discriminate | intros [[=] _]].
    + split; [reflexivity|]. now left.
Qed.

(** Lines 646-670 on a pointer that is not NULL: the stage ends. *)
Lemma message_parse_mime_cases (p : list byte) (t0 : rspamd_task) :
  let input :=
    set_log (log t0 ++ [mkLog LOG_DEBUG "construct mime parser from string length %d"]) t0 in
  exists r t1,
    message_parse_mime K X (Some p) t0 = Some (r, t1) /\
    (r = false <->
       has_flag (task_flags t0) (RSPAMD_TASK_FLAG_MIME K) = true /\
       let '(ok, _, t') := rspamd_mime_parse_task X input in
       ok = false /\ exists c, cfg t' = Some c /\ allow_raw_input c = false) /\
    (r = false ->
       forall e, snd (fst (rspamd_mime_parse_task X input)) = Some e -> err t1 = Some e) /\
    (r = true -> has_flag (task_flags t0) (RSPAMD_TASK_FLAG_MIME K) = false ->
       message_id t1 = Some (rspamd_mime_message_id_generate X "localhost.localdomain")).
Proof.
  intros input. pose proof (message_parse_mime_outcome (Some p) t0) as H.
  cbv zeta in H. fold input in H.
  destruct (message_parse_mime K X (Some p) t0) as [[r t1]|].
  - exists r, t1. split; [reflexivity|]. apply H.
  - destruct H as [[=] _].
Qed.

(** C6.  Given a message (the pointer to it is not NULL, as line 544
    asserts) and a task whose structure is well linked once the MIME stage
    is through, [rspamd_message_parse] returns, and it returns failure
    exactly in the ConfigForbidsRaw case: the task is not empty and is
    flagged MIME, the MIME parser fails on the trimmed message, and the
    configuration has [allow_raw_input] false.  The error the parser reports
    is then recorded on the task. *)
Theorem parse_fails_only_when_raw_forbidden (t : rspamd_task) (m : list byte) :
  msg t = Some m ->
  (forall p t0 t1,
      message_parse_start K t = Some (p, t0) ->
      message_parse_mime K X p t0 = Some (true, t1) ->
      well_linked t1 = true) ->
  exists r t',
    rspamd_message_parse K X t = Some (r, t') /\
    (r = false <-> config_forbids_raw K X t) /\
    (r = false ->
       forall e, snd (fst (rspamd_mime_parse_task X (mime_parser_input K t))) = Some e ->
                 err t' = Some e).
Proof.
  intros Hmsg Hwl. unfold rspamd_message_parse, config_forbids_raw.
  unfold bind at 1. cbn [get].
  destruct (RSPAMD_TASK_IS_EMPTY K t) eqn:Hempty.
  { exists true, t. split; [reflexivity|]. split; [|discriminate].
    split; [discriminate | intros [[=] _]]. }
  destruct (message_parse_start_total t) as (p & t0 & Hstart & Hflags & Hnull & Hinput).
  destruct p as [p|]; [|destruct Hnull as [Hnull _]; rewrite Hnull in Hmsg by reflexivity;
                        discriminate Hmsg].
  rewrite (bind_eq _ _ _ _ _ Hstart), Hinput.
  destruct (message_parse_mime_cases p t0) as (r & t1 & Hmime & Hr & Herr & _).
  rewrite (bind_eq _ _ _ _ _ Hmime). rewrite Hflags in Hr.
  destruct r.
  - pose proof (message_parse_rest_spec K X False (rspamd_cryptobox_hash_init X) t1
                  (or_intror (Hwl (Some p) t0 t1 Hstart Hmime))) as Hrest.
    apply hoare_total in Hrest as (r & t' & Hrun & -> & _).
    exists true, t'. split; [exact Hrun|]. split; [|discriminate].
    split; [discriminate|]. intros [_ H]. now apply Hr.
  - exists false, t1. split; [reflexivity|]. split; [|exact Herr].
    split; [|reflexivity]. intros _. split; [reflexivity|]. now apply Hr.
Qed.

(** Without a message the assertion of line 544 ends the process as soon
    as the raw-data fallback is reached: for a task that is not flagged
    empty and whose message pointer is NULL, [rspamd_message_parse] does not
    return exactly when the task is not flagged MIME, or the MIME parser
    fails and raw input is not forbidden. *)
Lemma parse_aborts_on_null_message (t : rspamd_task) :
  RSPAMD_TASK_IS_EMPTY K t = false ->
  msg t = None ->
  (forall t1,
      message_parse_mime K X None t = Some (true, t1) -> well_linked t1 = true) ->
  rspamd_message_parse K X t = None <->
  (has_flag (task_flags t) (RSPAMD_TASK_FLAG_MIME K) = false \/
   let '(ok, _, t') := rspamd_mime_parse_task X (mime_parser_input K t) in
   ok = false /\ forall c, cfg t' = Some c -> allow_raw_input c = true).
Proof.
  intros Hempty Hmsg Hwl.
  assert (Hstart : message_parse_start K t = Some (None, t)).
  { unfold message_parse_start, bind. cbn [get]. rewrite Hmsg. cbn [ret modify].
    destruct t; cbn in Hmsg; subst; reflexivity. }
  assert (Hinput : mime_parser_input K t =
            set_log (log t ++ [mkLog LOG_DEBUG "construct mime parser from string length %d"]) t).
  { unfold mime_parser_input, bind. now rewrite Hstart. }
  unfold rspamd_message_parse. unfold bind at 1. cbn [get]. rewrite Hempty.
  rewrite (bind_eq _ _ _ _ _ Hstart). rewrite Hinput.
  pose proof (message_parse_mime_outcome None t) as H. cbv zeta in H.
  unfold bind at 1.
  destruct (message_parse_mime K X None t) as [[r t1]|] eqn:Hmime.
  - destruct H as (Hnot & _). specialize (Hnot eq_refl).
    split; [|intros Hraw; contradiction].
    destruct r; [|discriminate].
    pose proof (message_parse_rest_spec K X False (rspamd_cryptobox_hash_init X) t1
                  (or_intror (Hwl t1 eq_refl))) as Hrest.
    apply hoare_total in Hrest as (r & t' & Hrun & _). rewrite Hrun. discriminate.
  - destruct H as [_ Hraw]. split; [intros _; exact Hraw | reflexivity].
Qed.

(** C7, as amended.  After a successful [rspamd_message_parse] of a task
    that is not flagged empty the message-id is not null: it is the text of
    the first Message-ID header without its leading angle bracket and, then,
    without its trailing one; without such a header it is the id the task
    carries when the MIME stage ends (for raw input the one generated by
    [rspamd_message_from_data]), and "undef" only when it carries none. *)
Theorem message_id_after_parse (t t' : rspamd_task) :
  RSPAMD_TASK_IS_EMPTY K t = false ->
  rspamd_message_parse K X t = Some (true, t') ->
  exists p t0 t1,
    message_parse_start K t = Some (p, t0) /\
    message_parse_mime K X p t0 = Some (true, t1) /\
    message_id t' = Some (message_id_after t1) /\
    (has_flag (task_flags t) (RSPAMD_TASK_FLAG_MIME K) = false ->
       message_id t1 = Some (rspamd_mime_message_id_generate X "localhost.localdomain")).
Proof.
  intros Hempty Hrun. unfold rspamd_message_parse in Hrun.
  unfold bind at 1 in Hrun. cbn [get] in Hrun. rewrite Hempty in Hrun.
  destruct (message_parse_start_total t) as (p & t0 & Hstart & Hflags & _).
  rewrite (bind_eq _ _ _ _ _ Hstart) in Hrun.
  pose proof (message_parse_mime_outcome p t0) as Hgen. cbv zeta in Hgen.
  destruct (message_parse_mime K X p t0) as [[r t1]|] eqn:Hmime;
    [|unfold bind in Hrun; rewrite Hmime in Hrun; discriminate Hrun].
  destruct Hgen as (_ & _ & _ & Hgen).
  rewrite (bind_eq _ _ _ _ _ Hmime) in Hrun.
  destruct r; [|discriminate Hrun].
  exists p, t0, t1. split; [exact Hstart|]. split; [exact Hmime|].
  split.
  - pose proof (message_parse_rest_spec K X True (rspamd_cryptobox_hash_init X) t1
                  (or_introl I)) as Hrest.
    apply (hoare_run _ _ _ _ _ _ Hrest Hrun).
  - intros Hm. apply Hgen; [reflexivity | now rewrite Hflags].
Qed.

End Parse.

Lemma string_last_app (s : string) (c : ascii) :
  string_last (s ++ String c EmptyString) = Some c.
Proof.
  induction s as [|a s IH]; [reflexivity|].
  simpl. destruct (String.append s (String c "")) eqn:E;
    [destruct s; discriminate E | exact IH].
Qed.

Lemma string_init_app (s : string) (c : ascii) :
  string_init (s ++ String c EmptyString) = s.
Proof.
  induction s as [|a s IH]; [reflexivity|].
  simpl. destruct (String.append s (String c "")) eqn:E;
    [destruct s; discriminate E | now rewrite IH].
Qed.

(** A message-id in angle brackets loses both. *)
Lemma message_id_of_header_brackets (s : string) :
  message_id_of_header ("<" ++ s ++ ">") = s.
Proof.
  unfold message_id_of_header.
  change ("<" ++ s ++ ">")%string with (String "<"%char (s ++ String ">"%char EmptyString)).
  cbv iota beta.
  rewrite (string_last_app s ">"%char). cbv iota beta. apply string_init_app.
Qed.

(** C6 on the message of two alternative parts. *)
Lemma parse_fails_only_when_raw_forbidden_sample :
  exists r t',
    rspamd_message_parse sample_flags sample_externals msgid_task = Some (r, t') /\
    (r = false <-> config_forbids_raw sample_flags sample_externals msgid_task) /\
    (r = false ->
       forall e, snd (fst (rspamd_mime_parse_task sample_externals
                             (mime_parser_input sample_flags msgid_task))) = Some e ->
                 err t' = Some e).
Proof.
  apply (parse_fails_only_when_raw_forbidden sample_flags sample_externals msgid_task
           (bytes_of "hello world foo|hello world bar")); [reflexivity|].
  intros p t0 t1 Hstart Hmime.
  vm_compute in Hstart. injection Hstart as <- <-.
  vm_compute in Hmime. injection Hmime as <-.
  vm_compute. reflexivity.
Defined.

(** The fatal case: the parser refuses the message and raw input is
    forbidden; the parse fails and the task carries the parser's error. *)
Lemma parse_fails_on_forbidden_raw :
  config_forbids_raw sample_flags sample_externals forbidden_raw_task /\
  exists t',
    rspamd_message_parse sample_flags sample_externals forbidden_raw_task = Some (false, t') /\
    err t' = Some (mkGError 1 "no content").
Proof.
  split.
  - split; [reflexivity|]. split; [reflexivity|]. vm_compute.
    split; [reflexivity|]. eexists. split; reflexivity.
  - eexists. split; [vm_compute; reflexivity|]. reflexivity.
Qed.

(** The amended statement on a message with a Message-ID header. *)
Lemma message_id_after_parse_sample :
  exists t',
    rspamd_message_parse sample_flags sample_externals msgid_task = Some (true, t') /\
    message_id t' = Some "abc@example.com"%string /\
    exists p t0 t1,
      message_parse_start sample_flags msgid_task = Some (p, t0) /\
      message_parse_mime sample_flags sample_externals p t0 = Some (true, t1) /\
      message_id t' = Some (message_id_after t1) /\
      (has_flag (task_flags msgid_task) (RSPAMD_TASK_FLAG_MIME sample_flags) = false ->
         message_id t1 = Some (rspamd_mime_message_id_generate sample_externals
                                 "localhost.localdomain")).
Proof.
  eexists. split; [vm_compute; reflexivity|]. split; [reflexivity|].
  apply (message_id_after_parse sample_flags sample_externals msgid_task).
  - reflexivity.
  - vm_compute. reflexivity.
Defined.

(** C7 as stated fails: for a task flagged empty the parse succeeds at
    once and the message-id stays null. *)
Lemma empty_task_keeps_null_message_id :
  RSPAMD_TASK_IS_EMPTY sample_flags empty_task = true /\
  rspamd_message_parse sample_flags sample_externals empty_task = Some (true, empty_task) /\
  message_id empty_task = None.
Proof. repeat split. Qed.

(** The assertion of line 544 on a task without a message: the task is not
    flagged MIME, so the raw-data fallback is reached and the process ends
    there. *)
Lemma null_message_is_asserted :
  msg null_message_task = None /\
  RSPAMD_TASK_IS_EMPTY sample_flags null_message_task = false /\
  rspamd_message_parse sample_flags sample_externals null_message_task = None.
Proof. repeat split. Qed.

(** A task that is not flagged MIME and has no Message-ID header ends up
    with the generated id, not with "undef". *)
Lemma raw_task_gets_generated_message_id :
  exists t',
    rspamd_message_parse sample_flags sample_externals
      (sample_task (bytes_of "hello") 0 (Some sample_config) (fun _ => None))
      = Some (true, t') /\
    message_id t' = Some "generated@localhost.localdomain"%string.
Proof. eexists. split; [vm_compute; reflexivity | reflexivity]. Qed.

(** ** Whole runs on GTUBE messages *)

(** A message whose only part holds the pattern inside a sentence is
    rejected: both flags, the pre-result and the symbol are set. *)
Lemma parse_reports_gtube_in_sentence :
  exists t',
    rspamd_message_parse sample_flags sample_externals (gtube_message gtube_sentence)
      = Some (true, t') /\
    has_flag (task_flags t') (RSPAMD_TASK_FLAG_GTUBE sample_flags) = true /\
    has_flag (task_flags t') (RSPAMD_TASK_FLAG_SKIP sample_flags) = true /\
    pre_result t' = mkPre METRIC_ACTION_REJECT (Some "Gtube pattern") /\
    symbols t' = [(GTUBE_SYMBOL, 0%float)].
Proof. eexists. split; [vm_compute; reflexivity | repeat split]. Qed.

(** A message whose only part is exactly the 68 bytes of the pattern goes
    through as an ordinary text part. *)
Lemma parse_misses_bare_gtube :
  exists t',
    rspamd_message_parse sample_flags sample_externals
      (gtube_message (bytes_of gtube_pattern)) = Some (true, t') /\
    map content (text_parts t') = [Some (bytes_of gtube_pattern)] /\
    has_flag (task_flags t') (RSPAMD_TASK_FLAG_GTUBE sample_flags) = false /\
    has_flag (task_flags t') (RSPAMD_TASK_FLAG_SKIP sample_flags) = false /\
    pre_result t' = mkPre METRIC_ACTION_MAX None /\
    symbols t' = [].
Proof. eexists. split; [vm_compute; reflexivity | repeat split]. Qed.

(** ** Language detection *)

(** [g_utf8_next_char] always moves on. *)
Lemma g_utf8_skip_pos (c : byte) : (1 <= g_utf8_skip c)%nat.
Proof. unfold g_utf8_skip. cbv zeta. repeat destruct (_ <? _); lia. Qed.

(** One round of the [while] loop. *)
Lemma detect_text_language_scan_step (X : externals) (fuel : nat) (p : list byte)
    (remain processed : Z) (scripts : list Z) :
  detect_text_language_scan X (S fuel) p remain processed scripts
  = if (0 <? remain) && (processed <? max_chars) then
      let c := g_utf8_get_char_validated X p in
      if (c =? guint (-2)) || (c =? guint (-1)) then scripts
      else
        let scc := g_unichar_get_script X c in
        let scripts' :=
          if g_unichar_isalpha X c && (scc <? length language_codes)%nat
          then <[scc := scripts !!! scc + 1]> scripts else scripts in
        let processed' := if g_unichar_isalpha X c then processed + 1 else processed in
        let skip := g_utf8_skip (default x00 (head p)) in
        detect_text_language_scan X fuel (drop skip p) (remain - Z.of_nat skip)
          processed' scripts'
    else scripts.
Proof. reflexivity. Qed.

(** The loop ends by itself within [remain] rounds: the fuel given in
    [detect_text_language], the length of the content, is never what stops
    it. *)
Lemma detect_text_language_scan_fuel (X : externals) (fuel : nat) :
  forall (p : list byte) (remain processed : Z) (scripts : list Z),
    remain <= Z.of_nat fuel ->
    detect_text_language_scan X (S fuel) p remain processed scripts
    = detect_text_language_scan X fuel p remain processed scripts.
Proof.
  induction fuel as [|fuel IH]; intros p remain processed scripts Hrem.
  - rewrite detect_text_language_scan_step. cbn [detect_text_language_scan].
    destruct (0 <? remain) eqn:E; [apply Z.ltb_lt in E; lia | reflexivity].
  - rewrite (detect_text_language_scan_step X (S fuel)),
      (detect_text_language_scan_step X fuel).
    destruct ((0 <? remain) && (processed <? max_chars)); [|reflexivity].
    cbv zeta.
    destruct ((g_utf8_get_char_validated X p =? guint (-2)) ||
              (g_utf8_get_char_validated X p =? guint (-1))); [reflexivity|].
    apply IH.
    pose proof (g_utf8_skip_pos (default x00 (head p))). lia.
Qed.

(** The cut to a [gint32] never makes a length larger. *)
Lemma gint_le (z : Z) : 0 <= z -> gint z <= z.
Proof.
  intros Hz. unfold gint. cbv zeta.
  pose proof (Z.mod_le z (2 ^ 32) Hz ltac:(lia)).
  destruct (_ <? _); lia.
Qed.

(** More fuel than the length of the content changes nothing in the scan
    [detect_text_language] starts. *)
Lemma detect_text_language_fuel (X : externals) (c : list byte) (n : nat)
    (scripts : list Z) :
  detect_text_language_scan X (length c + n) c (gint (Z.of_nat (length c))) 0 scripts
  = detect_text_language_scan X (length c) c (gint (Z.of_nat (length c))) 0 scripts.
Proof.
  induction n as [|n IH]; [now rewrite Nat.add_0_r|].
  rewrite Nat.add_succ_r, detect_text_language_scan_fuel; [exact IH|].
  pose proof (gint_le (Z.of_nat (length c)) ltac:(lia)). lia.
Qed.

(** With nothing left the loop is not entered. *)
Lemma detect_text_language_scan_done (X : externals) (fuel : nat) (p : list byte)
    (remain processed : Z) (scripts : list Z) :
  remain <= 0 -> detect_text_language_scan X fuel p remain processed scripts = scripts.
Proof.
  intros Hrem. destruct fuel as [|fuel]; [reflexivity|].
  rewrite detect_text_language_scan_step.
  destruct (0 <? remain) eqn:E; [apply Z.ltb_lt in E; lia | reflexivity].
Qed.

(** The selection loop after [n] rounds: [max] bounds the counters seen, and
    [sel] is the first index holding it, once a counter is positive. *)
Lemma select_fold (scripts : list Z) (n : nat) :
  let st := foldl (select_step scripts) (0, G_UNICODE_SCRIPT_COMMON) (seq 0 n) in
  (forall j, (j < n)%nat -> scripts !!! j <= fst st) /\
  ((fst st = 0 /\ snd st = G_UNICODE_SCRIPT_COMMON) \/
   (0 < fst st /\ (snd st < n)%nat /\ scripts !!! snd st = fst st /\
    forall j, (j < snd st)%nat -> scripts !!! j < fst st)).
Proof.
  induction n as [|n IH]; cbv zeta.
  - split; [lia | now left].
  - rewrite seq_S, foldl_app. cbn [foldl Nat.add].
    destruct (foldl (select_step scripts) (0, G_UNICODE_SCRIPT_COMMON) (seq 0 n))
      as [max sel] eqn:E.
    cbv zeta in IH. cbn [fst snd] in IH. destruct IH as [Hle Hsel].
    unfold select_step. destruct (max <? scripts !!! n) eqn:Hlt; cbn [fst snd].
    + apply Z.ltb_lt in Hlt. split.
      * intros j Hj. destruct (decide (j = n)) as [->|Hne]; [lia|].
        assert (Hjn : (j < n)%nat) by lia. specialize (Hle j Hjn). lia.
      * right. repeat split; try lia.
        intros j Hj. specialize (Hle j Hj). lia.
    + apply Z.ltb_ge in Hlt. split.
      * intros j Hj. destruct (decide (j = n)) as [->|Hne]; [lia|].
        apply Hle. lia.
      * destruct Hsel as [Hz|(Hpos & Hs & Hv & Hfirst)]; [now left | right].
        repeat split; try assumption. lia.
Qed.

Lemma select_fold_eq (scripts : list Z) :
  detect_text_language_select scripts
  = snd (foldl (select_step scripts) (0, G_UNICODE_SCRIPT_COMMON)
               (seq 0 (length language_codes))).
Proof.
  unfold detect_text_language_select. f_equal.
  generalize (0, G_UNICODE_SCRIPT_COMMON). generalize (seq 0 (length language_codes)).
  intros l. induction l as [|r l IH]; intros [max sel]; [reflexivity|].
  cbn [foldl]. rewrite IH. reflexivity.
Qed.

(** The chosen script lies inside the table. *)
Lemma detect_text_language_select_lt (scripts : list Z) :
  (detect_text_language_select scripts < length language_codes)%nat.
Proof.
  rewrite select_fold_eq.
  pose proof (select_fold scripts (length language_codes)) as H. cbv zeta in H.
  destruct (foldl _ _ _) as [max sel]. cbn [fst snd] in *.
  destruct H as [_ [[_ ->]|(_ & Hs & _)]]; [|exact Hs].
  apply Nat.ltb_lt. vm_compute. reflexivity.
Qed.

(** X4.  The script chosen by the loop of lines 182-187 is the first one
    with the largest counter: no counter of the table is larger, every
    earlier one is strictly smaller, and it is COMMON unless its counter is
    positive.  It always lies inside the table. *)
Theorem detect_text_language_select_first_max (scripts : list Z) :
  let sel := detect_text_language_select scripts in
  (sel < length language_codes)%nat /\
  (forall j, (j < length language_codes)%nat ->
     scripts !!! j <= Z.max 0 (scripts !!! sel)) /\
  (forall j, (j < sel)%nat -> scripts !!! j < scripts !!! sel) /\
  (sel = G_UNICODE_SCRIPT_COMMON \/ 0 < scripts !!! sel).
Proof.
  cbv zeta. rewrite select_fold_eq.
  pose proof (select_fold scripts (length language_codes)) as H. cbv zeta in H.
  destruct (foldl _ _ _) as [max sel]. cbn [fst snd] in *.
  destruct H as [Hle [[-> ->]|(Hpos & Hs & Hv & Hfirst)]].
  - repeat split.
    + apply Nat.ltb_lt. vm_compute. reflexivity.
    + intros j Hj. specialize (Hle j Hj). lia.
    + unfold G_UNICODE_SCRIPT_COMMON. lia.
    + now left.
  - repeat split.
    + exact Hs.
    + intros j Hj. specialize (Hle j Hj). lia.
    + intros j Hj. rewrite Hv. now apply Hfirst.
    + right. lia.
Qed.

Lemma counters_sum_incr (scripts : list Z) (i : nat) :
  (i < length scripts)%nat ->
  counters_sum (<[i := scripts !!! i + 1]> scripts) = counters_sum scripts + 1.
Proof.
  revert i. induction scripts as [|a l IH]; intros i Hi; [cbn in Hi; lia|].
  destruct i as [|i]; cbn.
  - lia.
  - cbn in Hi. unfold counters_sum in IH. rewrite IH by lia. lia.
Qed.

Section Scan.

Variable X : externals.

(** The [while] loop keeps the counters non-negative and adds at most what
    is left of [max_chars]. *)
Lemma detect_text_language_scan_inv (fuel : nat) :
  forall (p : list byte) (remain processed : Z) (scripts : list Z),
    Forall (fun n => 0 <= n) scripts ->
    let scripts' := detect_text_language_scan X fuel p remain processed scripts in
    length scripts' = length scripts /\
    Forall (fun n => 0 <= n) scripts' /\
    counters_sum scripts <= counters_sum scripts'
      <= counters_sum scripts + Z.max 0 (max_chars - processed).
Proof.
  induction fuel as [|fuel IH]; intros p remain processed scripts Hpos; cbv zeta.
  - cbn [detect_text_language_scan]. repeat split; [assumption | lia | lia].
  - cbn [detect_text_language_scan].
    destruct ((0 <? remain) && (processed <? max_chars)) eqn:Hgo;
      [|repeat split; [assumption | lia | lia]].
    apply andb_true_iff in Hgo as [_ Hproc%Z.ltb_lt].
    destruct ((_ =? guint (-2)) || _); [repeat split; [assumption | lia | lia]|].
    cbv zeta.
    set (c := g_utf8_get_char_validated X p).
    set (scc := g_unichar_get_script X c).
    destruct (g_unichar_isalpha X c) eqn:Ealpha; cbn [andb].
    + destruct (scc <? length language_codes)%nat eqn:Escc.
      * destruct (decide (scc < length scripts)%nat) as [Hin|Hout].
        -- match goal with |- context [detect_text_language_scan X fuel ?a ?b ?c ?d] =>
             specialize (IH a b c d) end.
           cbv zeta in IH. destruct IH as (Hl & Hp & Hs).
           { apply Forall_insert; [assumption|].
             rewrite Forall_lookup in Hpos.
             destruct (lookup_lt_is_Some_2 scripts scc Hin) as [v Hv].
             rewrite (list_lookup_total_correct _ _ _ Hv).
             specialize (Hpos _ _ Hv). cbv beta in Hpos. lia. }
           rewrite counters_sum_incr in Hs by exact Hin.
           rewrite length_insert in Hl. repeat split; [assumption | assumption | lia | lia].
        -- rewrite list_insert_ge by lia.
           specialize (IH (drop (g_utf8_skip (default x00 (head p))) p)
                          (remain - Z.of_nat (g_utf8_skip (default x00 (head p))))
                          (processed + 1) scripts Hpos).
           cbv zeta in IH. destruct IH as (Hl & Hp & Hs).
           repeat split; [assumption | assumption | lia | lia].
      * specialize (IH (drop (g_utf8_skip (default x00 (head p))) p)
                       (remain - Z.of_nat (g_utf8_skip (default x00 (head p))))
                       (processed + 1) scripts Hpos).
        cbv zeta in IH. destruct IH as (Hl & Hp & Hs).
        repeat split; [assumption | assumption | lia | lia].
    + specialize (IH (drop (g_utf8_skip (default x00 (head p))) p)
                     (remain - Z.of_nat (g_utf8_skip (default x00 (head p))))
                     processed scripts Hpos).
      cbv zeta in IH. destruct IH as (Hl & Hp & Hs).
      repeat split; [assumption | assumption | lia | lia].
Qed.

Lemma counters_sum_replicate (n : nat) : counters_sum (replicate n 0) = 0.
Proof. induction n as [|n IH]; [reflexivity|]. cbn. unfold counters_sum in IH. now rewrite IH. Qed.

(** X5.  Whatever the length of the part, and whatever [remain] starts from
    (line 159 cuts the length to a [gint32]), the scan of lines 166-181
    counts at most [max_chars] = 32 letters: the 67 counters stay between 0
    and 32 and sum to at most 32. *)
Theorem detect_text_language_scan_bounded (c : list byte) (remain : Z) :
  let scripts := detect_text_language_scan X (length c) c remain 0
                   (replicate (length language_codes) 0) in
  length scripts = length language_codes /\
  Forall (fun n => 0 <= n <= max_chars) scripts /\
  counters_sum scripts <= max_chars.
Proof.
  cbv zeta.
  pose proof (detect_text_language_scan_inv (length c) c remain 0
                (replicate (length language_codes) 0)) as H.
  cbv zeta in H. destruct H as (Hl & Hp & Hs).
  { apply Forall_replicate. lia. }
  rewrite counters_sum_replicate in Hs. rewrite length_replicate in Hl.
  assert (Hsum : counters_sum
            (detect_text_language_scan X (length c) c remain 0
               (replicate (length language_codes) 0)) <= max_chars).
  { unfold max_chars in *. lia. }
  repeat split; try assumption.
  revert Hp Hsum. generalize (detect_text_language_scan X (length c) c remain 0
               (replicate (length language_codes) 0)).
  intros l Hp. induction Hp as [|a l Ha Hp IH]; intros Hsum; [constructor|].
  cbn in Hsum.
  assert (0 <= counters_sum l).
  { clear -Hp. induction Hp; cbn; [lia|]. unfold counters_sum in *. lia. }
  unfold counters_sum in *. constructor; [lia | apply IH; lia].
Qed.

End Scan.

(** The table is sorted by script, so [bsearch] finds the row of every
    script of the table. *)
Lemma language_codes_bsearch (sel : nat) :
  (sel < length language_codes)%nat ->
  exists code name,
    language_rows !! sel = Some (code, name) /\
    bsearch (language_elts_cmp sel) language_codes = Some (mkLm code name sel).
Proof.
  intros H.
  do 67 (destruct sel as [|sel]; [do 2 eexists; split; vm_compute; reflexivity|]).
  exfalso. revert H. vm_compute. lia.
Qed.

Section Detect.

Variable K : flag_consts.
Variable X : externals.

(** X6.  [detect_text_language] leaves a part that is not flagged UTF
    alone.  On a UTF part it stores the chosen script, and [bsearch] never
    misses: [lang_code] and [language] are always set, to the row of that
    script in the table; nothing else of the task changes.  The scan starts
    from the length cut to a [gint32] (line 159): on a content of 2^31 bytes
    or more that is negative, nothing is scanned and the script is COMMON. *)
Theorem detect_text_language_sets_row (k : nat) (t : rspamd_task)
    (p : rspamd_mime_text_part) :
  text_parts t !! k = Some p ->
  (IS_PART_UTF K p = false -> detect_text_language K X k t = Some (tt, t)) /\
  (IS_PART_UTF K p = true -> forall c, content p = Some c ->
   let sel := detect_text_language_select
                (detect_text_language_scan X (length c) c (gint (Z.of_nat (length c))) 0
                   (replicate (length language_codes) 0)) in
   (exists code name,
      language_rows !! sel = Some (code, name) /\
      detect_text_language K X k t
      = Some (tt, set_text_parts
                    (<[k := set_language (Some name)
                              (set_lang_code (Some code) (set_script sel p))]>
                       (text_parts t)) t)) /\
   (2 ^ 31 <= Z.of_nat (length c) < 2 ^ 32 -> sel = G_UNICODE_SCRIPT_COMMON)).
Proof.
  intros Hp. split.
  - intros Hutf. unfold detect_text_language.
    rewrite (bind_eq _ _ _ _ _ (get_text_part_eq _ _ _ Hp)). now rewrite Hutf.
  - intros Hutf c Hc. cbv zeta. split.
    + set (sel := detect_text_language_select _).
      destruct (language_codes_bsearch sel) as (code & name & Hrow & Hb).
      { apply detect_text_language_select_lt. }
      exists code, name. split; [exact Hrow|].
      unfold detect_text_language.
      rewrite (bind_eq _ _ _ _ _ (get_text_part_eq _ _ _ Hp)). rewrite Hutf, Hc.
      unfold deref. unfold bind at 1. unfold ret at 1. cbv beta iota zeta.
      rewrite (update_text_part_eq _ _ _ _ Hp).
      fold sel. now rewrite Hb.
    + intros Hbig. rewrite detect_text_language_scan_done; [vm_compute; reflexivity|].
      unfold gint. cbv zeta. rewrite Z.mod_small by lia.
      destruct (_ <? _) eqn:E; [apply Z.ltb_lt in E; lia | lia].
Qed.

End Detect.

Lemma detect_text_language_sets_row_sample :
  text_parts (task_with_content (bytes_of "Hello") []) !! 0%nat
    = Some (part_with_content (bytes_of "Hello") []) /\
  (IS_PART_UTF sample_flags (part_with_content (bytes_of "Hello") []) = false ->
   detect_text_language sample_flags sample_externals 0
     (task_with_content (bytes_of "Hello") [])
   = Some (tt, task_with_content (bytes_of "Hello") [])) /\
  (IS_PART_UTF sample_flags (part_with_content (bytes_of "Hello") []) = true ->
   forall c, content (part_with_content (bytes_of "Hello") []) = Some c ->
   let sel := detect_text_language_select
                (detect_text_language_scan sample_externals (length c) c
                   (gint (Z.of_nat (length c))) 0 (replicate (length language_codes) 0)) in
   (exists code name,
      language_rows !! sel = Some (code, name) /\
      detect_text_language sample_flags sample_externals 0
        (task_with_content (bytes_of "Hello") [])
      = Some (tt, set_text_parts
                    (<[0%nat := set_language (Some name)
                                 (set_lang_code (Some code)
                                    (set_script sel
                                       (part_with_content (bytes_of "Hello") [])))]>
                       (text_parts (task_with_content (bytes_of "Hello") [])))
                    (task_with_content (bytes_of "Hello") []))) /\
   (2 ^ 31 <= Z.of_nat (length c) < 2 ^ 32 -> sel = G_UNICODE_SCRIPT_COMMON)).
Proof.
  split; [reflexivity|].
  apply (detect_text_language_sets_row sample_flags sample_externals 0
           (task_with_content (bytes_of "Hello") [])
           (part_with_content (bytes_of "Hello") [])).
  reflexivity.
Defined.

(** ** Newlines and exceptions *)

Lemma newline_exceptions_fold (offs : list Z) (exs : list rspamd_process_exception) :
  foldl (fun exs off => mkEx off 0 RSPAMD_EXCEPTION_NEWLINE :: exs) exs offs
  = rev (map newline_exception offs) ++ exs.
Proof.
  revert exs. induction offs as [|off offs IH]; intros exs; [reflexivity|].
  cbn [foldl map rev]. rewrite IH, <- app_assoc. reflexivity.
Qed.

Section Normalize.

Variable K : flag_consts.
Variable X : externals.

(** X7.  [rspamd_normalize_text_part] stores the stripped text, the line
    count and the newline offsets the parser reports, and prepends one
    zero-length NEWLINE exception per offset, the last offset first; the
    exceptions that were there stay behind them, and the content is not
    touched. *)
Theorem normalize_text_part_exceptions (k : nat) (t : rspamd_task)
    (p : rspamd_mime_text_part) (c : list byte) :
  text_parts t !! k = Some p ->
  content p = Some c ->
  let r := rspamd_strip_newlines_parse X c (IS_PART_HTML K p) (nlines p) in
  exists p',
    rspamd_normalize_text_part K X k t
      = Some (tt, set_text_parts (<[k := p']> (text_parts t)) t) /\
    stripped_content p' = Some (fst (fst r)) /\
    nlines p' = snd (fst r) /\
    newlines p' = Some (snd r) /\
    exceptions p' = rev (map newline_exception (snd r)) ++ exceptions p /\
    content p' = Some c /\
    mime_part p' = mime_part p /\ tp_flags p' = tp_flags p.
Proof.
  intros Hp Hc. cbv zeta. unfold rspamd_normalize_text_part.
  rewrite (bind_eq _ _ _ _ _ (get_text_part_eq _ _ _ Hp)). rewrite Hc.
  unfold deref. unfold bind at 1. unfold ret at 1. cbv beta iota.
  destruct (rspamd_strip_newlines_parse X c (IS_PART_HTML K p) (nlines p))
    as [[stripped nl] offs].
  rewrite (update_text_part_eq _ _ _ _ Hp). eexists. split; [reflexivity|].
  cbn [fst snd]. repeat split; try assumption.
  cbn. apply newline_exceptions_fold.
Qed.

End Normalize.

(** X7 on a text of three lines: the newline parser reports the offsets
    1 and 2, and their exceptions go in front of the URL exception, the
    last one first. *)
Lemma normalize_text_part_exceptions_sample :
  text_parts three_lines_task !! 0%nat = Some three_lines_part /\
  content three_lines_part = Some three_lines /\
  snd (rspamd_strip_newlines_parse sample_externals three_lines
         (IS_PART_HTML sample_flags three_lines_part) (nlines three_lines_part)) = [1; 2] /\
  let p := three_lines_part in
  let r := rspamd_strip_newlines_parse sample_externals three_lines
             (IS_PART_HTML sample_flags p) (nlines p) in
  exists p',
    rspamd_normalize_text_part sample_flags sample_externals 0 three_lines_task
      = Some (tt, set_text_parts (<[0%nat := p']> (text_parts three_lines_task))
                    three_lines_task) /\
    stripped_content p' = Some (fst (fst r)) /\
    nlines p' = snd (fst r) /\
    newlines p' = Some (snd r) /\
    exceptions p' = rev (map newline_exception (snd r)) ++ exceptions p /\
    content p' = Some three_lines /\
    mime_part p' = mime_part p /\ tp_flags p' = tp_flags p.
Proof.
  split; [reflexivity|]. split; [reflexivity|]. split; [reflexivity|].
  apply (normalize_text_part_exceptions sample_flags sample_externals 0 three_lines_task);
    reflexivity.
Defined.

(** The exceptions of that part after the step. *)
Lemma normalize_three_lines :
  exists t' p',
    rspamd_normalize_text_part sample_flags sample_externals 0 three_lines_task
      = Some (tt, t') /\
    text_parts t' !! 0%nat = Some p' /\
    stripped_content p' = Some (bytes_of "abc") /\
    newlines p' = Some [1; 2] /\
    exceptions p' = [newline_exception 2; newline_exception 1;
                     mkEx 5 0 RSPAMD_EXCEPTION_URL].
Proof. eexists _, _. split; [vm_compute; reflexivity|]. repeat split. Qed.

(** Within 31 bits the cut to a [gint] changes nothing. *)
Lemma exceptions_compare_func_small (a b : rspamd_process_exception) :
  - 2 ^ 31 <= ex_pos a - ex_pos b < 2 ^ 31 ->
  exceptions_compare_func a b = ex_pos a - ex_pos b.
Proof.
  intros H. change (2 ^ 31) with 2147483648 in H.
  unfold exceptions_compare_func, gint.
  change (2 ^ 32) with 4294967296. change (2 ^ 31) with 2147483648.
  destruct (Z_lt_le_dec (ex_pos a - ex_pos b) 0) as [Hneg|Hpos].
  - replace ((ex_pos a - ex_pos b) mod 4294967296)
      with (ex_pos a - ex_pos b + 4294967296).
    + destruct (_ <? _) eqn:E; [apply Z.ltb_lt in E; lia | lia].
    + apply Z.mod_unique with (q := -1); lia.
  - rewrite Z.mod_small by lia.
    destruct (_ <? _) eqn:E; [lia | apply Z.ltb_ge in E; lia].
Qed.

(** X8.  [exceptions_compare_func] returns the difference of the two
    positions cut down to a [gint]: as long as the positions differ by less
    than 2^31 its sign is the order of the positions. *)
Theorem exceptions_compare_func_order (a b : rspamd_process_exception) :
  - 2 ^ 31 <= ex_pos a - ex_pos b < 2 ^ 31 ->
  exceptions_compare_func a b = ex_pos a - ex_pos b /\
  (exceptions_compare_func a b < 0 <-> ex_pos a < ex_pos b) /\
  (exceptions_compare_func a b = 0 <-> ex_pos a = ex_pos b) /\
  (0 < exceptions_compare_func a b <-> ex_pos b < ex_pos a).
Proof.
  intros H. rewrite (exceptions_compare_func_small a b H).
  split; [reflexivity|]. repeat split; lia.
Qed.

Lemma exceptions_compare_func_order_sample :
  - 2 ^ 31 <= ex_pos (newline_exception 3) - ex_pos (newline_exception 7) < 2 ^ 31 /\
  exceptions_compare_func (newline_exception 3) (newline_exception 7)
    = ex_pos (newline_exception 3) - ex_pos (newline_exception 7) /\
  (exceptions_compare_func (newline_exception 3) (newline_exception 7) < 0
     <-> ex_pos (newline_exception 3) < ex_pos (newline_exception 7)) /\
  (exceptions_compare_func (newline_exception 3) (newline_exception 7) = 0
     <-> ex_pos (newline_exception 3) = ex_pos (newline_exception 7)) /\
  (0 < exceptions_compare_func (newline_exception 3) (newline_exception 7)
     <-> ex_pos (newline_exception 7) < ex_pos (newline_exception 3)).
Proof.
  split; [vm_compute; split; [discriminate | reflexivity]|].
  apply exceptions_compare_func_order. vm_compute. split; [discriminate | reflexivity].
Defined.

Lemma g_list_sort_merge_nil_l {A} (cmp : A -> A -> Z) (l2 : list A) :
  g_list_sort_merge cmp [] l2 = l2.
Proof. destruct l2; reflexivity. Qed.

Lemma g_list_sort_merge_nil_r {A} (cmp : A -> A -> Z) (l1 : list A) :
  g_list_sort_merge cmp l1 [] = l1.
Proof. destruct l1; reflexivity. Qed.

Lemma g_list_sort_merge_cons {A} (cmp : A -> A -> Z) (a b : A) (l1 l2 : list A) :
  g_list_sort_merge cmp (a :: l1) (b :: l2)
  = if cmp a b <=? 0 then a :: g_list_sort_merge cmp l1 (b :: l2)
    else b :: g_list_sort_merge cmp (a :: l1) l2.
Proof. reflexivity. Qed.

Lemma g_list_sort_real_step {A} (fuel : nat) (a b : A) (l : list A) (cmp : A -> A -> Z) :
  g_list_sort_real (S fuel) (a :: b :: l) cmp
  = g_list_sort_merge cmp
      (g_list_sort_real fuel (take (length (a :: b :: l) / 2) (a :: b :: l)) cmp)
      (g_list_sort_real fuel (drop (length (a :: b :: l) / 2) (a :: b :: l)) cmp).
Proof. reflexivity. Qed.

Lemma g_list_sort_merge_perm {A} (cmp : A -> A -> Z) (l1 l2 : list A) :
  g_list_sort_merge cmp l1 l2 ≡ₚ l1 ++ l2.
Proof.
  revert l2. induction l1 as [|a l1 IH1]; intros l2.
  - now rewrite g_list_sort_merge_nil_l.
  - induction l2 as [|b l2 IH2].
    + now rewrite g_list_sort_merge_nil_r, app_nil_r.
    + rewrite g_list_sort_merge_cons. destruct (cmp a b <=? 0).
      * cbn. now rewrite IH1.
      * rewrite IH2. apply (Permutation_middle (a :: l1) l2 b).
Qed.

Lemma g_list_sort_real_perm {A} (cmp : A -> A -> Z) (fuel : nat) :
  forall l : list A, g_list_sort_real fuel l cmp ≡ₚ l.
Proof.
  induction fuel as [|fuel IH]; intros l; [reflexivity|].
  destruct l as [|a [|b l]]; [reflexivity | reflexivity|].
  rewrite g_list_sort_real_step, g_list_sort_merge_perm, !IH.
  now rewrite take_drop.
Qed.

(** The recursion ends by itself: the fuel given in [g_list_sort], the
    length of the list, is never what stops it. *)
Lemma g_list_sort_real_fuel {A} (cmp : A -> A -> Z) (fuel : nat) :
  forall l : list A,
    (length l <= fuel)%nat ->
    g_list_sort_real (S fuel) l cmp = g_list_sort_real fuel l cmp.
Proof.
  induction fuel as [|fuel IH]; intros l Hlen.
  - destruct l; [reflexivity | cbn in Hlen; lia].
  - destruct l as [|a [|b l]]; [reflexivity | reflexivity|].
    rewrite (g_list_sort_real_step (S fuel)), (g_list_sort_real_step fuel).
    set (l0 := a :: b :: l) in *.
    assert (Hhalf : (1 <= length l0 / 2 < length l0)%nat).
    { subst l0. cbn [length] in *.
      split; [apply Nat.div_le_lower_bound | apply Nat.Div0.div_lt_upper_bound]; lia. }
    rewrite !IH; [reflexivity | rewrite length_drop; lia | rewrite length_take; lia].
Qed.

Lemma g_list_sort_perm {A} (cmp : A -> A -> Z) (l : list A) : g_list_sort l cmp ≡ₚ l.
Proof. apply g_list_sort_real_perm. Qed.

(** Merging two lists of exceptions in the order of their positions gives
    one, as long as the positions fit in 31 bits. *)
Lemma merge_exceptions_sorted (l1 : list rspamd_process_exception) :
  forall l2,
    Forall (fun e => 0 <= ex_pos e < 2 ^ 31) (l1 ++ l2) ->
    StronglySorted by_position l1 ->
    StronglySorted by_position l2 ->
    StronglySorted by_position (g_list_sort_merge exceptions_compare_func l1 l2).
Proof.
  induction l1 as [|a l1 IH1]; intros l2 Hr H1 H2.
  - now rewrite g_list_sort_merge_nil_l.
  - induction l2 as [|b l2 IH2].
    + now rewrite g_list_sort_merge_nil_r.
    + rewrite g_list_sort_merge_cons.
      apply StronglySorted_inv in H1 as [H1 Ha].
      apply StronglySorted_inv in H2 as [H2 Hb].
      pose proof Hr as Hr'.
      cbn [app] in Hr'. apply Forall_cons in Hr' as [Hra Hr'].
      apply Forall_app in Hr' as [Hr1 Hr2]. apply Forall_cons in Hr2 as [Hrb Hr2].
      change (2 ^ 31) with 2147483648 in *.
      assert (E : exceptions_compare_func a b = ex_pos a - ex_pos b).
      { apply exceptions_compare_func_small. change (2 ^ 31) with 2147483648. lia. }
      rewrite E. destruct (_ <=? 0) eqn:Hle.
      * apply Z.leb_le in Hle. constructor.
        -- apply IH1; [|exact H1 | now constructor].
           apply Forall_app. split; [exact Hr1 | now constructor].
        -- rewrite g_list_sort_merge_perm. apply Forall_app. split; [exact Ha|].
           constructor; [unfold by_position; lia|].
           eapply Forall_impl; [exact Hb|]. unfold by_position. intros e He. lia.
      * apply Z.leb_gt in Hle. constructor.
        -- apply IH2; [|exact H2].
           cbn [app]. constructor; [exact Hra|]. apply Forall_app. split; assumption.
        -- rewrite g_list_sort_merge_perm. apply Forall_app. split; [|exact Hb].
           constructor; [unfold by_position; lia|].
           eapply Forall_impl; [exact Ha|]. unfold by_position. intros e He. lia.
Qed.

(** The recursion of [g_list_sort_real] on a list no longer than the fuel. *)
Lemma sort_exceptions_sorted (fuel : nat) :
  forall l : list rspamd_process_exception,
    (length l <= fuel)%nat ->
    Forall (fun e => 0 <= ex_pos e < 2 ^ 31) l ->
    StronglySorted by_position (g_list_sort_real fuel l exceptions_compare_func).
Proof.
  induction fuel as [|fuel IH]; intros l Hlen Hr.
  - destruct l; [constructor | cbn in Hlen; lia].
  - destruct l as [|a [|b l]]; [constructor | repeat constructor|].
    rewrite g_list_sort_real_step.
    set (l0 := a :: b :: l) in *.
    assert (Hhalf : (1 <= length l0 / 2 < length l0)%nat).
    { subst l0. cbn [length] in *.
      split; [apply Nat.div_le_lower_bound | apply Nat.Div0.div_lt_upper_bound]; lia. }
    apply merge_exceptions_sorted.
    + rewrite !g_list_sort_real_perm, take_drop. exact Hr.
    + apply IH; [rewrite length_take; lia | now apply Forall_take].
    + apply IH; [rewrite length_drop; lia | now apply Forall_drop].
Qed.

(** X9.  Sorting the exceptions of a part (lines 522-524) gives the same
    exceptions in the order of their positions, provided the positions fit
    in 31 bits. *)
Theorem exceptions_sorted_by_position (l : list rspamd_process_exception) :
  Forall (fun e => 0 <= ex_pos e < 2 ^ 31) l ->
  g_list_sort l exceptions_compare_func ≡ₚ l /\
  StronglySorted by_position (g_list_sort l exceptions_compare_func).
Proof.
  intros Hr. split; [apply g_list_sort_perm|].
  apply sort_exceptions_sorted; [lia | exact Hr].
Qed.

Lemma exceptions_sorted_by_position_sample :
  Forall (fun e => 0 <= ex_pos e < 2 ^ 31)
    [newline_exception 9; mkEx 4 2 RSPAMD_EXCEPTION_URL; newline_exception 1] /\
  g_list_sort [newline_exception 9; mkEx 4 2 RSPAMD_EXCEPTION_URL; newline_exception 1]
    exceptions_compare_func
    ≡ₚ [newline_exception 9; mkEx 4 2 RSPAMD_EXCEPTION_URL; newline_exception 1] /\
  StronglySorted by_position
    (g_list_sort [newline_exception 9; mkEx 4 2 RSPAMD_EXCEPTION_URL; newline_exception 1]
       exceptions_compare_func).
Proof.
  assert (H : Forall (fun e => 0 <= ex_pos e < 2 ^ 31)
    [newline_exception 9; mkEx 4 2 RSPAMD_EXCEPTION_URL; newline_exception 1]).
  { repeat constructor; vm_compute; try discriminate; reflexivity. }
  split; [exact H|].
  exact (exceptions_sorted_by_position _ H).
Defined.

(** ** Header lookup *)

(** A filter keeps every sublist whose elements all pass it. *)
Lemma sublist_filter_greatest {A} (P : A -> Prop) `{!forall x, Decision (P x)}
    (l' ar : list A) :
  l' `sublist_of` ar -> Forall P l' -> l' `sublist_of` filter P ar.
Proof.
  intros Hsub. induction Hsub as [|x l1 l2 Hsub IH|x l1 l2 Hsub IH]; intros Hall.
  - constructor.
  - apply Forall_cons in Hall as [Hx Hall].
    rewrite filter_cons_True by exact Hx. apply sublist_skip, IH, Hall.
  - rewrite filter_cons. destruct (decide (P x)); [apply sublist_cons|]; apply IH, Hall.
Qed.

(** X10.  [rspamd_message_get_header_from_hash] is NULL exactly when the
    table has nothing under the field.  Otherwise it is the array of the
    table itself, unless the lookup is strong and there is a pool: then it
    is the largest part of that array, in its order, whose entries all have
    a name equal to the field byte for byte: every such header is kept, as
    often as it occurs, and nothing else. *)
Theorem header_from_hash_lookup (htb : GHashTable) (pool : bool) (field : string)
    (strong : bool) :
  match htb field with
  | None => rspamd_message_get_header_from_hash htb pool field strong = None
  | Some ar =>
      exists l,
        rspamd_message_get_header_from_hash htb pool field strong = Some l /\
        l `sublist_of` ar /\
        (strong && pool = false -> l = ar) /\
        (strong && pool = true ->
           Forall (fun h => hdr_name h = field) l /\
           (forall h, h ∈ l <-> h ∈ ar /\ hdr_name h = field) /\
           forall l', l' `sublist_of` ar -> Forall (fun h => hdr_name h = field) l' ->
                      l' `sublist_of` l)
  end.
Proof.
  unfold rspamd_message_get_header_from_hash.
  destruct (htb field) as [ar|]; [|reflexivity].
  destruct (strong && pool) eqn:E.
  - eexists. split; [reflexivity|]. split; [apply sublist_filter; reflexivity|].
    split; [discriminate|]. intros _. split; [|split].
    + apply Forall_forall. intros h Hh. apply list_elem_of_filter in Hh. tauto.
    + intros h. rewrite list_elem_of_filter. tauto.
    + intros l' Hsub Hall. now apply sublist_filter_greatest.
  - exists ar. split; [reflexivity|]. split; [reflexivity|].
    split; [reflexivity | discriminate].
Qed.

(** A header that occurs twice under its own name is returned twice by a
    strong lookup, and the one filed under another spelling is left out. *)
Lemma header_from_hash_keeps_repeats :
  let a := mkHdr "Subject" "one" "one" in
  let b := mkHdr "subject" "two" "two" in
  rspamd_message_get_header_from_hash (fun _ => Some [a; b; a]) true "Subject" true
  = Some [a; a].
Proof. reflexivity. Qed.

Lemma mime_header_count (found : list (list rspamd_mime_header)) (n : Z) :
  0 <= n ->
  n + Z.of_nat (length (concat found)) < 2 ^ 32 ->
  foldl (fun nelems ar => guint (nelems + Z.of_nat (length ar))) n found
  = n + Z.of_nat (length (concat found)).
Proof.
  revert n. induction found as [|ar found IH]; intros n Hn Hlen; cbn [foldl concat].
  - cbn. lia.
  - cbn [concat] in Hlen. rewrite length_app in Hlen.
    rewrite guint_small by lia. rewrite IH by lia. rewrite length_app. lia.
Qed.

Lemma filter_concat_map {A} (P : A -> Prop) `{!forall x, Decision (P x)}
    (ls : list (list A)) :
  concat (map (filter P) ls) = filter P (concat ls).
Proof.
  induction ls as [|l ls IH]; [reflexivity|].
  cbn [map concat]. now rewrite filter_app, IH.
Qed.

(** X11.  [rspamd_message_get_mime_header_array] is NULL exactly when no
    part has a header under the field.  Otherwise it is the headers of all
    the parts in the order of the parts; a strong lookup keeps those whose
    name is equal to the field byte for byte, and may so return an empty
    array that is not NULL. *)
Theorem mime_header_array_all_parts (task : rspamd_task) (field : string)
    (strong : bool) :
  Z.of_nat (length (mime_headers task field)) < 2 ^ 32 ->
  rspamd_message_get_mime_header_array task field strong
  = match mime_headers task field with
    | [] => None
    | all =>
        Some (if strong then filter (fun cur => hdr_name cur = field) all else all)
    end.
Proof.
  unfold mime_headers, rspamd_message_get_mime_header_array. intros Hlen.
  set (found := omap (fun mp => mp_raw_headers mp field) (parts task)) in *.
  cbv zeta. rewrite mime_header_count by lia. rewrite Z.add_0_l.
  destruct (concat found) as [|h all] eqn:E; [reflexivity|].
  destruct (_ =? 0) eqn:Ez; [apply Z.eqb_eq in Ez; cbn in Ez; lia|].
  f_equal. destruct strong.
  - rewrite <- E. apply filter_concat_map.
  - rewrite <- E. f_equal. clear. induction found as [|l ls IH]; [reflexivity|].
    cbn. now rewrite IH.
Qed.

Lemma mime_header_array_all_parts_sample :
  Z.of_nat (length (mime_headers subject_parts_task "subject")) < 2 ^ 32 /\
  rspamd_message_get_mime_header_array subject_parts_task "subject" true
  = match mime_headers subject_parts_task "subject" with
    | [] => None
    | all =>
        Some (if true then filter (fun cur => hdr_name cur = "subject"%string) all else all)
    end.
Proof.
  split; [vm_compute; reflexivity|].
  apply (mime_header_array_all_parts subject_parts_task "subject" true).
  vm_compute. reflexivity.
Defined.

(** ** The GTUBE probe, in full *)

(** X12.  [rspamd_check_gtube] answers TRUE exactly when the part has a
    content of more than [sizeof (gtube_pattern)] = 69 and at most 4096
    bytes in which the pattern occurs; it then sets the SKIP and GTUBE flags
    and logs one line.  When it answers FALSE the task is left as it was. *)
Theorem check_gtube_spec (K : flag_consts) (t : rspamd_task) (k : nat)
    (p : rspamd_mime_text_part) :
  text_parts t !! k = Some p ->
  exists r t',
    rspamd_check_gtube K k t = Some (r, t') /\
    (r = true <->
       exists c, content p = Some c /\
         sizeof_gtube_pattern < Z.of_nat (length c) <= max_check_size /\
         occurs_in (bytes_of gtube_pattern) c) /\
    (r = false -> t' = t) /\
    (r = true -> t' = gtube_flagged K t).
Proof.
  intros Hp. unfold rspamd_check_gtube.
  rewrite (bind_eq _ _ _ _ _ (get_text_part_eq _ _ _ Hp)).
  destruct (content p) as [c|] eqn:Ec.
  - cbv zeta. pose proof (gtube_found_spec c) as Hspec. unfold gtube_found in Hspec.
    destruct ((sizeof_gtube_pattern <? Z.of_nat (length c)) &&
              (Z.of_nat (length c) <=? max_check_size)) eqn:Hsize; cbn [andb] in Hspec.
    + destruct (negb (rspamd_substring_search_twoway c (bytes_of gtube_pattern) =? -1))
        eqn:Hfound.
      * exists true, (gtube_flagged K t). split; [reflexivity|].
        split; [|split; [discriminate | reflexivity]].
        split; [intros _; exists c; split; [reflexivity | now apply Hspec] | reflexivity].
      * exists false, t. split; [reflexivity|].
        split; [|split; [reflexivity | discriminate]].
        split; [discriminate|]. intros (c' & [= <-] & Hc'). now apply Hspec.
    + exists false, t. split; [reflexivity|].
      split; [|split; [reflexivity | discriminate]].
      split; [discriminate|]. intros (c' & [= <-] & Hc'). now apply Hspec.
  - exists false, t. split; [reflexivity|].
    split; [|split; [reflexivity | discriminate]].
    split; [discriminate|]. intros (c' & [=] & _).
Qed.

Lemma check_gtube_spec_sample :
  text_parts (task_with_content gtube_sentence []) !! 0%nat
    = Some (part_with_content gtube_sentence []) /\
  exists r t',
    rspamd_check_gtube sample_flags 0 (task_with_content gtube_sentence []) = Some (r, t') /\
    (r = true <->
       exists c, content (part_with_content gtube_sentence []) = Some c /\
         sizeof_gtube_pattern < Z.of_nat (length c) <= max_check_size /\
         occurs_in (bytes_of gtube_pattern) c) /\
    (r = false -> t' = task_with_content gtube_sentence []) /\
    (r = true -> t' = gtube_flagged sample_flags (task_with_content gtube_sentence [])).
Proof.
  split; [reflexivity|].
  apply (check_gtube_spec sample_flags (task_with_content gtube_sentence []) 0).
  reflexivity.
Defined.

(** ** The message-id of a header *)

(** X13.  What lines 684-694 make of the decoded Message-ID: a text in
    angle brackets loses both; a text that opens with a bracket and does not
    end in one loses the opening bracket only; any other text is kept as it
    is, a closing bracket included. *)
Theorem message_id_of_header_cases :
  (forall s, message_id_of_header ("<" ++ s ++ ">") = s) /\
  (forall s, string_last s <> Some ">"%char -> message_id_of_header ("<" ++ s) = s) /\
  (forall s, (forall rest, s <> String "<"%char rest) -> message_id_of_header s = s).
Proof.
  split; [|split].
  - intros s.
    change ("<" ++ s ++ ">")%string with (String "<"%char (s ++ String ">"%char EmptyString)).
    unfold message_id_of_header.
    rewrite (string_last_app s ">"%char). cbv iota beta. apply string_init_app.
  - intros s Hs. change ("<" ++ s)%string with (String "<"%char s).
    unfold message_id_of_header.
    destruct (string_last s) as [c|]; [|reflexivity].
    destruct (Ascii.ascii_dec c ">"%char) as [->|Hne]; [congruence|].
    destruct c as [[] [] [] [] [] [] [] []]; try reflexivity. congruence.
  - intros s Hs. unfold message_id_of_header.
    destruct s as [|c s]; [reflexivity|].
    destruct (Ascii.ascii_dec c "<"%char) as [->|Hne]; [now specialize (Hs s)|].
    destruct c as [[] [] [] [] [] [] [] []]; try reflexivity. congruence.
Qed.

(** ** Words *)

(** X14.  Normalising a word never makes it longer: a stem replaces the
    word cut down to the length of the word, and lowering the case keeps the
    length.  The word gets a hash exactly when it is not empty afterwards,
    so a word whose stem is empty gets none. *)
Theorem extract_word_never_longer (X : externals) (utf : bool)
    (stem : option sb_stemmer) (w : rspamd_ftok_t) :
  let w' := fst (extract_word X utf stem w) in
  tok_len w' <= tok_len w /\
  (snd (extract_word X utf stem w) = None <-> tok_len w' <= 0) /\
  (forall s r, stem = Some s -> s w = Some r ->
     0 < tok_len w -> is_sentinel w = false ->
     tok_len w' = Z.min (Z.of_nat (length r)) (tok_len w) /\
     tok_begin w' = take (Z.to_nat (tok_len w')) r).
Proof.
  assert (Hh : forall (b : bool) (h : Z),
             (if b then Some h else None) = None <-> b = false).
  { intros [] h; split; congruence. }
  cbv zeta. unfold extract_word, is_sentinel. cbn [fst snd].
  set (r := match stem with Some s => s w | None => None end).
  destruct ((0 <? tok_len w) && negb ((tok_len w =? 6) && _)) eqn:Hnorm.
  - destruct r as [r'|] eqn:Er; cbn [tok_len tok_begin].
    + split; [lia|]. split.
      * rewrite Hh, Z.ltb_ge. reflexivity.
      * intros s r0 -> Hs _ _. subst r. rewrite Hs in Er. injection Er as ->.
        split; reflexivity.
    + split; [lia|]. split.
      * rewrite Hh, Z.ltb_ge. reflexivity.
      * intros s r0 -> Hs _ _. subst r. congruence.
  - split; [lia|]. split.
    + rewrite Hh, Z.ltb_ge. reflexivity.
    + intros s r0 _ _ Hpos Hsent. apply Z.ltb_lt in Hpos.
      rewrite Hpos, Hsent in Hnorm. discriminate.
Qed.

(** ** What the stages leave alone *)

Lemma keeps_ret {A B} (f : rspamd_task -> B) (a : A) : keeps f (ret a).
Proof. intros t a' t' [= _ <-]. reflexivity. Qed.

Lemma keeps_get {B} (f : rspamd_task -> B) : keeps f get.
Proof. intros t a' t' [= _ <-]. reflexivity. Qed.

Lemma keeps_fault {A B} (f : rspamd_task -> B) : keeps f (@fault A).
Proof. intros t a' t' [=]. Qed.

Lemma keeps_deref {A B} (f : rspamd_task -> B) (o : option A) : keeps f (deref o).
Proof. destruct o; [apply keeps_ret | apply keeps_fault]. Qed.

Lemma keeps_bind {A A' B} (f : rspamd_task -> B) (m : M A) (k : A -> M A') :
  keeps f m -> (forall a, keeps f (k a)) -> keeps f (bind m k).
Proof.
  intros Hm Hk t a' t' H. unfold bind in H.
  destruct (m t) as [[a t1]|] eqn:E; [|discriminate].
  rewrite (Hk a _ _ _ H). exact (Hm _ _ _ E).
Qed.

Lemma keeps_modify {B} (f : rspamd_task -> B) (g : rspamd_task -> rspamd_task) :
  (forall t, f (g t) = f t) -> keeps f (modify g).
Proof. intros Hg t a' t' [= _ <-]. apply Hg. Qed.

Lemma keeps_foreach {A B} (f : rspamd_task -> B) (l : list A)
    (body : nat -> A -> M unit) (i : nat) :
  (forall j a, keeps f (body j a)) -> keeps f (ptr_array_foreach i l body).
Proof.
  intros Hbody. revert i. induction l as [|a l IH]; intros i; cbn [ptr_array_foreach].
  - apply keeps_ret.
  - apply keeps_bind; [apply Hbody | intros _; apply IH].
Qed.

Lemma hoare_keeps {A B} (d : Prop) (f : rspamd_task -> B) (m : M A)
    (Q : A -> rspamd_task -> Prop) (t : rspamd_task) :
  keeps f m -> hoare d m Q t -> hoare d m (fun a t' => Q a t' /\ f t' = f t) t.
Proof.
  unfold hoare. intros Hk H. destruct (m t) as [[a t']|] eqn:E; [|exact H].
  split; [exact H | exact (Hk _ _ _ E)].
Qed.

Lemma hoare_partial {A} (m : M A) (t : rspamd_task) : hoare True m (fun _ _ => True) t.
Proof. unfold hoare. destruct (m t) as [[a t']|]; exact I. Qed.

Ltac keeps_step side :=
  lazymatch goal with
  | |- keeps _ (bind _ _) => apply keeps_bind; [|intros ?]
  | |- keeps _ get => apply keeps_get
  | |- keeps _ (ret _) => apply keeps_ret
  | |- keeps _ fault => apply keeps_fault
  | |- keeps _ (deref _) => apply keeps_deref
  | |- keeps _ (modify _) => apply keeps_modify; intros ?; side
  | |- keeps _ (log_msg _ _) => apply keeps_modify; intros ?; side
  | |- keeps _ (msg_err_task _) => apply keeps_modify; intros ?; side
  | |- keeps _ (msg_warn_task _) => apply keeps_modify; intros ?; side
  | |- keeps _ (msg_info_task _) => apply keeps_modify; intros ?; side
  | |- keeps _ (msg_debug_task _) => apply keeps_modify; intros ?; side
  | |- keeps _ (debug_task _) => apply keeps_modify; intros ?; side
  | |- keeps _ (get_text_part _) => unfold get_text_part
  | |- keeps _ (get_part _) => unfold get_part
  | |- keeps _ (update_text_part _ _) => unfold update_text_part
  | |- keeps _ (update_part _ _) => unfold update_part
  | |- keeps _ (g_ptr_array_add_text_part _) => unfold g_ptr_array_add_text_part
  | |- keeps _ (ptr_array_foreach _ _ _) => apply keeps_foreach; intros ? ?
  | |- keeps _ (match ?x with _ => _ end) => destruct x
  end.

Ltac keeps_auto := repeat keeps_step ltac:(reflexivity).

Section Kept.

Variable K : flag_consts.
Variable X : externals.
Variable k : nat.

Context {B : Type} (f : rspamd_task -> B).

(** [f] does not read the text part [k], the URLs or the log. *)
Hypothesis f_text_part :
  forall v t, f (set_text_parts (<[k := v]> (text_parts t)) t) = f t.
Hypothesis f_urls : forall v t, f (set_urls v t) = f t.
Hypothesis f_emails : forall v t, f (set_emails v t) = f t.
Hypothesis f_log : forall v t, f (set_log v t) = f t.

Ltac side :=
  repeat first [rewrite f_text_part | rewrite f_urls | rewrite f_emails | rewrite f_log];
  reflexivity.

Lemma detect_text_language_keeps : keeps f (detect_text_language K X k).
Proof. unfold detect_text_language. repeat keeps_step side. Qed.

Lemma normalize_text_part_keeps : keeps f (rspamd_normalize_text_part K X k).
Proof.
  unfold rspamd_normalize_text_part. keeps_step side. { repeat keeps_step side. }
  keeps_step side. { repeat keeps_step side. }
  destruct (rspamd_strip_newlines_parse X _ _ _) as [[stripped nl] offs].
  repeat keeps_step side.
Qed.

Lemma extract_words_keeps : keeps f (rspamd_extract_words K X k).
Proof.
  unfold rspamd_extract_words. do 3 (keeps_step side; [repeat keeps_step side|]).
  keeps_step side; [repeat keeps_step side|].
  cbv zeta. destruct (rspamd_tokenize_text X _ _ _ _); [|repeat keeps_step side].
  destruct (extract_words_loop X _ _ _). repeat keeps_step side.
Qed.

Lemma process_text_part_post_keeps : keeps f (process_text_part_post K X k).
Proof.
  unfold process_text_part_post.
  keeps_step side; [apply detect_text_language_keeps|].
  keeps_step side; [apply normalize_text_part_keeps|].
  keeps_step side; [repeat keeps_step side|].
  keeps_step side.
  { destruct (negb _); [|apply keeps_ret].
    keeps_step side; [apply keeps_get|].
    destruct (rspamd_url_text_extract X _ _) as [[u e] exs]. repeat keeps_step side. }
  keeps_step side; [repeat keeps_step side|].
  keeps_step side; [repeat keeps_step side|].
  apply extract_words_keeps.
Qed.

End Kept.

Section Stages.

Variable K : flag_consts.
Variable X : externals.

Ltac stage := repeat keeps_step ltac:(reflexivity).

Lemma images_archives_keeps : keeps core (message_parse_images_archives X).
Proof. unfold message_parse_images_archives. stage. Qed.

Lemma received_keeps : keeps core (message_parse_received K X).
Proof. unfold message_parse_received, message_parse_received_header. stage. Qed.

Lemma envelope_keeps : keeps core (message_parse_envelope X).
Proof. unfold message_parse_envelope. stage. Qed.

Lemma subject_urls_keeps : keeps core (message_parse_subject_urls X).
Proof. unfold message_parse_subject_urls. stage. Qed.

Lemma distance_keeps : keeps core (message_parse_distance K X).
Proof.
  unfold message_parse_distance, message_parse_publish_distance,
    rspamd_words_levenshtein_distance. stage.
Qed.

Lemma update_part_keeps (i : nat) (g : rspamd_mime_part -> rspamd_mime_part) :
  keeps core (update_part i g).
Proof. stage. Qed.

Lemma check_gtube_cases (k : nat) (t : rspamd_task) (b : bool) (t' : rspamd_task) :
  rspamd_check_gtube K k t = Some (b, t') ->
  (b = false /\ t' = t) \/ (b = true /\ t' = gtube_flagged K t).
Proof.
  unfold rspamd_check_gtube, bind, get_text_part, get, deref. cbn.
  destruct (text_parts t !! k) as [p|]; [|discriminate]. cbn.
  destruct (content p) as [c|]; [|intros [= <- <-]; now left].
  cbv zeta. destruct (_ && _); [|intros [= <- <-]; now left].
  destruct (negb _); intros [= <- <-]; [now right | now left].
Qed.

Lemma gtube_flagged_verdict (t t' : rspamd_task) (u : unit) :
  process_text_part_gtube X (gtube_flagged K t) = Some (u, t') ->
  queue_id t' = queue_id t /\ parts t' = parts t /\ text_parts t' = text_parts t /\
  gtube_verdict K t'.
Proof.
  unfold process_text_part_gtube, bind, get, modify. cbn.
  destruct (rspamd_create_metric_result X _); intros [= _ <-]; cbn;
    (repeat split;
     [apply flag_set_lor_l, flag_set_lor | apply flag_set_lor
     | apply elem_of_app; right; apply list_elem_of_here]).
Qed.

Lemma gtube_verdict_kept (t t' : rspamd_task) :
  verdict t' = verdict t -> gtube_verdict K t -> gtube_verdict K t'.
Proof. unfold verdict, gtube_verdict. intros [= -> -> ->]. tauto. Qed.

(** Lines 491-530 either keep what a verdict is read from or leave the
    GTUBE verdict; the queue id stays. *)
Lemma process_text_part_linked_verdict (i k : nat) (t : rspamd_task) :
  hoare True (process_text_part_linked K X i k)
    (fun _ t' => queue_id t' = queue_id t /\
                 (verdict t' = verdict t \/ gtube_verdict K t')) t.
Proof.
  unfold process_text_part_linked, hoare.
  destruct (bind _ _ t) as [[u t']|] eqn:E; [|exact I].
  unfold bind at 1 in E.
  destruct (update_part i _ t) as [[u1 t1]|] eqn:E1; [|discriminate].
  assert (H1 : core t1 = core t).
  { revert E1. apply update_part_keeps. }
  unfold bind in E.
  destruct (rspamd_check_gtube K k t1) as [[b t2]|] eqn:E2; [|discriminate].
  apply check_gtube_cases in E2 as [[-> ->]|[-> ->]].
  - assert (H2 : core t' = core t1).
    { revert E. apply process_text_part_post_keeps; reflexivity. }
    unfold core in H1, H2. split; [congruence | left; congruence].
  - apply gtube_flagged_verdict in E as (Hq & _ & _ & Hg).
    unfold core in H1. split; [congruence | now right].
Qed.

Lemma verdict_inv_core (t0 t' : rspamd_task) : core t' = core t0 -> verdict_inv K t0 t'.
Proof. unfold core. intros H. split; [|left]; congruence. Qed.

Lemma verdict_inv_trans (t0 t1 t2 : rspamd_task) :
  verdict_inv K t0 t1 -> verdict_inv K t1 t2 -> verdict_inv K t0 t2.
Proof.
  intros [Hq1 Hv1] [Hq2 Hv2]. split; [congruence|].
  destruct Hv2 as [Hv2|Hg]; [|now right].
  destruct Hv1 as [Hv1|Hg]; [left; congruence | right].
  eapply gtube_verdict_kept; eassumption.
Qed.

Lemma process_text_part_verdict (i : nat) (t : rspamd_task) :
  hoare True (rspamd_message_process_text_part K X i) (fun _ t' => verdict_inv K t t') t.
Proof.
  unfold rspamd_message_process_text_part.
  unfold get_part. hstep. hstep. hstep. apply hoare_deref.
  destruct (parts t !! i) as [m|]; [|exact I].
  hstep. hstep. hstep.
  - hstep. apply verdict_inv_core. reflexivity.
  - apply hoare_bind, hoare_deref. destruct (ct m) as [c|]; [|exact I].
    destruct (is_html_subtype X c).
    + destruct (_ =? 0).
      * unfold g_ptr_array_add_text_part. repeat hstep. apply verdict_inv_core. reflexivity.
      * destruct (rspamd_mime_text_part_maybe_convert X _ _) as [pc fl].
        unfold g_ptr_array_add_text_part. repeat (hstep; cbv beta zeta).
        eapply hoare_mono; [|apply process_text_part_linked_verdict].
        intros u t' H'. eapply verdict_inv_trans; [|exact H'].
        apply verdict_inv_core. reflexivity.
    + destruct (_ =? 0).
      * unfold g_ptr_array_add_text_part. repeat hstep. apply verdict_inv_core. reflexivity.
      * destruct (rspamd_mime_text_part_maybe_convert X _ _) as [pc fl].
        unfold g_ptr_array_add_text_part. repeat (hstep; cbv beta zeta).
        eapply hoare_mono; [|apply process_text_part_linked_verdict].
        intros u t' H'. eapply verdict_inv_trans; [|exact H'].
        apply verdict_inv_core. reflexivity.
Qed.

Lemma message_parse_parts_verdict (fuel i : nat) (t0 t : rspamd_task) :
  verdict_inv K t0 t ->
  hoare True (message_parse_parts K X fuel i) (fun _ t' => verdict_inv K t0 t') t.
Proof.
  revert i t. induction fuel as [|fuel IH]; intros i t H0; cbn [message_parse_parts].
  - exact H0.
  - hstep. hstep. destruct (parts t !! i) as [part|]; [|hstep; exact H0].
    hstep. eapply hoare_mono with (Q := fun _ t' => verdict_inv K t0 t').
    + intros u t' H'. apply IH, H'.
    + destruct (IS_CT_TEXT K (ct part)); [|hstep; exact H0].
      eapply hoare_mono; [|apply process_text_part_verdict].
      intros u t' H'. eapply verdict_inv_trans; eassumption.
Qed.

Lemma message_id_keeps : keeps core message_parse_message_id.
Proof. unfold message_parse_message_id. stage. Qed.

Lemma subject_sets_queue_id (t : rspamd_task) :
  hoare True message_parse_subject
    (fun _ t' => verdict t' = verdict t /\ is_Some (queue_id t')) t.
Proof.
  unfold message_parse_subject.
  hstep. hstep. hstep.
  eapply hoare_mono with (Q := fun _ t' => core t' = core t).
  - intros u t1 H1. cbv beta.
    assert (Hv : verdict t1 = verdict t) by (unfold core in H1; congruence).
    hstep. hstep. hstep. hstep. destruct (queue_id _) eqn:Eq.
    + hstep. split; [exact Hv | cbn in Eq; cbn; eauto].
    + hstep. split; [exact Hv | cbn; eauto].
  - destruct (subject t); [hstep; reflexivity|].
    destruct (rspamd_message_get_header_array t "Subject" false); [|hstep; reflexivity].
    hstep. apply hoare_deref. destruct (l !! 0%nat); [|exact I].
    hstep. reflexivity.
Qed.

Lemma digest_logs_queue_id (st : list byte) (t : rspamd_task) :
  is_Some (queue_id t) ->
  hoare True (message_parse_digest X st)
    (fun _ t' => core t' = core t /\ last (log t') = Some loaded_message_line) t.
Proof.
  intros [q Hq]. unfold message_parse_digest. hstep. hstep. hstep. hstep.
  cbn [queue_id]. rewrite Hq. hstep. split; [reflexivity|].
  cbn. apply last_snoc.
Qed.

(** Lines 673-958, as far as the queue id, the log and the verdict go. *)
Lemma message_parse_rest_verdict (st : list byte) (t : rspamd_task) :
  hoare True (message_parse_rest K X st)
    (fun r t' => r = true /\ is_Some (queue_id t') /\
                 last (log t') = Some loaded_message_line /\
                 (verdict t' = verdict t \/ gtube_verdict K t')) t.
Proof.
  unfold message_parse_rest.
  hstep. eapply hoare_mono;
    [|apply (hoare_keeps True core _ (fun _ _ => True) t message_id_keeps), hoare_partial].
  intros u1 t1 [_ H1]. cbv beta.
  hstep. eapply hoare_mono; [|apply subject_sets_queue_id].
  intros u2 t2 [Hv2 Hq2]. cbv beta.
  hstep. hstep. hstep.
  eapply hoare_mono; [|apply (message_parse_parts_verdict _ _ t2 t2), verdict_inv_core; reflexivity].
  intros u3 t3 H3. cbv beta.
  assert (Hkeep : forall (m : M unit) (t4 : rspamd_task) (Q : unit -> rspamd_task -> Prop),
             keeps core m -> verdict_inv K t2 t4 ->
             (forall t5, verdict_inv K t2 t5 -> Q tt t5) -> hoare True m Q t4).
  { intros m t4 Q Hk H4 HQ. unfold hoare. destruct (m t4) as [[[] t5]|] eqn:E; [|exact I].
    apply HQ. eapply verdict_inv_trans; [exact H4|].
    apply verdict_inv_core. exact (Hk _ _ _ E). }
  hstep. apply Hkeep; [apply images_archives_keeps | exact H3|]. intros t4 H4.
  hstep. apply Hkeep; [apply received_keeps | exact H4|]. intros t5 H5.
  hstep. apply Hkeep; [apply envelope_keeps | exact H5|]. intros t6 H6.
  hstep. apply Hkeep; [apply subject_urls_keeps | exact H6|]. intros t7 H7.
  hstep. apply Hkeep; [apply distance_keeps | exact H7|]. intros t8 [Hq8 Hv8].
  hstep. eapply hoare_mono; [|apply digest_logs_queue_id; rewrite Hq8; exact Hq2].
  intros u9 t9 [H9 Hlog]. cbv beta. hstep. unfold core in H9, H1.
  assert (Hq9 : queue_id t9 = queue_id t8) by congruence.
  assert (Hvd9 : verdict t9 = verdict t8) by congruence.
  assert (Hvd1 : verdict t1 = verdict t) by congruence.
  split; [reflexivity|]. split; [rewrite Hq9, Hq8; exact Hq2|]. split; [exact Hlog|].
  destruct Hv8 as [Hv8|Hg]; [left; congruence | right].
  eapply gtube_verdict_kept; eassumption.
Qed.

Lemma parse_run (t : rspamd_task) (r : bool) (t' : rspamd_task) :
  RSPAMD_TASK_IS_EMPTY K t = false ->
  rspamd_message_parse K X t = Some (r, t') ->
  exists p t0 r1 t1,
    message_parse_start K t = Some (p, t0) /\
    message_parse_mime K X p t0 = Some (r1, t1) /\
    (if r1 then message_parse_rest K X (rspamd_cryptobox_hash_init X) t1 = Some (r, t')
     else r = false /\ t' = t1).
Proof.
  intros Hne H. unfold rspamd_message_parse in H. unfold bind at 1 in H. cbn [get] in H.
  rewrite Hne in H. unfold bind at 1 in H.
  destruct (message_parse_start K t) as [[p t0]|] eqn:Es; [|discriminate].
  unfold bind at 1 in H.
  destruct (message_parse_mime K X p t0) as [[r1 t1]|] eqn:Em; [|discriminate].
  exists p, t0, r1, t1. split; [reflexivity|]. split; [exact Em|].
  destruct r1; [exact H | injection H as <- <-; now split].
Qed.

(** X15.  After a parse that succeeds on a task that is not empty the
    queue id is never NULL, so the log always ends with the line that names
    it: the other closing line (line 952) is never the one written. *)
Theorem parse_leaves_queue_id (t t' : rspamd_task) :
  RSPAMD_TASK_IS_EMPTY K t = false ->
  rspamd_message_parse K X t = Some (true, t') ->
  (exists q, queue_id t' = Some q) /\
  last (log t') = Some loaded_message_line.
Proof.
  intros Hne H. apply parse_run in H as (p & t0 & r1 & t1 & _ & _ & H); [|exact Hne].
  destruct r1; [|destruct H as [[=] _]].
  pose proof (message_parse_rest_verdict (rspamd_cryptobox_hash_init X) t1) as Hr.
  unfold hoare in Hr. rewrite H in Hr. destruct Hr as (_ & Hq & Hlog & _).
  split; [exact Hq | exact Hlog].
Qed.

(** X16.  [rspamd_message_parse] passes no verdict of its own but the GTUBE
    one: from the task the MIME stage leaves, the flags, the pre-result and
    the symbols either come out as they were, or the task is flagged SKIP
    and GTUBE, its pre-result is the rejection "Gtube pattern" and the GTUBE
    symbol is among its symbols. *)
Theorem parse_rejects_only_gtube (t : rspamd_task) (r : bool) (t' : rspamd_task) :
  RSPAMD_TASK_IS_EMPTY K t = false ->
  rspamd_message_parse K X t = Some (r, t') ->
  exists p t0 t1,
    message_parse_start K t = Some (p, t0) /\
    message_parse_mime K X p t0 = Some (r, t1) /\
    (verdict t' = verdict t1 \/ gtube_verdict K t').
Proof.
  intros Hne H. apply parse_run in H as (p & t0 & r1 & t1 & Hs & Hm & H); [|exact Hne].
  exists p, t0, t1. split; [exact Hs|]. destruct r1.
  - pose proof (message_parse_rest_verdict (rspamd_cryptobox_hash_init X) t1) as Hr.
    unfold hoare in Hr. rewrite H in Hr. destruct Hr as (-> & _ & _ & Hv).
    split; [exact Hm | exact Hv].
  - destruct H as [-> ->]. split; [exact Hm | now left].
Qed.

End Stages.

Lemma parse_leaves_queue_id_sample :
  exists t',
    RSPAMD_TASK_IS_EMPTY sample_flags hello_task = false /\
    rspamd_message_parse sample_flags sample_externals hello_task = Some (true, t') /\
    (exists q, queue_id t' = Some q) /\
    last (log t') = Some loaded_message_line.
Proof.
  eexists. split; [reflexivity|]. split; [vm_compute; reflexivity|].
  apply (parse_leaves_queue_id sample_flags sample_externals hello_task).
  - reflexivity.
  - vm_compute. reflexivity.
Defined.

Lemma parse_rejects_only_gtube_sample :
  exists t',
    RSPAMD_TASK_IS_EMPTY sample_flags (gtube_message gtube_sentence) = false /\
    rspamd_message_parse sample_flags sample_externals (gtube_message gtube_sentence)
      = Some (true, t') /\
    exists p t0 t1,
      message_parse_start sample_flags (gtube_message gtube_sentence) = Some (p, t0) /\
      message_parse_mime sample_flags sample_externals p t0 = Some (true, t1) /\
      (verdict t' = verdict t1 \/ gtube_verdict sample_flags t').
Proof.
  eexists. split; [reflexivity|]. split; [vm_compute; reflexivity|].
  apply (parse_rejects_only_gtube sample_flags sample_externals
           (gtube_message gtube_sentence)).
  - reflexivity.
  - vm_compute. reflexivity.
Defined.

(** ** The text part and its MIME part *)

Section Linked.

Variable K : flag_consts.
Variable X : externals.

Lemma check_gtube_keeps {B} (f : rspamd_task -> B) (k : nat) :
  (forall v t, f (set_task_flags v t) = f t) ->
  (forall v t, f (set_log v t) = f t) ->
  keeps f (rspamd_check_gtube K k).
Proof.
  intros Hf Hl. unfold rspamd_check_gtube.
  repeat keeps_step ltac:(rewrite ?Hf, ?Hl; reflexivity).
Qed.

Lemma process_text_part_gtube_keeps {B} (f : rspamd_task -> B) :
  (forall v t, f (set_metric_res v t) = f t) ->
  (forall v t, f (set_pre_result v t) = f t) ->
  (forall v t, f (set_messages v t) = f t) ->
  (forall v t, f (set_symbols v t) = f t) ->
  keeps f (process_text_part_gtube X).
Proof.
  intros H1 H2 H3 H4. unfold process_text_part_gtube.
  repeat keeps_step ltac:(rewrite ?H1, ?H2, ?H3, ?H4; reflexivity).
Qed.

(** Lines 494-530 touch no MIME part, no text part but [k], and not the
    configuration. *)
Lemma after_link_keeps (k : nat) :
  keeps (fun t => (parts t, take k (text_parts t), cfg t))
        (found <- rspamd_check_gtube K k ;;
         if found then process_text_part_gtube X else process_text_part_post K X k).
Proof.
  apply keeps_bind; [apply check_gtube_keeps; reflexivity|].
  intros []; [apply process_text_part_gtube_keeps; reflexivity|].
  apply process_text_part_post_keeps; try reflexivity.
  intros v t. cbn. do 2 f_equal. apply take_insert_ge. lia.
Qed.

Lemma process_text_part_linked_spec (i k : nat) (t : rspamd_task) (m : rspamd_mime_part)
    (p : rspamd_mime_text_part) :
  parts t !! i = Some m ->
  text_parts t = take k (text_parts t) ++ [p] ->
  length (take k (text_parts t)) = k ->
  is_Some (content p) ->
  exists t' p',
    process_text_part_linked K X i k t = Some (tt, t') /\
    parts t' = <[i := linked_part K k m]> (parts t) /\
    text_parts t' = take k (text_parts t) ++ [p'] /\
    mime_part p' = mime_part p /\
    cfg t' = cfg t.
Proof.
  intros Hm Htp Hk Hc.
  assert (Hp : text_parts t !! k = Some p).
  { rewrite Htp. rewrite lookup_app_r by lia. rewrite Hk, Nat.sub_diag. reflexivity. }
  destruct (hoare_total _ _ _
    (process_text_part_linked_kept K X False i k t t m Hm (same_links_refl t)
       (ex_intro _ p (conj Hp Hc)))) as (u & t' & Hrun & Hlinks).
  destruct u. exists t'.
  pose proof Hrun as Hrun'. unfold process_text_part_linked in Hrun'.
  rewrite (bind_eq _ _ _ _ _ (update_part_eq _ _ _ _ Hm)) in Hrun'.
  apply after_link_keeps in Hrun'. cbn in Hrun'. injection Hrun' as Hparts Htake Hcfg.
  destruct Hlinks as (_ & _ & _ & Hmp).
  assert (Hlen : length (text_parts t') = S k).
  { rewrite <- (length_map mime_part), Hmp, length_map, Htp, length_app, Hk. cbn. lia. }
  destruct (lookup_lt_is_Some_2 (text_parts t') k) as [p' Hp']; [lia|].
  exists p'. split; [exact Hrun|]. split; [exact Hparts|]. split; [|split; [|exact Hcfg]].
  - rewrite <- Htake. rewrite <- (take_drop k (text_parts t')) at 1. f_equal.
    apply list_eq. intros j. rewrite lookup_drop. destruct j as [|j]; cbn.
    + now rewrite Nat.add_0_r.
    + apply lookup_ge_None_2. lia.
  - assert (H : map mime_part (text_parts t') !! k = map mime_part (text_parts t) !! k)
      by now rewrite Hmp.
    rewrite !list_lookup_fmap, Hp, Hp' in H. cbn in H. congruence.
Qed.

(** Lines 465/487-530: a text part with a content is put in [text_parts]
    and linked with its MIME part. *)
Lemma added_text_part_is_linked (i : nat) (t t1 : rspamd_task) (m : rspamd_mime_part)
    (p0 : rspamd_mime_text_part) :
  parts t !! i = Some m ->
  parts t1 = parts t -> text_parts t1 = text_parts t -> cfg t1 = cfg t ->
  mime_part p0 = Some i -> is_Some (content p0) ->
  exists t' p,
    (k <- g_ptr_array_add_text_part p0 ;; process_text_part_linked K X i k) t1
      = Some (tt, t') /\
    text_parts t' = text_parts t ++ [p] /\
    mime_part p = Some i /\
    parts t' = <[i := linked_part K (length (text_parts t)) m]> (parts t) /\
    cfg t' = cfg t.
Proof.
  intros Hm Hps Htps Hcfg Hmp Hcont.
  rewrite (bind_eq _ _ _ _ _ (add_text_part_eq p0 t1)). rewrite Htps.
  set (kk := length (text_parts t)).
  set (t2 := set_text_parts (text_parts t ++ [p0]) t1).
  assert (Htake : take kk (text_parts t2) = text_parts t).
  { subst t2 kk. cbn. now rewrite take_app_length. }
  destruct (process_text_part_linked_spec i kk t2 m p0)
    as (t' & p' & Hrun & Hpar & Htp & Hmp' & Hcfg').
  - subst t2. cbn. now rewrite Hps.
  - rewrite Htake. reflexivity.
  - now rewrite Htake.
  - exact Hcont.
  - exists t', p'. split; [exact Hrun|]. rewrite Htake in Htp.
    split; [exact Htp|]. split; [congruence|]. split.
    + rewrite Hpar. subst t2. cbn. now rewrite Hps.
    + rewrite Hcfg'. subst t2. cbn. exact Hcfg.
Qed.

(** A text part that is not skipped gets one text part, whether it is
    empty or not. *)
Lemma process_text_part_run (i : nat) (t : rspamd_task) (m : rspamd_mime_part)
    (c : rspamd_content_type) :
  parts t !! i = Some m ->
  ct m = Some c ->
  skipped_as_attachment t m = false ->
  exists t' p,
    rspamd_message_process_text_part K X i t = Some (tt, t') /\
    text_parts t' = text_parts t ++ [p] /\
    mime_part p = Some i /\
    cfg t' = cfg t /\
    parts t' = match parsed_data m with
               | [] => parts t
               | _ :: _ => <[i := linked_part K (length (text_parts t)) m]> (parts t)
               end.
Proof.
  intros Hm Hc Hskip.
  unfold rspamd_message_process_text_part.
  rewrite (bind_eq _ _ _ _ _ (get_part_eq _ _ _ Hm)).
  unfold bind at 1. cbn [get]. fold (skipped_as_attachment t m). rewrite Hskip.
  rewrite Hc. unfold deref. unfold bind at 1. unfold ret at 1. cbv beta iota.
  destruct (parsed_data m) as [|b data] eqn:Edata.
  - cbn [length]. change (Z.of_nat 0 =? 0) with true. cbv iota.
    destruct (is_html_subtype X c);
      rewrite (bind_eq _ _ _ _ _ (add_text_part_eq _ t));
      eexists _, _; (split; [reflexivity|]); repeat split.
  - assert (Hlen : (Z.of_nat (length (b :: data)) =? 0) = false).
    { apply Z.eqb_neq. cbn [length]. lia. }
    rewrite Hlen.
    destruct (is_html_subtype X c).
    + destruct (rspamd_mime_text_part_maybe_convert X t _) as [pc fl].
      cbv zeta. unfold bind at 1. unfold modify at 1.
      match goal with
      | |- exists t' p, bind (g_ptr_array_add_text_part ?p0) _ ?t1 = _ /\ _ =>
          destruct (added_text_part_is_linked i t t1 m p0 Hm)
            as (t' & p & Hrun & Htp & Hmp & Hpar & Hcfg); try reflexivity
      end.
      * destruct (Z.of_nat (length (hr_content _)) =? 0); reflexivity.
      * destruct (Z.of_nat (length (hr_content _)) =? 0); cbn; eauto.
      * exists t', p. split; [exact Hrun|]. repeat split; assumption.
    + destruct (rspamd_mime_text_part_maybe_convert X t _) as [pc fl].
      cbv zeta.
      match goal with
      | |- exists t' p, bind (g_ptr_array_add_text_part ?p0) _ ?t1 = _ /\ _ =>
          destruct (added_text_part_is_linked i t t1 m p0 Hm)
            as (t' & p & Hrun & Htp & Hmp & Hpar & Hcfg); try reflexivity
      end.
      * cbn. eauto.
      * exists t', p. split; [exact Hrun|]. repeat split; assumption.
Qed.

(** X17.  A text part that is not empty and not skipped as an attachment
    ends up linked both ways: one text part is appended to [text_parts], the
    ones before it are not touched, it points back to the MIME part [i], and
    the MIME part [i] - and no other - is changed, to carry the TEXT flag and
    point to the new text part. *)
Theorem text_part_is_linked_both_ways (i : nat) (t : rspamd_task) (m : rspamd_mime_part)
    (c : rspamd_content_type) :
  parts t !! i = Some m ->
  ct m = Some c ->
  skipped_as_attachment t m = false ->
  parsed_data m <> [] ->
  exists t' p,
    rspamd_message_process_text_part K X i t = Some (tt, t') /\
    text_parts t' = text_parts t ++ [p] /\
    mime_part p = Some i /\
    parts t' = <[i := linked_part K (length (text_parts t)) m]> (parts t) /\
    specific_txt (linked_part K (length (text_parts t)) m) = Some (length (text_parts t)) /\
    flag_set (mp_flags (linked_part K (length (text_parts t)) m)) (RSPAMD_MIME_PART_TEXT K).
Proof.
  intros Hm Hc Hskip Hdata.
  destruct (process_text_part_run i t m c Hm Hc Hskip) as (t' & p & Hrun & Htp & Hmp & _ & Hpar).
  exists t', p. split; [exact Hrun|]. split; [exact Htp|]. split; [exact Hmp|].
  split; [|split; [reflexivity | apply flag_set_lor]].
  destruct (parsed_data m); [congruence | exact Hpar].
Qed.

Lemma text_part_sources_ext (t t' : rspamd_task) (ps ps' : list rspamd_mime_part) :
  cfg t' = cfg t -> map part_key ps' = map part_key ps ->
  forall i, text_part_sources K t' i ps' = text_part_sources K t i ps.
Proof.
  intros Hcfg. revert ps'. induction ps as [|m ps IH]; intros [|m' ps'] Hk i;
    try discriminate; [reflexivity|].
  cbn in Hk. injection Hk as Hct Hcd Hrest. cbn [text_part_sources].
  rewrite (IH ps' Hrest). f_equal.
  unfold makes_text_part, skipped_as_attachment, is_attachment. now rewrite Hct, Hcd, Hcfg.
Qed.

Lemma part_key_insert (i k : nat) (ps : list rspamd_mime_part) (m : rspamd_mime_part) :
  ps !! i = Some m ->
  map part_key (<[i := linked_part K k m]> ps) = map part_key ps.
Proof.
  intros Hm. rewrite list_fmap_insert. apply list_insert_id.
  rewrite list_lookup_fmap, Hm. reflexivity.
Qed.

Lemma message_parse_parts_spec (fuel : nat) :
  forall (i : nat) (t : rspamd_task),
    (length (parts t) <= i + fuel)%nat ->
    exists t',
      message_parse_parts K X fuel i t = Some (tt, t') /\
      cfg t' = cfg t /\
      map part_key (parts t') = map part_key (parts t) /\
      map mime_part (text_parts t')
        = map mime_part (text_parts t)
          ++ map Some (text_part_sources K t i (drop i (parts t))).
Proof.
  induction fuel as [|fuel IH]; intros i t Hlen.
  - exists t. split; [reflexivity|]. split; [reflexivity|]. split; [reflexivity|].
    rewrite drop_ge by lia. cbn. now rewrite app_nil_r.
  - cbn [message_parse_parts]. unfold bind at 1. cbn [get].
    destruct (parts t !! i) as [m|] eqn:Em.
    + rewrite (drop_S _ _ _ Em). cbn [text_part_sources]. unfold makes_text_part.
      destruct (IS_CT_TEXT K (ct m)) eqn:Ect; cbn [andb].
      * destruct (IS_CT_TEXT_Some K _ Ect) as [c Hc].
        destruct (skipped_as_attachment t m) eqn:Eskip; cbn [negb].
        -- assert (Hrun : rspamd_message_process_text_part K X i t
                          = Some (tt, set_log (log t ++
                              [mkLog LOG_DEBUG "skip attachments for checking as text parts"]) t)).
           { unfold rspamd_message_process_text_part.
             rewrite (bind_eq _ _ _ _ _ (get_part_eq _ _ _ Em)).
             unfold bind at 1. cbn [get]. fold (skipped_as_attachment t m).
             now rewrite Eskip. }
           rewrite (bind_eq _ _ _ _ _ Hrun).
           destruct (IH (S i) (set_log (log t ++
                      [mkLog LOG_DEBUG "skip attachments for checking as text parts"]) t))
             as (t' & Hloop & Hcfg & Hkeys & Htp); [cbn; lia|].
           exists t'. split; [exact Hloop|]. split; [exact Hcfg|]. split; [exact Hkeys|].
           rewrite Htp. cbn [text_parts parts set_log app]. f_equal. f_equal.
           apply text_part_sources_ext; reflexivity.
        -- destruct (process_text_part_run i t m c Em Hc Eskip)
             as (t1 & p & Hrun & Htp1 & Hmp & Hcfg1 & Hpar1).
           rewrite (bind_eq _ _ _ _ _ Hrun).
           assert (Hkeys1 : map part_key (parts t1) = map part_key (parts t)).
           { rewrite Hpar1. destruct (parsed_data m); [reflexivity|].
             now apply part_key_insert. }
           destruct (IH (S i) t1) as (t' & Hloop & Hcfg & Hkeys & Htp).
           { rewrite <- (length_map part_key), Hkeys1, length_map. lia. }
           exists t'. split; [exact Hloop|]. split; [congruence|]. split; [congruence|].
           rewrite Htp, Htp1, map_app, <- app_assoc. cbn [map app]. rewrite Hmp.
           do 3 f_equal. apply text_part_sources_ext; [exact Hcfg1|].
           rewrite !fmap_drop. f_equal. exact Hkeys1.
      * unfold bind at 1. cbn [ret].
        destruct (IH (S i) t) as (t' & Hloop & Hcfg & Hkeys & Htp); [lia|].
        exists t'. split; [exact Hloop|]. split; [exact Hcfg|]. split; [exact Hkeys|].
        exact Htp.
    + apply lookup_ge_None_1 in Em. exists t.
      split; [reflexivity|]. split; [reflexivity|]. split; [reflexivity|].
      rewrite drop_ge by lia. cbn. now rewrite app_nil_r.
Qed.

(** The loop from the first part on. *)
Lemma parts_loop_text_parts (t : rspamd_task) :
  exists t',
    message_parse_parts K X (length (parts t)) 0 t = Some (tt, t') /\
    map mime_part (text_parts t')
      = map mime_part (text_parts t) ++ map Some (text_part_sources K t 0 (parts t)).
Proof.
  destruct (message_parse_parts_spec (length (parts t)) 0 t) as (t' & Hrun & _ & _ & Htp);
    [lia|].
  exists t'. split; [exact Hrun|]. rewrite Htp. now rewrite drop_0.
Qed.

(** X22.  The loop over [parts] (lines 715-723) never fails and gives
    every MIME part that is text and not skipped as an attachment exactly
    one text part, appended in the order of the parts and pointing back to
    its MIME part; the other parts get none.  The number, the content types
    and the dispositions of the MIME parts stay as they were. *)
Theorem parts_loop_builds_text_parts (t : rspamd_task) :
  exists t',
    message_parse_parts K X (length (parts t)) 0 t = Some (tt, t') /\
    map mime_part (text_parts t')
      = map mime_part (text_parts t) ++ map Some (text_part_sources K t 0 (parts t)) /\
    map part_key (parts t') = map part_key (parts t).
Proof.
  destruct (message_parse_parts_spec (length (parts t)) 0 t) as (t' & Hrun & _ & Hk & Htp);
    [lia|].
  exists t'. split; [exact Hrun|]. split; [|exact Hk].
  rewrite Htp. now rewrite drop_0.
Qed.

End Linked.

Lemma text_part_is_linked_both_ways_sample :
  parts gtube_task !! 0%nat = Some (sample_leaf gtube_sentence) /\
  ct (sample_leaf gtube_sentence) = Some (sample_ct "text" "plain" 4) /\
  skipped_as_attachment gtube_task (sample_leaf gtube_sentence) = false /\
  parsed_data (sample_leaf gtube_sentence) <> [] /\
  exists t' p,
    rspamd_message_process_text_part sample_flags sample_externals 0 gtube_task
      = Some (tt, t') /\
    text_parts t' = text_parts gtube_task ++ [p] /\
    mime_part p = Some 0%nat /\
    parts t' = <[0%nat := linked_part sample_flags (length (text_parts gtube_task))
                            (sample_leaf gtube_sentence)]> (parts gtube_task) /\
    specific_txt (linked_part sample_flags (length (text_parts gtube_task))
                    (sample_leaf gtube_sentence))
      = Some (length (text_parts gtube_task)) /\
    flag_set (mp_flags (linked_part sample_flags (length (text_parts gtube_task))
                          (sample_leaf gtube_sentence)))
             (RSPAMD_MIME_PART_TEXT sample_flags).
Proof.
  split; [reflexivity|]. split; [reflexivity|]. split; [reflexivity|].
  split; [discriminate|].
  apply (text_part_is_linked_both_ways sample_flags sample_externals 0 gtube_task
           (sample_leaf gtube_sentence) (sample_ct "text" "plain" 4)
           eq_refl eq_refl eq_refl).
  discriminate.
Defined.

(** ** Received headers, envelope and recipients *)

Section Envelope.

Variable K : flag_consts.
Variable X : externals.

Lemma set_received_same (t : rspamd_task) : set_received (received t) t = t.
Proof. destruct t. reflexivity. Qed.

(** The headers after the first one: each gives the entry the parser
    returns on the task as it is then, and nothing but [received] changes. *)
Lemma received_rest (l : list rspamd_mime_header) :
  forall (i : nat) (t : rspamd_task),
    (0 < i)%nat ->
    exists more,
      ptr_array_foreach i l (message_parse_received_header K X) t
        = Some (tt, set_received (received t ++ more) t) /\
      length more = length l /\
      forall j rhj, l !! j = Some rhj ->
        more !! j = Some (rspamd_smtp_recieved_parse X
                            (set_received (received t ++ take j more) t)
                            (hdr_decoded rhj)).
Proof.
  induction l as [|rh l IH]; intros i t Hi; cbn [ptr_array_foreach].
  - exists []. split; [now rewrite app_nil_r, set_received_same|].
    split; [reflexivity|]. intros j rhj [=].
  - unfold message_parse_received_header at 1.
    unfold bind at 1. unfold bind at 1. cbn [get].
    destruct i as [|i]; [lia|]. cbn [Nat.eqb].
    unfold bind at 1. cbn [ret modify].
    set (r0 := rspamd_smtp_recieved_parse X t (hdr_decoded rh)).
    destruct (IH (S (S i)) (set_received (received t ++ [r0]) t))
      as (more & Hrun & Hlen & Hent); [lia|].
    exists (r0 :: more).
    split; [|split; [cbn; now rewrite Hlen|]].
    + rewrite Hrun. cbn [received set_received]. rewrite <- app_assoc. reflexivity.
    + intros [|j] rhj Hj.
      * injection Hj as <-. cbn [take lookup]. rewrite app_nil_r, set_received_same.
        reflexivity.
      * cbn in Hj. specialize (Hent j rhj Hj). cbn [take].
        change ((r0 :: more) !! S j) with (more !! j).
        rewrite Hent. cbn [received set_received]. rewrite <- app_assoc. reflexivity.
Qed.

Lemma received_first (rh : rspamd_mime_header) (t : rspamd_task) :
  message_parse_received_header K X 0 rh t = Some (tt, after_first_received K X t rh) /\
  received (after_first_received K X t rh) =
    received t ++
    wants_fake_received K X t (rspamd_smtp_recieved_parse X t (hdr_decoded rh)) ++
    [rspamd_smtp_recieved_parse X t (hdr_decoded rh)].
Proof.
  split; [|reflexivity].
  unfold message_parse_received_header, after_first_received, wants_fake_received.
  unfold bind at 1. cbn [get]. cbn [Nat.eqb]. cbv zeta.
  set (recv := rspamd_smtp_recieved_parse X t (hdr_decoded rh)).
  assert (Hfake : forall fa,
            ((msg_debug_task "the first received seems to be not ours, replace it with fake one" ;;;
              modify (fun t0 => set_received (received t0 ++ [fake_received X t fa]) t0)) ;;;
             modify (fun t0 => set_received (received t0 ++ [recv]) t0)) t
            = Some (tt, set_received (received t ++ [fake_received X t fa] ++ [recv])
                          (set_log (log t ++ [mkLog LOG_DEBUG
                             "the first received seems to be not ours, replace it with fake one"])
                             t))).
  { intros fa. unfold bind, msg_debug_task, log_msg, modify.
    cbn [received set_received set_log]. now rewrite <- app_assoc. }
  destruct (from_addr t) as [fa|] eqn:Efa.
  - destruct (has_flag (task_flags t) (RSPAMD_TASK_FLAG_NO_IP K)) eqn:Eno; cbn [negb andb].
    + rewrite andb_false_r. reflexivity.
    + rewrite andb_true_r.
      destruct (real_ip recv) as [ip|] eqn:Eip.
      * rewrite bool_decide_eq_false_2 by discriminate. cbn [orb].
        destruct (cfg_ignore_received t); cbn [orb].
        -- apply Hfake.
        -- destruct (match recv_addr recv with Some _ => _ | None => _ end);
             [apply Hfake | reflexivity].
      * rewrite bool_decide_eq_true_2 by reflexivity. cbn [orb]. apply Hfake.
  - reflexivity.
Qed.

(** Lines 786-802 leave [received] alone. *)
Lemma received_address (t : rspamd_task) :
  exists t',
    (task <- get ;;
     match received task with
     | recv :: _ =>
         if has_flag (task_flags task) (RSPAMD_TASK_FLAG_NO_IP K) &&
            match cfg task with Some c => negb (ignore_received c) | None => false end
         then
           match real_ip recv with
           | Some ip =>
               match rspamd_parse_inet_address X ip with
               | Some a => modify (set_from_addr (Some a))
               | None =>
                   msg_warn_task "cannot get IP from received header: '%s'" ;;;
                   modify (set_from_addr None)
               end
           | None => ret tt
           end ;;;
           match real_hostname recv with
           | Some h => modify (set_hostname (Some h))
           | None => ret tt
           end
         else ret tt
     | [] => ret tt
     end) t = Some (tt, t') /\
    received t' = received t.
Proof.
  unfold bind at 1. cbn [get].
  destruct (received t) as [|recv l] eqn:E; [exists t; now split|].
  destruct (_ && _); [|exists t; now split].
  destruct (real_ip recv) as [ip|]; [destruct (rspamd_parse_inet_address X ip)|];
    destruct (real_hostname recv); eexists; (split; [reflexivity | exact E]).
Qed.

(** X18.  The Received stage never fails.  Every Received header gives
    one entry of [received], in the order of the headers and after the
    entries that were there.  One more entry, made of the client address and
    host name, goes in front of the first header's entry exactly when the
    client address is known, the task is not flagged NO_IP, and the first
    header has no real IP, or Received headers are to be ignored, or its
    address is missing or differs from the client's.  The entry of every
    later header is what the parser returns for that header on the task as
    it is then: the task after the first header, with the entries of the
    headers in between appended to [received]. *)
Theorem received_entries (t : rspamd_task) :
  exists t',
    message_parse_received K X t = Some (tt, t') /\
    match rspamd_message_get_header_array t "Received" false with
    | Some (rh :: rest) =>
        let recv := rspamd_smtp_recieved_parse X t (hdr_decoded rh) in
        let t1 := after_first_received K X t rh in
        exists more,
          received t' = received t ++ wants_fake_received K X t recv ++ recv :: more /\
          length more = length rest /\
          forall j rhj, rest !! j = Some rhj ->
            more !! j = Some (rspamd_smtp_recieved_parse X
                                (set_received (received t1 ++ take j more) t1)
                                (hdr_decoded rhj))
    | _ => received t' = received t
    end.
Proof.
  unfold message_parse_received. unfold bind at 1. cbn [get].
  destruct (rspamd_message_get_header_array t "Received" false) as [[|rh rest]|].
  - cbn [ptr_array_foreach]. unfold bind at 1. cbn [ret]. apply received_address.
  - cbn [ptr_array_foreach].
    destruct (received_first rh t) as (Hfirst & Hrec1).
    set (t1 := after_first_received K X t rh) in *.
    destruct (received_rest rest 1 t1) as (more & Hrest & Hlen & Hent); [lia|].
    destruct (received_address (set_received (received t1 ++ more) t1)) as (t' & Htail & Hrec').
    exists t'. split.
    + unfold bind at 1. unfold bind at 1. rewrite Hfirst. rewrite Hrest. exact Htail.
    + cbv zeta. exists more. split; [|split; [exact Hlen | exact Hent]].
      rewrite Hrec'. cbn [received set_received]. rewrite Hrec1.
      rewrite <- !app_assoc. reflexivity.
  - unfold bind at 1. cbn [ret]. apply received_address.
Qed.

Lemma set_rcpt_mime_same (t : rspamd_task) (v : option (list string)) :
  rcpt_mime t = v -> set_rcpt_mime v t = t.
Proof. destruct t. cbn. now intros ->. Qed.

Lemma recipients_of_headers (l : list rspamd_mime_header) :
  forall (i : nat) (t : rspamd_task) (acc : list string),
    rcpt_mime t = Some acc ->
    ptr_array_foreach i l (fun _ rh =>
      match internet_address_list_parse_string X (hdr_decoded rh) with
      | Some tia =>
          modify (fun t => set_rcpt_mime (Some (default [] (rcpt_mime t) ++ tia)) t)
      | None => ret tt
      end) t
    = Some (tt, set_rcpt_mime
                  (Some (acc ++ concat (omap (fun rh =>
                     internet_address_list_parse_string X (hdr_decoded rh)) l))) t).
Proof.
  induction l as [|rh l IH]; intros i t acc Hacc; cbn [ptr_array_foreach omap list_omap concat].
  - rewrite app_nil_r. now rewrite set_rcpt_mime_same.
  - unfold bind at 1.
    destruct (internet_address_list_parse_string X (hdr_decoded rh)) as [tia|] eqn:E.
    + cbn [modify]. rewrite (IH _ _ (acc ++ tia)) by (cbn; now rewrite Hacc).
      cbn. now rewrite <- app_assoc.
    + cbn [ret]. now rewrite (IH _ _ acc Hacc).
Qed.

Lemma recipients_of_field (field : string) (task t : rspamd_task) (acc : list string) :
  rcpt_mime t = Some acc ->
  match rspamd_message_get_header_array task field false with
  | Some hdrs =>
      ptr_array_foreach 0 hdrs (fun _ rh =>
        match internet_address_list_parse_string X (hdr_decoded rh) with
        | Some tia =>
            modify (fun t => set_rcpt_mime (Some (default [] (rcpt_mime t) ++ tia)) t)
        | None => ret tt
        end)
  | None => ret tt
  end t
  = Some (tt, set_rcpt_mime
                (Some (acc ++ concat (omap (fun rh =>
                   internet_address_list_parse_string X (hdr_decoded rh))
                   (default [] (rspamd_message_get_header_array task field false))))) t).
Proof.
  intros Hacc. destruct (rspamd_message_get_header_array task field false) as [hdrs|].
  - now apply recipients_of_headers.
  - cbn. rewrite app_nil_r. now rewrite set_rcpt_mime_same.
Qed.

(** X19.  After the envelope stage the MIME recipients are the addresses
    parsed from the To headers, then the Cc headers, then the Bcc headers
    (a header that does not parse is skipped); what [rcpt_mime] held before
    is not kept.  An envelope sender or a Delivered-To value that is already
    set is never replaced; otherwise they come from the first Return-Path and
    Delivered-To header.  The MIME sender is parsed from the raw value of
    the first From header, and stays as it was without one. *)
Theorem envelope_recipients (t : rspamd_task) :
  exists t',
    message_parse_envelope X t = Some (tt, t') /\
    rcpt_mime t' =
      Some (concat (omap (fun rh => internet_address_list_parse_string X (hdr_decoded rh))
                         (recipient_headers t))) /\
    from_envelope t' =
      match from_envelope t, first_header t "Return-Path" with
      | None, Some rh => rspamd_email_address_from_smtp X (hdr_decoded rh)
      | e, _ => e
      end /\
    deliver_to t' =
      match deliver_to t, first_header t "Delivered-To" with
      | None, Some rh => Some (hdr_decoded rh)
      | v, _ => v
      end /\
    from_mime t' =
      match first_header t "From" with
      | Some rh => internet_address_list_parse_string X (hdr_value rh)
      | None => from_mime t
      end.
Proof.
  unfold message_parse_envelope, first_header, recipient_headers.
  unfold bind at 1. cbn [get].
  set (t1 := match from_envelope t, rspamd_message_get_header_array t "Return-Path" false with
             | None, Some (rh :: _) =>
                 set_from_envelope (rspamd_email_address_from_smtp X (hdr_decoded rh)) t
             | _, _ => t
             end).
  assert (E1 : match from_envelope t, rspamd_message_get_header_array t "Return-Path" false with
               | None, Some (rh :: _) =>
                   modify (set_from_envelope (rspamd_email_address_from_smtp X (hdr_decoded rh)))
               | _, _ => ret tt
               end t = Some (tt, t1)).
  { subst t1. destruct (from_envelope t); [reflexivity|].
    destruct (rspamd_message_get_header_array t "Return-Path" false) as [[|rh l]|]; reflexivity. }
  rewrite (bind_eq _ _ _ _ _ E1).
  set (t2 := match deliver_to t, rspamd_message_get_header_array t "Delivered-To" false with
             | None, Some (rh :: _) => set_deliver_to (Some (hdr_decoded rh)) t1
             | _, _ => t1
             end).
  assert (E2 : match deliver_to t, rspamd_message_get_header_array t "Delivered-To" false with
               | None, Some (rh :: _) => modify (set_deliver_to (Some (hdr_decoded rh)))
               | _, _ => ret tt
               end t1 = Some (tt, t2)).
  { subst t2. destruct (deliver_to t); [reflexivity|].
    destruct (rspamd_message_get_header_array t "Delivered-To" false) as [[|rh l]|]; reflexivity. }
  rewrite (bind_eq _ _ _ _ _ E2).
  unfold bind at 1. cbn [modify].
  cbn [ptr_array_foreach].
  unfold bind at 1. unfold bind at 1.
  rewrite (recipients_of_field "To" t _ []) by reflexivity.
  unfold bind at 1.
  rewrite (recipients_of_field "Cc" t _ _) by reflexivity.
  unfold bind at 1.
  rewrite (recipients_of_field "Bcc" t _ _) by reflexivity.
  cbn [ret]. cbn [app].
  match goal with |- exists t', ?m ?s = _ /\ _ => set (t3 := s) end.
  assert (A1 : from_envelope t1 =
                 match from_envelope t, rspamd_message_get_header_array t "Return-Path" false with
                 | None, Some (rh :: _) => rspamd_email_address_from_smtp X (hdr_decoded rh)
                 | e, _ => e
                 end /\
               deliver_to t1 = deliver_to t /\ from_mime t1 = from_mime t).
  { subst t1. destruct (from_envelope t) eqn:E; [now rewrite E|].
    destruct (rspamd_message_get_header_array t "Return-Path" false) as [[|rh l]|];
      cbn; rewrite ?E; now repeat split. }
  assert (A2 : from_envelope t2 = from_envelope t1 /\
               deliver_to t2 =
                 match deliver_to t, rspamd_message_get_header_array t "Delivered-To" false with
                 | None, Some (rh :: _) => Some (hdr_decoded rh)
                 | v, _ => v
                 end /\
               from_mime t2 = from_mime t1).
  { destruct A1 as (_ & Hd1 & _). subst t2. destruct (deliver_to t) eqn:E; [now rewrite Hd1|].
    destruct (rspamd_message_get_header_array t "Delivered-To" false) as [[|rh l]|];
      cbn; rewrite ?Hd1; now repeat split. }
  assert (A3 : rcpt_mime t3 =
    Some (concat (omap (fun rh => internet_address_list_parse_string X (hdr_decoded rh))
            (default [] (rspamd_message_get_header_array t "To" false) ++
             default [] (rspamd_message_get_header_array t "Cc" false) ++
             default [] (rspamd_message_get_header_array t "Bcc" false)))) /\
    from_envelope t3 = from_envelope t2 /\ deliver_to t3 = deliver_to t2 /\
    from_mime t3 = from_mime t2).
  { subst t3. cbn. split; [|now repeat split].
    rewrite !omap_app, !concat_app, <- !app_assoc. reflexivity. }
  destruct A1 as (He1 & Hd1 & Hf1). destruct A2 as (He2 & Hd2 & Hf2).
  destruct A3 as (Hr3 & He3 & Hd3 & Hf3).
  assert (Hspec_e : from_envelope t3 =
            match from_envelope t,
                  match rspamd_message_get_header_array t "Return-Path" false with
                  | Some (rh :: _) => Some rh
                  | _ => None
                  end with
            | None, Some rh => rspamd_email_address_from_smtp X (hdr_decoded rh)
            | e, _ => e
            end).
  { rewrite He3, He2, He1. destruct (from_envelope t);
      destruct (rspamd_message_get_header_array t "Return-Path" false) as [[|? ?]|];
      reflexivity. }
  assert (Hspec_d : deliver_to t3 =
            match deliver_to t,
                  match rspamd_message_get_header_array t "Delivered-To" false with
                  | Some (rh :: _) => Some rh
                  | _ => None
                  end with
            | None, Some rh => Some (hdr_decoded rh)
            | v, _ => v
            end).
  { rewrite Hd3, Hd2. destruct (deliver_to t);
      destruct (rspamd_message_get_header_array t "Delivered-To" false) as [[|? ?]|];
      reflexivity. }
  destruct (rspamd_message_get_header_array t "From" false) as [[|rh l]|].
  - exists t3. split; [reflexivity|]. repeat split; try assumption. congruence.
  - eexists. split; [reflexivity|]. cbn [rcpt_mime from_envelope deliver_to from_mime
      set_from_mime]. repeat split; assumption.
  - exists t3. split; [reflexivity|]. repeat split; try assumption. congruence.
Qed.

End Envelope.

(** ** Input that is not MIME *)

Section Raw.

Variable K : flag_consts.
Variable X : externals.

Lemma message_parse_start_frame (t : rspamd_task) (m : list byte) :
  msg t = Some m ->
  exists p t0,
    message_parse_start K t = Some (Some p, t0) /\
    task_flags t0 = task_flags t /\ parts t0 = parts t /\
    text_parts t0 = text_parts t /\ raw_headers t0 = raw_headers t.
Proof.
  intros Hmsg. unfold message_parse_start, bind. cbn [get]. rewrite Hmsg.
  destruct (mailbox_input K t _); eexists _, _; repeat split; reflexivity.
Qed.

(** Lines 673-958 add no MIME part, and text parts only for MIME parts that
    are there. *)
Lemma message_parse_rest_grown (d : Prop) (st : list byte) (t : rspamd_task) :
  d \/ well_linked t = true ->
  hoare d (message_parse_rest K X st)
    (fun r t' =>
       r = true /\
       map part_link (parts t') = map part_link (parts t) /\
       exists new,
         map mime_part (text_parts t') = map mime_part (text_parts t) ++ map Some new /\
         Forall (fun i => (i < length (parts t))%nat) new) t.
Proof.
  intros Hsafe. unfold message_parse_rest.
  hstep. eapply hoare_mono; [|apply message_id_stage].
  2:{ destruct Hsafe as [Hd|Hwl]; [now left | right; apply well_linked_headers, Hwl]. }
  intros u1 t1 (Hid & Hh & Hps & Htp). cbv beta.
  assert (Hsafe1 : d \/ well_linked t1 = true).
  { destruct Hsafe as [Hd|Hwl]; [now left | right].
    unfold well_linked in *. now rewrite Hh, Hps, Htp. }
  assert (Hinv : forall t', grown_links t1 t' -> d \/ well_linked t' = true).
  { intros t' Hg. destruct Hsafe1 as [Hd|Hwl]; [now left | right].
    eapply well_linked_grown; eassumption. }
  assert (Hstep : forall t' t'', grown_links t1 t' -> same_links t' t'' -> grown_links t1 t'').
  { intros t' t'' Hg Hs. eapply grown_links_trans; [exact Hg|].
    apply same_links_grown, Hs. }
  hstep. eapply hoare_mono; [|apply (subject_same_links d t1 t1)].
  2:{ destruct Hsafe1 as [Hd|Hwl]; [now left | right; apply well_linked_headers, Hwl]. }
  2:{ apply same_links_refl. }
  intros u2 t2 H2%same_links_grown. cbv beta.
  hstep. hstep. hstep.
  eapply hoare_mono; [|apply (message_parse_parts_grown K X d _ _ t1 t2 H2)].
  intros u3 t3 H3. cbv beta.
  hstep. eapply hoare_mono; [|apply (images_archives_same_links X d t3 t3), same_links_refl].
  intros u4 t4 H4%(Hstep _ _ H3). cbv beta.
  hstep. eapply hoare_mono; [|apply (received_same_links K X d t4 t4), same_links_refl].
  intros u5 t5 H5%(Hstep _ _ H4). cbv beta.
  hstep. eapply hoare_mono; [|apply (envelope_same_links X d t5 t5), same_links_refl].
  intros u6 t6 H6%(Hstep _ _ H5). cbv beta.
  hstep. eapply hoare_mono; [|apply (subject_urls_same_links X d t6 t6), same_links_refl].
  intros u7 t7 H7%(Hstep _ _ H6). cbv beta.
  hstep. eapply hoare_mono;
    [|apply (distance_same_links K X d t7 t7); [apply Hinv, H7 | apply same_links_refl]].
  intros u8 t8 H8%(Hstep _ _ H7). cbv beta.
  hstep. eapply hoare_mono; [|apply (digest_same_links X d st t8 t8), same_links_refl].
  intros u9 t9 H9%(Hstep _ _ H8). cbv beta.
  hstep. split; [reflexivity|]. destruct H9 as (_ & _ & Hl & new & Hn & Hf).
  rewrite <- Hps, <- Htp. split; [exact Hl|]. exists new. split; [exact Hn | exact Hf].
Qed.

(** X20.  On a task that is not flagged MIME and has a message (the
    pointer to it is not NULL, so the assertion of line 544 holds) the parse
    always succeeds and adds no MIME part: the part built from the raw data
    (lines 568-573) is not put in [parts].  So the number of parts stays, and
    a text part appears only for a MIME part the task had before; a task
    without parts ends without text parts. *)
Theorem raw_input_is_not_split (t : rspamd_task) (m : list byte) :
  RSPAMD_TASK_IS_EMPTY K t = false ->
  has_flag (task_flags t) (RSPAMD_TASK_FLAG_MIME K) = false ->
  msg t = Some m ->
  well_linked t = true ->
  exists t',
    rspamd_message_parse K X t = Some (true, t') /\
    length (parts t') = length (parts t) /\
    (exists new,
       map mime_part (text_parts t') = map mime_part (text_parts t) ++ map Some new /\
       Forall (fun i => (i < length (parts t))%nat) new) /\
    (parts t = [] -> text_parts t = [] -> text_parts t' = []).
Proof.
  intros Hne Hmime Hmsg Hwl.
  destruct (message_parse_start_frame t m Hmsg) as (p & t0 & Hs & Hf0 & Hp0 & Ht0 & Hh0).
  set (mid := Some (rspamd_mime_message_id_generate X "localhost.localdomain")).
  set (t1 := set_queue_id mid (set_message_id mid
               (set_log (log (clear_mime_flag K t0) ++
                         [mkLog LOG_WARN "construct fake mime of type: %s"])
                  (clear_mime_flag K t0)))).
  assert (Hm : message_parse_mime K X (Some p) t0 = Some (true, t1)).
  { unfold message_parse_mime. unfold bind at 1. cbn [get]. rewrite Hf0, Hmime.
    unfold bind at 1. cbn [modify]. unfold bind at 1.
    rewrite (message_from_data_eq X p _). reflexivity. }
  assert (Hwl1 : well_linked t1 = true).
  { unfold well_linked in *. subst t1. cbn. now rewrite Hp0, Ht0, Hh0. }
  destruct (hoare_total _ _ _
              (message_parse_rest_grown False (rspamd_cryptobox_hash_init X) t1 (or_intror Hwl1)))
    as (r & t' & Hrun & -> & Hl & new & Hn & Hfa).
  assert (Hp1 : parts t1 = parts t) by (subst t1; cbn; exact Hp0).
  assert (Ht1 : text_parts t1 = text_parts t) by (subst t1; cbn; exact Ht0).
  rewrite Hp1 in Hl, Hfa. rewrite Ht1 in Hn.
  exists t'. split; [|split; [|split]].
  - unfold rspamd_message_parse. unfold bind at 1. cbn [get]. rewrite Hne.
    rewrite (bind_eq _ _ _ _ _ Hs). rewrite (bind_eq _ _ _ _ _ Hm). exact Hrun.
  - rewrite <- (length_map part_link (parts t')), Hl. apply length_map.
  - exists new. split; assumption.
  - intros Hnil Htnil. rewrite Hnil in Hfa. rewrite Htnil in Hn.
    destruct new as [|i new]; [|apply Forall_cons in Hfa as [Hi _]; cbn in Hi; lia].
    cbn in Hn. now apply map_eq_nil in Hn.
Qed.

End Raw.

Lemma raw_input_is_not_split_sample :
  RSPAMD_TASK_IS_EMPTY sample_flags
    (sample_task (bytes_of "hello world") 0 (Some sample_config) (fun _ => None)) = false /\
  has_flag (task_flags
    (sample_task (bytes_of "hello world") 0 (Some sample_config) (fun _ => None)))
    (RSPAMD_TASK_FLAG_MIME sample_flags) = false /\
  msg (sample_task (bytes_of "hello world") 0 (Some sample_config) (fun _ => None))
    = Some (bytes_of "hello world") /\
  well_linked
    (sample_task (bytes_of "hello world") 0 (Some sample_config) (fun _ => None)) = true /\
  exists t',
    rspamd_message_parse sample_flags sample_externals
      (sample_task (bytes_of "hello world") 0 (Some sample_config) (fun _ => None))
      = Some (true, t') /\
    length (parts t') = length (parts
      (sample_task (bytes_of "hello world") 0 (Some sample_config) (fun _ => None))) /\
    (exists new,
       map mime_part (text_parts t') = map mime_part (text_parts
         (sample_task (bytes_of "hello world") 0 (Some sample_config) (fun _ => None)))
         ++ map Some new /\
       Forall (fun i => (i < length (parts
         (sample_task (bytes_of "hello world") 0 (Some sample_config) (fun _ => None))))%nat)
         new) /\
    (parts (sample_task (bytes_of "hello world") 0 (Some sample_config) (fun _ => None)) = [] ->
     text_parts (sample_task (bytes_of "hello world") 0 (Some sample_config) (fun _ => None)) = [] ->
     text_parts t' = []).
Proof.
  split; [reflexivity|]. split; [reflexivity|]. split; [reflexivity|].
  split; [reflexivity|].
  apply (raw_input_is_not_split sample_flags sample_externals _ (bytes_of "hello world"));
    reflexivity.
Defined.

(** ** When a distance is published *)

Section Published.

Variable K : flag_consts.
Variable X : externals.

Lemma publish_distance_cases (h1 h2 : list Z) (t t' : rspamd_task) :
  message_parse_publish_distance h1 h2 t = Some (tt, t') ->
  pool_variables t' = pool_variables t \/ (h1 <> [] \/ h2 <> []).
Proof.
  unfold message_parse_publish_distance.
  destruct h1 as [|a h1]; [|intros _; right; left; discriminate].
  destruct h2 as [|b h2]; [|intros _; right; right; discriminate].
  cbn. intros [= <-]. now left.
Qed.

(** X21.  The pool variables change in the distance stage only for a pair
    of text parts that qualifies - the only two text parts, under one parent
    of subtype "alternative", neither flagged empty, both with hashes - and
    only if the two have a word between them: there is never a division by
    zero, and in every other case the variables stay as they were. *)
Theorem distance_published_only_for_pairs (t t' : rspamd_task) :
  message_parse_distance K X t = Some (tt, t') ->
  pool_variables t' = pool_variables t \/
  exists h1 h2, alternative_pair K X t h1 h2 /\ (h1 <> [] \/ h2 <> []).
Proof.
  unfold message_parse_distance. unfold bind at 1. cbn [get].
  destruct (text_parts t) as [|p1 [|p2 [|p3 l]]] eqn:Etp;
    try (intros [= <-]; now left).
  unfold bind at 1. destruct (mime_part p1) as [i1|] eqn:E1; [|discriminate].
  cbn [deref ret]. unfold bind at 1. unfold get_part at 1. unfold bind at 1. cbn [get].
  destruct (parts t !! i1) as [m1|] eqn:Em1; [|discriminate]. cbn [deref ret].
  destruct (parent_part m1) as [q|] eqn:Eq; [|intros [= <-]; now left].
  unfold bind at 1. destruct (mime_part p2) as [i2|] eqn:E2; [|discriminate].
  cbn [deref ret]. unfold bind at 1. unfold get_part at 1. unfold bind at 1. cbn [get].
  destruct (parts t !! i2) as [m2|] eqn:Em2; [|discriminate]. cbn [deref ret].
  destruct (bool_decide (parent_part m2 = Some q)) eqn:Ep; [|intros [= <-]; now left].
  apply bool_decide_eq_true_1 in Ep.
  unfold bind at 1. unfold get_part at 1. unfold bind at 1. cbn [get].
  destruct (parts t !! q) as [par|] eqn:Epar; [|discriminate]. cbn [deref ret].
  unfold bind at 1. destruct (ct par) as [c|] eqn:Ec; [|discriminate]. cbn [deref ret].
  destruct (rspamd_ftok_cmp X (subtype c) alternative_tok =? 0) eqn:Ecmp;
    [|intros [= <-]; now left].
  apply Z.eqb_eq in Ecmp.
  destruct (negb (IS_PART_EMPTY K p1) && negb (IS_PART_EMPTY K p2)) eqn:Eempty;
    [|intros [= <-]; now left].
  apply andb_true_iff in Eempty as [Hn1%negb_true_iff Hn2%negb_true_iff].
  destruct (normalized_hashes p1) as [h1|] eqn:Eh1; [|intros [= <-]; now left].
  destruct (normalized_hashes p2) as [h2|] eqn:Eh2; [|intros [= <-]; now left].
  intros Hpub. apply publish_distance_cases in Hpub as [Hsame|Hwords]; [now left | right].
  exists h1, h2. split; [|exact Hwords].
  exists p1, p2, i1, i2, m1, m2, q, par, c. repeat split; assumption.
Qed.

End Published.

Lemma distance_published_only_for_pairs_sample :
  exists t',
    message_parse_distance sample_flags sample_externals (two_part_task [1; 2; 3] [1; 2; 4])
      = Some (tt, t') /\
    (pool_variables t' = pool_variables (two_part_task [1; 2; 3] [1; 2; 4]) \/
     exists h1 h2,
       alternative_pair sample_flags sample_externals (two_part_task [1; 2; 3] [1; 2; 4]) h1 h2 /\
       (h1 <> [] \/ h2 <> [])).
Proof.
  eexists. split; [vm_compute; reflexivity|].
  apply (distance_published_only_for_pairs sample_flags sample_externals).
  vm_compute. reflexivity.
Defined.

(** ** Message-ID and Subject headers *)

(** X23.  The Message-ID and Subject arrays are tested for NULL and then
    read at index 0, without a look at their length (lines 676-679 and
    704-705): the stages go wrong exactly on an array that is there and
    empty - for Subject only when the task has no subject yet.  (The lookups
    of lines 807-854 test the length.) *)
Theorem header_index_without_length (t : rspamd_task) :
  (message_parse_message_id t = None <-> raw_headers t "Message-ID" = Some []) /\
  (message_parse_subject t = None <->
     subject t = None /\ raw_headers t "Subject" = Some []).
Proof.
  unfold message_parse_message_id, message_parse_subject, rspamd_message_get_header_array,
    rspamd_message_get_header_from_hash, debug_task, log_msg, bind, get, deref, modify,
    ret, fault.
  cbn [andb]. split.
  - destruct (raw_headers t "Message-ID") as [[|rh l]|] eqn:E; cbn.
    + split; reflexivity.
    + split; [discriminate | intros [=]].
    + destruct (message_id t); split; try discriminate; intros [=].
  - destruct (subject t) as [s|] eqn:Es.
    + cbn. destruct (queue_id t); split; try discriminate; intros [[=] _].
    + destruct (raw_headers t "Subject") as [[|rh l]|] eqn:E; cbn.
      * split; [intros _; now split | reflexivity].
      * destruct (queue_id t); split; try discriminate; intros [_ [=]].
      * destruct (queue_id t); split; try discriminate; intros [_ [=]].
Qed.

(** X24.  A subject the task already has is never replaced by the Subject
    header; without one the decoded value of the first Subject header is
    taken.  After the stage the queue id is set: the one the task had, or
    "undef". *)
Theorem subject_given_wins (t : rspamd_task) :
  header_array_ok (raw_headers t) "Subject" = true ->
  exists t',
    message_parse_subject t = Some (tt, t') /\
    subject t' = match subject t with
                 | Some s => Some s
                 | None => option_map hdr_decoded (first_header t "Subject")
                 end /\
    queue_id t' = Some (default "undef"%string (queue_id t)).
Proof.
  unfold header_array_ok, first_header, message_parse_subject,
    rspamd_message_get_header_array, rspamd_message_get_header_from_hash,
    debug_task, log_msg, bind, get, deref, modify, ret, fault.
  cbn [andb]. intros Hok.
  destruct (subject t) as [s|] eqn:Es.
  - cbn. destruct (queue_id t) eqn:Eq;
      eexists; (split; [reflexivity|]); cbn; rewrite ?Es, ?Eq; split; reflexivity.
  - destruct (raw_headers t "Subject") as [[|rh l]|] eqn:E; [discriminate| |];
      cbn; destruct (queue_id t) eqn:Eq;
      eexists; (split; [reflexivity|]); cbn; rewrite ?Es, ?Eq; split; reflexivity.
Qed.

Lemma subject_given_wins_sample :
  header_array_ok (raw_headers subject_parts_task) "Subject" = true /\
  exists t',
    message_parse_subject subject_parts_task = Some (tt, t') /\
    subject t' = match subject subject_parts_task with
                 | Some s => Some s
                 | None => option_map hdr_decoded (first_header subject_parts_task "Subject")
                 end /\
    queue_id t' = Some (default "undef"%string (queue_id subject_parts_task)).
Proof.
  split; [reflexivity|].
  apply (subject_given_wins subject_parts_task). reflexivity.
Defined.

(** ** The text parts of a parsed message *)

Section TextParts.

Variable K : flag_consts.
Variable X : externals.

Lemma message_id_keeps_input : keeps loop_input message_parse_message_id.
Proof. unfold message_parse_message_id. repeat keeps_step ltac:(reflexivity). Qed.

Lemma subject_keeps_input : keeps loop_input message_parse_subject.
Proof. unfold message_parse_subject. repeat keeps_step ltac:(reflexivity). Qed.

(** Lines 673-958: the text parts at the end are those the loop over the
    parts leaves. *)
Lemma message_parse_rest_text_parts (st : list byte) (t : rspamd_task) :
  hoare True (message_parse_rest K X st)
    (fun _ t' =>
       map mime_part (text_parts t')
       = map mime_part (text_parts t) ++ map Some (text_part_sources K t 0 (parts t))) t.
Proof.
  unfold message_parse_rest.
  hstep. eapply hoare_mono;
    [|apply (hoare_keeps True loop_input _ (fun _ _ => True) t message_id_keeps_input),
        hoare_partial].
  intros u1 t1 [_ H1]. cbv beta.
  hstep. eapply hoare_mono;
    [|apply (hoare_keeps True loop_input _ (fun _ _ => True) t1 subject_keeps_input),
        hoare_partial].
  intros u2 t2 [_ H2]. cbv beta.
  assert (Hin : cfg t2 = cfg t /\ parts t2 = parts t /\ text_parts t2 = text_parts t).
  { unfold loop_input in H1, H2. repeat split; congruence. }
  destruct Hin as (Hcfg & Hps & Htp).
  hstep. hstep. hstep.
  destruct (parts_loop_text_parts K X t2) as (t3 & Hloop & Hmap).
  unfold hoare at 1. rewrite Hloop.
  assert (H3 : map mime_part (text_parts t3)
               = map mime_part (text_parts t) ++ map Some (text_part_sources K t 0 (parts t))).
  { rewrite Hmap, Htp. f_equal. f_equal. apply text_part_sources_ext; [exact Hcfg|].
    now rewrite Hps. }
  assert (Hstep : forall t' t'', map mime_part (text_parts t') = map mime_part (text_parts t3) ->
                                 same_links t' t'' ->
                                 map mime_part (text_parts t'') = map mime_part (text_parts t3)).
  { intros t' t'' Ht' (_ & _ & _ & Hs). congruence. }
  hstep. eapply hoare_mono; [|apply (images_archives_same_links X True t3 t3), same_links_refl].
  intros u4 t4 H4%(Hstep _ _ eq_refl). cbv beta.
  hstep. eapply hoare_mono; [|apply (received_same_links K X True t4 t4), same_links_refl].
  intros u5 t5 H5%(Hstep _ _ H4). cbv beta.
  hstep. eapply hoare_mono; [|apply (envelope_same_links X True t5 t5), same_links_refl].
  intros u6 t6 H6%(Hstep _ _ H5). cbv beta.
  hstep. eapply hoare_mono; [|apply (subject_urls_same_links X True t6 t6), same_links_refl].
  intros u7 t7 H7%(Hstep _ _ H6). cbv beta.
  hstep. eapply hoare_mono;
    [|apply (distance_same_links K X True t7 t7); [now left | apply same_links_refl]].
  intros u8 t8 H8%(Hstep _ _ H7). cbv beta.
  hstep. eapply hoare_mono; [|apply (digest_same_links X True st t8 t8), same_links_refl].
  intros u9 t9 H9%(Hstep _ _ H8). cbv beta.
  hstep. congruence.
Qed.

(** X25.  After a parse that succeeds on a task that is not empty, the
    text parts are those the task had when the MIME stage ended, followed
    by exactly one text part for every MIME part that is text and not
    skipped as an attachment, in the order of the MIME parts and each
    pointing back to its MIME part: no later stage adds, drops or reorders
    a text part. *)
Theorem parse_text_parts_follow_parts (t t' : rspamd_task) :
  RSPAMD_TASK_IS_EMPTY K t = false ->
  rspamd_message_parse K X t = Some (true, t') ->
  exists p t0 t1,
    message_parse_start K t = Some (p, t0) /\
    message_parse_mime K X p t0 = Some (true, t1) /\
    map mime_part (text_parts t')
    = map mime_part (text_parts t1) ++ map Some (text_part_sources K t1 0 (parts t1)).
Proof.
  intros Hne H. apply parse_run in H as (p & t0 & r1 & t1 & Hs & Hm & H); [|exact Hne].
  destruct r1; [|destruct H as [[=] _]].
  exists p, t0, t1. split; [exact Hs|]. split; [exact Hm|].
  pose proof (message_parse_rest_text_parts (rspamd_cryptobox_hash_init X) t1) as Hr.
  unfold hoare in Hr. rewrite H in Hr. exact Hr.
Qed.

End TextParts.

Lemma parse_text_parts_follow_parts_sample :
  exists t',
    RSPAMD_TASK_IS_EMPTY sample_flags hello_task = false /\
    rspamd_message_parse sample_flags sample_externals hello_task = Some (true, t') /\
    exists p t0 t1,
      message_parse_start sample_flags hello_task = Some (p, t0) /\
      message_parse_mime sample_flags sample_externals p t0 = Some (true, t1) /\
      map mime_part (text_parts t')
      = map mime_part (text_parts t1)
        ++ map Some (text_part_sources sample_flags t1 0 (parts t1)).
Proof.
  eexists. split; [reflexivity|]. split; [vm_compute; reflexivity|].
  apply (parse_text_parts_follow_parts sample_flags sample_externals hello_task).
  - reflexivity.
  - vm_compute. reflexivity.
Defined.
